(** * efro.rpc: the RPC endpoint of tools/efro/rpc.py

    A shallow embedding of [RPCEndpoint] and [_InFlightMessage].

    Conventions of the embedding:
    - Python [bytes] is [list byte]; Python [int] is [Z].
    - A method is a function in the monad [M]: it takes the endpoint,
      and returns an outcome (a value or a raised exception) together
      with the endpoint as the method left it.  A raised exception keeps
      the mutations made before the [raise], as in Python.
    - A coroutine is cut at its [await]s: every piece between two
      suspension points is one definition, and the event loop is the
      trace of pieces it runs (see [Op] and [exec]).  The reads of the
      stream do not cut: the reader is touched by the read task alone,
      so the reads of one packet and the handling after them are one
      piece.
    - [asyncio.Task] objects live in a store ([loop_tasks]) and are named
      by their index, so that the references held by [_tasks], by an
      in-flight message and by a suspended [send_message] are aliases.
      The store never drops a task, so the weak references of [_tasks]
      do not die; they are pruned when their task is done.
    - An [_InFlightMessage] is held by value in the table: after its
      creation the only writer is [set_response], which goes through
      the table, and a suspended [send_message] reads nothing of it but
      the name of its task.
    - Python [float] is Rocq's primitive [float]: both are IEEE 754
      binary64 with round-to-nearest, so [time.monotonic()] readings,
      the float settings and their arithmetic are the code's own, and a
      decimal literal denotes the nearest binary64 value as in Python.
    - [print] and [logging] calls are left out. *)

From Stdlib Require Import ZArith List Bool String Lia.
From Stdlib Require Import Strings.Byte.
From Stdlib Require Import Floats.PrimFloat.
From stdpp Require Import base option gmap.
Import ListNotations.

Local Open Scope Z_scope.

(** ** Bytes and integers *)

Abbreviation bytes := (list byte).

Definition byte_of_Z (z : Z) : byte :=
  match Byte.of_N (Z.to_N (z mod 256)) with
  | Some b => b
  | None => x00
  end.

Definition Z_of_byte (b : byte) : Z := Z.of_N (Byte.to_N b).

(** Exceptions the module raises or lets through. *)
Inductive Exn :=
| RuntimeError (msg : string)
| CommunicationError (msg : string)
| AssertionError
| KeyError
| OverflowError
| ValueError
| AttributeError
| IncompleteReadError
| TimeoutError
| CancelledError
| KeepaliveTimeoutError
| HandlerError.

Inductive Outcome (A : Type) :=
| Returns (a : A)
| Raises (e : Exn).
Arguments Returns {A} a.
Arguments Raises {A} e.

(** [n.to_bytes(length, 'big')]: the big-endian digits of [n], or
    [OverflowError] when [n] is negative or does not fit. *)
Fixpoint be_digits (length : nat) (n : Z) : bytes :=
  match length with
  | O => []
  | S k => be_digits k (n / 256) ++ [byte_of_Z (n mod 256)]
  end.

Definition to_bytes (n : Z) (length : nat) : Outcome bytes :=
  if (0 <=? n) && (n <? 256 ^ Z.of_nat length)
  then Returns (be_digits length n)
  else Raises OverflowError.

(** [int.from_bytes(b, 'big')]. *)
Definition from_bytes (b : bytes) : Z :=
  fold_left (fun acc x => acc * 256 + Z_of_byte x) b 0.

(** [_PacketType]. *)
Inductive _PacketType := HANDSHAKE | KEEPALIVE | MESSAGE | RESPONSE.

Definition _PacketType_value (t : _PacketType) : Z :=
  match t with
  | HANDSHAKE => 0
  | KEEPALIVE => 1
  | MESSAGE => 2
  | RESPONSE => 3
  end.

(** [_PacketType(v)]: [ValueError] for an unknown tag. *)
Definition _PacketType_of_value (v : Z) : Outcome _PacketType :=
  if v =? 0 then Returns HANDSHAKE
  else if v =? 1 then Returns KEEPALIVE
  else if v =? 2 then Returns MESSAGE
  else if v =? 3 then Returns RESPONSE
  else Raises ValueError.

Definition OUR_PROTOCOL : Z := 1.

Record _PeerInfo := mk_PeerInfo {
  protocol : Z;
  keepalive_interval : float
}.

(** ** Tasks and streams *)

(** The coroutine a task runs.  [_run_core_task] wraps one of the three
    core loops; [_handle_raw_message] has its two arguments. *)
Inductive Coro :=
| CoreCoro (tasklabel : string)
| WaitCoro
| HandleRawMessageCoro (message_id : Z) (message : bytes).

(** The state of an [asyncio.Task].  [cancel()] on a pending task only
    requests the cancellation ([must_cancel]); the task is not [done()]
    until the loop has run it again.  A finished task holds its result:
    [Some b] for bytes, [None] for Python's [None]. *)
Inductive TaskState :=
| Pending (must_cancel : bool)
| Finished (result : option bytes)
| Failed (e : Exn)
| Cancelled.

Record Task := mkTask {
  coro : Coro;
  state : TaskState
}.

Abbreviation TaskId := nat.

Definition done (t : Task) : bool :=
  match state t with
  | Pending _ => false
  | _ => true
  end.

(** [task.cancel()]. *)
Definition cancel_task (t : Task) : Task :=
  match state t with
  | Pending _ => mkTask (coro t) (Pending true)
  | _ => t
  end.

(** [_InFlightMessage]: the response cell, the [_got_response] event
    and the task running [_wait]. *)
Record _InFlightMessage := mk_InFlightMessage {
  _response : option bytes;
  _got_response : bool;
  wait_task : TaskId
}.

(** [asyncio.StreamReader]: the bytes the peer sends before end of file
    that have not been read yet. *)
Record StreamReader := mkReader {
  unread : bytes
}.

(** [asyncio.StreamWriter]: what was written, and whether [close()] was
    called. *)
Record StreamWriter := mkWriter {
  written : bytes;
  writer_closing : bool
}.

(** The user's message handler: bytes to bytes, or an exception. *)
Abbreviation Handler := (bytes -> Outcome bytes).

Abbreviation ThreadId := nat.
Abbreviation LoopId := nat.

(** ** The endpoint *)

Record RPCEndpoint := mkRPCEndpoint {
  _handle_raw_message_call : option Handler;
  _reader : StreamReader;
  _writer : StreamWriter;
  _debug_print : bool;
  _label : string;
  _thread : ThreadId;
  _closing : bool;
  _did_wait_closed : bool;
  _event_loop : LoopId;
  _out_packets : list bytes;
  _have_out_packets : bool;
  _run_called : bool;
  _peer_info : option _PeerInfo;
  _keepalive_interval : float;
  _keepalive_timeout : float;
  _tasks : list TaskId;
  _last_keepalive_receive_time : option float;
  _next_message_id : Z;
  _in_flight_messages : gmap Z _InFlightMessage;
  test_suppress_keepalives : bool;
  (** the tasks of the event loop, by [TaskId] *)
  loop_tasks : list Task
}.

(** What a call sees of its surroundings: the calling thread, the
    running loop and the monotonic clock. *)
Record Env := mkEnv {
  current_thread : ThreadId;
  running_loop : LoopId;
  monotonic : float
}.

Definition DEFAULT_MESSAGE_TIMEOUT : float := 60.0.
#[warnings="-inexact-float"]
Definition DEFAULT_KEEPALIVE_INTERVAL : float := 10.73.
Definition DEFAULT_KEEPALIVE_TIMEOUT : float := 30.0.

(** [RPCEndpoint.__init__]. *)
Definition init (env : Env) (handle_raw_message_call : Handler)
    (reader : StreamReader) (writer : StreamWriter) (debug_print : bool)
    (label : string) (keepalive_interval keepalive_timeout : float)
    : RPCEndpoint :=
  {| _handle_raw_message_call := Some handle_raw_message_call;
     _reader := reader;
     _writer := writer;
     _debug_print := debug_print;
     _label := label;
     _thread := current_thread env;
     _closing := false;
     _did_wait_closed := false;
     _event_loop := running_loop env;
     _out_packets := [];
     _have_out_packets := false;
     _run_called := false;
     _peer_info := None;
     _keepalive_interval := keepalive_interval;
     _keepalive_timeout := keepalive_timeout;
     _tasks := [];
     _last_keepalive_receive_time := None;
     _next_message_id := 65530;
     _in_flight_messages := ∅;
     test_suppress_keepalives := false;
     loop_tasks := [] |}.

(** Attribute assignment, one setter per attribute the code assigns. *)
Definition set_handle_raw_message_call (v : option Handler) (ep : RPCEndpoint) : RPCEndpoint :=
  {| _handle_raw_message_call := v;
     _reader := _reader ep;
     _writer := _writer ep;
     _debug_print := _debug_print ep;
     _label := _label ep;
     _thread := _thread ep;
     _closing := _closing ep;
     _did_wait_closed := _did_wait_closed ep;
     _event_loop := _event_loop ep;
     _out_packets := _out_packets ep;
     _have_out_packets := _have_out_packets ep;
     _run_called := _run_called ep;
     _peer_info := _peer_info ep;
     _keepalive_interval := _keepalive_interval ep;
     _keepalive_timeout := _keepalive_timeout ep;
     _tasks := _tasks ep;
     _last_keepalive_receive_time := _last_keepalive_receive_time ep;
     _next_message_id := _next_message_id ep;
     _in_flight_messages := _in_flight_messages ep;
     test_suppress_keepalives := test_suppress_keepalives ep;
     loop_tasks := loop_tasks ep |}.

Definition set_reader (v : StreamReader) (ep : RPCEndpoint) : RPCEndpoint :=
  {| _handle_raw_message_call := _handle_raw_message_call ep;
     _reader := v;
     _writer := _writer ep;
     _debug_print := _debug_print ep;
     _label := _label ep;
     _thread := _thread ep;
     _closing := _closing ep;
     _did_wait_closed := _did_wait_closed ep;
     _event_loop := _event_loop ep;
     _out_packets := _out_packets ep;
     _have_out_packets := _have_out_packets ep;
     _run_called := _run_called ep;
     _peer_info := _peer_info ep;
     _keepalive_interval := _keepalive_interval ep;
     _keepalive_timeout := _keepalive_timeout ep;
     _tasks := _tasks ep;
     _last_keepalive_receive_time := _last_keepalive_receive_time ep;
     _next_message_id := _next_message_id ep;
     _in_flight_messages := _in_flight_messages ep;
     test_suppress_keepalives := test_suppress_keepalives ep;
     loop_tasks := loop_tasks ep |}.

Definition set_writer (v : StreamWriter) (ep : RPCEndpoint) : RPCEndpoint :=
  {| _handle_raw_message_call := _handle_raw_message_call ep;
     _reader := _reader ep;
     _writer := v;
     _debug_print := _debug_print ep;
     _label := _label ep;
     _thread := _thread ep;
     _closing := _closing ep;
     _did_wait_closed := _did_wait_closed ep;
     _event_loop := _event_loop ep;
     _out_packets := _out_packets ep;
     _have_out_packets := _have_out_packets ep;
     _run_called := _run_called ep;
     _peer_info := _peer_info ep;
     _keepalive_interval := _keepalive_interval ep;
     _keepalive_timeout := _keepalive_timeout ep;
     _tasks := _tasks ep;
     _last_keepalive_receive_time := _last_keepalive_receive_time ep;
     _next_message_id := _next_message_id ep;
     _in_flight_messages := _in_flight_messages ep;
     test_suppress_keepalives := test_suppress_keepalives ep;
     loop_tasks := loop_tasks ep |}.

Definition set_closing (v : bool) (ep : RPCEndpoint) : RPCEndpoint :=
  {| _handle_raw_message_call := _handle_raw_message_call ep;
     _reader := _reader ep;
     _writer := _writer ep;
     _debug_print := _debug_print ep;
     _label := _label ep;
     _thread := _thread ep;
     _closing := v;
     _did_wait_closed := _did_wait_closed ep;
     _event_loop := _event_loop ep;
     _out_packets := _out_packets ep;
     _have_out_packets := _have_out_packets ep;
     _run_called := _run_called ep;
     _peer_info := _peer_info ep;
     _keepalive_interval := _keepalive_interval ep;
     _keepalive_timeout := _keepalive_timeout ep;
     _tasks := _tasks ep;
     _last_keepalive_receive_time := _last_keepalive_receive_time ep;
     _next_message_id := _next_message_id ep;
     _in_flight_messages := _in_flight_messages ep;
     test_suppress_keepalives := test_suppress_keepalives ep;
     loop_tasks := loop_tasks ep |}.

Definition set_did_wait_closed (v : bool) (ep : RPCEndpoint) : RPCEndpoint :=
  {| _handle_raw_message_call := _handle_raw_message_call ep;
     _reader := _reader ep;
     _writer := _writer ep;
     _debug_print := _debug_print ep;
     _label := _label ep;
     _thread := _thread ep;
     _closing := _closing ep;
     _did_wait_closed := v;
     _event_loop := _event_loop ep;
     _out_packets := _out_packets ep;
     _have_out_packets := _have_out_packets ep;
     _run_called := _run_called ep;
     _peer_info := _peer_info ep;
     _keepalive_interval := _keepalive_interval ep;
     _keepalive_timeout := _keepalive_timeout ep;
     _tasks := _tasks ep;
     _last_keepalive_receive_time := _last_keepalive_receive_time ep;
     _next_message_id := _next_message_id ep;
     _in_flight_messages := _in_flight_messages ep;
     test_suppress_keepalives := test_suppress_keepalives ep;
     loop_tasks := loop_tasks ep |}.

Definition set_out_packets (v : list bytes) (ep : RPCEndpoint) : RPCEndpoint :=
  {| _handle_raw_message_call := _handle_raw_message_call ep;
     _reader := _reader ep;
     _writer := _writer ep;
     _debug_print := _debug_print ep;
     _label := _label ep;
     _thread := _thread ep;
     _closing := _closing ep;
     _did_wait_closed := _did_wait_closed ep;
     _event_loop := _event_loop ep;
     _out_packets := v;
     _have_out_packets := _have_out_packets ep;
     _run_called := _run_called ep;
     _peer_info := _peer_info ep;
     _keepalive_interval := _keepalive_interval ep;
     _keepalive_timeout := _keepalive_timeout ep;
     _tasks := _tasks ep;
     _last_keepalive_receive_time := _last_keepalive_receive_time ep;
     _next_message_id := _next_message_id ep;
     _in_flight_messages := _in_flight_messages ep;
     test_suppress_keepalives := test_suppress_keepalives ep;
     loop_tasks := loop_tasks ep |}.

Definition set_have_out_packets (v : bool) (ep : RPCEndpoint) : RPCEndpoint :=
  {| _handle_raw_message_call := _handle_raw_message_call ep;
     _reader := _reader ep;
     _writer := _writer ep;
     _debug_print := _debug_print ep;
     _label := _label ep;
     _thread := _thread ep;
     _closing := _closing ep;
     _did_wait_closed := _did_wait_closed ep;
     _event_loop := _event_loop ep;
     _out_packets := _out_packets ep;
     _have_out_packets := v;
     _run_called := _run_called ep;
     _peer_info := _peer_info ep;
     _keepalive_interval := _keepalive_interval ep;
     _keepalive_timeout := _keepalive_timeout ep;
     _tasks := _tasks ep;
     _last_keepalive_receive_time := _last_keepalive_receive_time ep;
     _next_message_id := _next_message_id ep;
     _in_flight_messages := _in_flight_messages ep;
     test_suppress_keepalives := test_suppress_keepalives ep;
     loop_tasks := loop_tasks ep |}.

Definition set_run_called (v : bool) (ep : RPCEndpoint) : RPCEndpoint :=
  {| _handle_raw_message_call := _handle_raw_message_call ep;
     _reader := _reader ep;
     _writer := _writer ep;
     _debug_print := _debug_print ep;
     _label := _label ep;
     _thread := _thread ep;
     _closing := _closing ep;
     _did_wait_closed := _did_wait_closed ep;
     _event_loop := _event_loop ep;
     _out_packets := _out_packets ep;
     _have_out_packets := _have_out_packets ep;
     _run_called := v;
     _peer_info := _peer_info ep;
     _keepalive_interval := _keepalive_interval ep;
     _keepalive_timeout := _keepalive_timeout ep;
     _tasks := _tasks ep;
     _last_keepalive_receive_time := _last_keepalive_receive_time ep;
     _next_message_id := _next_message_id ep;
     _in_flight_messages := _in_flight_messages ep;
     test_suppress_keepalives := test_suppress_keepalives ep;
     loop_tasks := loop_tasks ep |}.

Definition set_peer_info (v : option _PeerInfo) (ep : RPCEndpoint) : RPCEndpoint :=
  {| _handle_raw_message_call := _handle_raw_message_call ep;
     _reader := _reader ep;
     _writer := _writer ep;
     _debug_print := _debug_print ep;
     _label := _label ep;
     _thread := _thread ep;
     _closing := _closing ep;
     _did_wait_closed := _did_wait_closed ep;
     _event_loop := _event_loop ep;
     _out_packets := _out_packets ep;
     _have_out_packets := _have_out_packets ep;
     _run_called := _run_called ep;
     _peer_info := v;
     _keepalive_interval := _keepalive_interval ep;
     _keepalive_timeout := _keepalive_timeout ep;
     _tasks := _tasks ep;
     _last_keepalive_receive_time := _last_keepalive_receive_time ep;
     _next_message_id := _next_message_id ep;
     _in_flight_messages := _in_flight_messages ep;
     test_suppress_keepalives := test_suppress_keepalives ep;
     loop_tasks := loop_tasks ep |}.

Definition set_tasks (v : list TaskId) (ep : RPCEndpoint) : RPCEndpoint :=
  {| _handle_raw_message_call := _handle_raw_message_call ep;
     _reader := _reader ep;
     _writer := _writer ep;
     _debug_print := _debug_print ep;
     _label := _label ep;
     _thread := _thread ep;
     _closing := _closing ep;
     _did_wait_closed := _did_wait_closed ep;
     _event_loop := _event_loop ep;
     _out_packets := _out_packets ep;
     _have_out_packets := _have_out_packets ep;
     _run_called := _run_called ep;
     _peer_info := _peer_info ep;
     _keepalive_interval := _keepalive_interval ep;
     _keepalive_timeout := _keepalive_timeout ep;
     _tasks := v;
     _last_keepalive_receive_time := _last_keepalive_receive_time ep;
     _next_message_id := _next_message_id ep;
     _in_flight_messages := _in_flight_messages ep;
     test_suppress_keepalives := test_suppress_keepalives ep;
     loop_tasks := loop_tasks ep |}.

Definition set_last_keepalive_receive_time (v : option float) (ep : RPCEndpoint) : RPCEndpoint :=
  {| _handle_raw_message_call := _handle_raw_message_call ep;
     _reader := _reader ep;
     _writer := _writer ep;
     _debug_print := _debug_print ep;
     _label := _label ep;
     _thread := _thread ep;
     _closing := _closing ep;
     _did_wait_closed := _did_wait_closed ep;
     _event_loop := _event_loop ep;
     _out_packets := _out_packets ep;
     _have_out_packets := _have_out_packets ep;
     _run_called := _run_called ep;
     _peer_info := _peer_info ep;
     _keepalive_interval := _keepalive_interval ep;
     _keepalive_timeout := _keepalive_timeout ep;
     _tasks := _tasks ep;
     _last_keepalive_receive_time := v;
     _next_message_id := _next_message_id ep;
     _in_flight_messages := _in_flight_messages ep;
     test_suppress_keepalives := test_suppress_keepalives ep;
     loop_tasks := loop_tasks ep |}.

Definition set_next_message_id (v : Z) (ep : RPCEndpoint) : RPCEndpoint :=
  {| _handle_raw_message_call := _handle_raw_message_call ep;
     _reader := _reader ep;
     _writer := _writer ep;
     _debug_print := _debug_print ep;
     _label := _label ep;
     _thread := _thread ep;
     _closing := _closing ep;
     _did_wait_closed := _did_wait_closed ep;
     _event_loop := _event_loop ep;
     _out_packets := _out_packets ep;
     _have_out_packets := _have_out_packets ep;
     _run_called := _run_called ep;
     _peer_info := _peer_info ep;
     _keepalive_interval := _keepalive_interval ep;
     _keepalive_timeout := _keepalive_timeout ep;
     _tasks := _tasks ep;
     _last_keepalive_receive_time := _last_keepalive_receive_time ep;
     _next_message_id := v;
     _in_flight_messages := _in_flight_messages ep;
     test_suppress_keepalives := test_suppress_keepalives ep;
     loop_tasks := loop_tasks ep |}.

Definition set_in_flight_messages (v : gmap Z _InFlightMessage) (ep : RPCEndpoint) : RPCEndpoint :=
  {| _handle_raw_message_call := _handle_raw_message_call ep;
     _reader := _reader ep;
     _writer := _writer ep;
     _debug_print := _debug_print ep;
     _label := _label ep;
     _thread := _thread ep;
     _closing := _closing ep;
     _did_wait_closed := _did_wait_closed ep;
     _event_loop := _event_loop ep;
     _out_packets := _out_packets ep;
     _have_out_packets := _have_out_packets ep;
     _run_called := _run_called ep;
     _peer_info := _peer_info ep;
     _keepalive_interval := _keepalive_interval ep;
     _keepalive_timeout := _keepalive_timeout ep;
     _tasks := _tasks ep;
     _last_keepalive_receive_time := _last_keepalive_receive_time ep;
     _next_message_id := _next_message_id ep;
     _in_flight_messages := v;
     test_suppress_keepalives := test_suppress_keepalives ep;
     loop_tasks := loop_tasks ep |}.

Definition set_loop_tasks (v : list Task) (ep : RPCEndpoint) : RPCEndpoint :=
  {| _handle_raw_message_call := _handle_raw_message_call ep;
     _reader := _reader ep;
     _writer := _writer ep;
     _debug_print := _debug_print ep;
     _label := _label ep;
     _thread := _thread ep;
     _closing := _closing ep;
     _did_wait_closed := _did_wait_closed ep;
     _event_loop := _event_loop ep;
     _out_packets := _out_packets ep;
     _have_out_packets := _have_out_packets ep;
     _run_called := _run_called ep;
     _peer_info := _peer_info ep;
     _keepalive_interval := _keepalive_interval ep;
     _keepalive_timeout := _keepalive_timeout ep;
     _tasks := _tasks ep;
     _last_keepalive_receive_time := _last_keepalive_receive_time ep;
     _next_message_id := _next_message_id ep;
     _in_flight_messages := _in_flight_messages ep;
     test_suppress_keepalives := test_suppress_keepalives ep;
     loop_tasks := v |}.

(** ** The monad of methods *)

Definition M (A : Type) : Type := RPCEndpoint -> Outcome A * RPCEndpoint.

#[global] Instance M_ret : MRet M := fun A a ep => (Returns a, ep).

#[global] Instance M_bind : MBind M := fun A B k m ep =>
  match m ep with
  | (Returns a, ep') => k a ep'
  | (Raises e, ep') => (Raises e, ep')
  end.

Definition raise {A : Type} (e : Exn) : M A := fun ep => (Raises e, ep).

(** A pure computation that may raise. *)
Definition lift {A : Type} (o : Outcome A) : M A := fun ep => (o, ep).

(** Read an attribute; run a statement that assigns. *)
Definition read {A : Type} (f : RPCEndpoint -> A) : M A :=
  fun ep => (Returns (f ep), ep).

Definition assign (f : RPCEndpoint -> RPCEndpoint) : M unit :=
  fun ep => (Returns tt, f ep).

(** [assert b]. *)
Definition assert_ (b : bool) : M unit :=
  if b then mret tt else raise AssertionError.

(** [a + b] on two byte strings either of which may have raised. *)
Definition concat_bytes (a b : Outcome bytes) : Outcome bytes :=
  match a with
  | Raises e => Raises e
  | Returns x =>
      match b with
      | Raises e => Raises e
      | Returns y => Returns (x ++ y)
      end
  end.

(** [try: m except <e with catches e>: h e]. *)
Definition try_except {A : Type} (m : M A) (catches : Exn -> bool)
    (h : Exn -> M A) : M A := fun ep =>
  match m ep with
  | (Returns a, ep') => (Returns a, ep')
  | (Raises e, ep') => if catches e then h e ep' else (Raises e, ep')
  end.

(** Run [m] and hand back how it ended, as a value. *)
Definition attempt {A : Type} (m : M A) : M (Outcome A) := fun ep =>
  let '(o, ep') := m ep in (Returns o, ep').

(** ** Helpers of the endpoint *)

(** [_check_env]. *)
Definition _check_env (env : Env) : M unit :=
  thread ← read _thread;
  if negb (Nat.eqb (current_thread env) thread)
  then raise (RuntimeError
    "This must be called from the same thread that the endpoint was created in.")
  else
    loop ← read _event_loop;
    assert_ (Nat.eqb (running_loop env) loop).

(** [_enqueue_outgoing_packet]. *)
Definition _enqueue_outgoing_packet (env : Env) (data : bytes) : M unit :=
  _check_env env;;
  assign (fun ep => set_out_packets (_out_packets ep ++ [data]) ep);;
  assign (set_have_out_packets true).

(** A weak reference is live when its task exists and is not done. *)
Definition live_ref (store : list Task) (t : TaskId) : bool :=
  match store !! t with
  | Some task => negb (done task)
  | None => false
  end.

(** [_prune_tasks]. *)
Definition _prune_tasks : M unit :=
  assign (fun ep =>
    set_tasks (List.filter (live_ref (loop_tasks ep)) (_tasks ep)) ep).

(** [_get_live_tasks]. *)
Definition _get_live_tasks : M (list TaskId) :=
  read (fun ep => List.filter (live_ref (loop_tasks ep)) (_tasks ep)).

(** [asyncio.create_task]: the new task is pending. *)
Definition create_task (c : Coro) : M TaskId :=
  t ← read (fun ep => length (loop_tasks ep));
  assign (fun ep => set_loop_tasks (loop_tasks ep ++ [mkTask c (Pending false)]) ep);;
  mret t.

(** [task.cancel()] on the task named [t]. *)
Definition cancel (t : TaskId) : M unit :=
  assign (fun ep =>
    set_loop_tasks (alter cancel_task t (loop_tasks ep)) ep).

(** The task's state becomes [s] (the loop ran it to an end). *)
Definition settle (t : TaskId) (s : TaskState) : M unit :=
  assign (fun ep =>
    set_loop_tasks (alter (fun task => mkTask (coro task) s) t (loop_tasks ep)) ep).

(** ** send_message *)

(** What a suspended [send_message] holds across its [await]. *)
Record SendFrame := mkSendFrame {
  frame_message_id : Z;
  frame_wait_task : TaskId;
  frame_timeout : float
}.

(** Lines 197-212: the two guards, the id and the MESSAGE packet. *)
Definition send_message_enqueue (env : Env) (message : bytes) : M Z :=
  _check_env env;;
  if Z.of_nat (length message) >? 65535
  then raise (RuntimeError "Message cannot be larger than 65535 bytes")
  else
    closing ← read _closing;
    if closing : bool
    then raise (CommunicationError "Endpoint is closed")
    else
      message_id ← read _next_message_id;
      assign (fun ep => set_next_message_id ((_next_message_id ep + 1) mod 65536) ep);;
      packet ← lift
        (concat_bytes
          (concat_bytes
            (concat_bytes (to_bytes (_PacketType_value MESSAGE) 1)
                          (to_bytes message_id 2))
            (to_bytes (Z.of_nat (length message)) 2))
          (Returns message));
      _enqueue_outgoing_packet env packet;;
      mret message_id.

(** Lines 214-220: the entry of the in-flight table and its task. *)
Definition send_message_register (message_id : Z) : M TaskId :=
  table ← read _in_flight_messages;
  assert_ (bool_decide (table !! message_id = None));;
  t ← create_task WaitCoro;
  assign (fun ep =>
    set_in_flight_messages
      (<[message_id := mk_InFlightMessage None false t]> (_in_flight_messages ep)) ep);;
  _prune_tasks;;
  assign (fun ep => set_tasks (_tasks ep ++ [t]) ep);;
  mret t.

(** [send_message] up to its [await] (lines 197-228). *)
Definition send_message_start (env : Env) (message : bytes)
    (timeout : option float) : M SendFrame :=
  message_id ← send_message_enqueue env message;
  t ← send_message_register message_id;
  mret (mkSendFrame message_id t
          (match timeout with
           | None => DEFAULT_MESSAGE_TIMEOUT
           | Some tm => tm
           end)).

(** What ends a wait whose task is still pending. *)
Inductive Wake := TimeoutExpired | CallerCancelled.

(** [asyncio.wait_for(task, timeout)], at the moment it returns or
    raises: the task's result when it has one; otherwise the wait was
    ended by the timeout or by a cancellation, and [wait_for] has
    cancelled the task before raising.  A name outside the store (which
    the task of a frame never is) is read as a cancelled task. *)
Definition wait_for (t : TaskId) (w : Wake) : M (option bytes) :=
  store ← read loop_tasks;
  match state <$> store !! t with
  | Some (Finished r) => mret r
  | Some (Failed e) => raise e
  | Some Cancelled => raise CancelledError
  | Some (Pending _) =>
      settle t Cancelled;;
      raise (match w with
             | TimeoutExpired => TimeoutError
             | CallerCancelled => CancelledError
             end)
  | None => raise CancelledError
  end.

(** [del self._in_flight_messages[message_id]]. *)
Definition del_in_flight (message_id : Z) : M unit :=
  table ← read _in_flight_messages;
  match table !! message_id with
  | None => raise KeyError
  | Some _ =>
      assign (fun ep =>
        set_in_flight_messages (delete message_id (_in_flight_messages ep)) ep)
  end.

(** [send_message] from its [await] on (lines 229-246). *)
Definition send_message_finish (frame : SendFrame) (w : Wake)
    : M (option bytes) :=
  try_except (wait_for (frame_wait_task frame) w)
    (fun e => match e with
              | CancelledError | TimeoutError => true
              | _ => false
              end)
    (fun e => match e with
              | TimeoutError =>
                  cancel (frame_wait_task frame);;
                  del_in_flight (frame_message_id frame);;
                  raise (CommunicationError EmptyString)
              | _ => raise (CommunicationError EmptyString)
              end).

(** ** close, is_closing, wait_closed *)

(** [close]. *)
Definition close (env : Env) : M unit :=
  _check_env env;;
  closing ← read _closing;
  if closing : bool then mret tt
  else
    assign (set_closing true);;
    live ← _get_live_tasks;
    assign (fun ep =>
      set_loop_tasks
        (fold_left (fun store t => alter cancel_task t store) live (loop_tasks ep)) ep);;
    assign (fun ep => set_writer (mkWriter (written (_writer ep)) true) ep);;
    h ← read _handle_raw_message_call;
    match h with
    | None => raise AttributeError
    | Some _ => assign (set_handle_raw_message_call None)
    end.

(** [is_closing]. *)
Definition is_closing : M bool := read _closing.

(** [wait_closed] up to its [gather] (lines 280-294): [None] when the
    call returned at once because of the latch, [Some tasks] when it
    goes on to wait for [tasks]. *)
Definition wait_closed_start (env : Env) : M (option (list TaskId)) :=
  _check_env env;;
  did ← read _did_wait_closed;
  if did : bool then mret None
  else
    assign (set_did_wait_closed true);;
    closing ← read _closing;
    if negb closing
    then raise (RuntimeError "Must be called after close()")
    else
      live ← _get_live_tasks;
      mret (Some live).

(** [wait_closed] after its [gather] (lines 296-324); whatever
    [_writer.wait_closed()] raises is caught and logged. *)
Definition wait_closed_finish : M unit :=
  w ← read _writer;
  assert_ (writer_closing w).

(** ** The in-flight message *)

(** [_InFlightMessage.set_response], on the entry of [message_id]. *)
Definition set_response (message_id : Z) (msgobj : _InFlightMessage)
    (data : bytes) : M unit :=
  assert_ (bool_decide (_response msgobj = None));;
  assign (fun ep =>
    set_in_flight_messages
      (<[message_id := mk_InFlightMessage (Some data) true (wait_task msgobj)]>
         (_in_flight_messages ep)) ep).

(** [_InFlightMessage._wait]: [None] while the event is not set. *)
Definition _wait (msgobj : _InFlightMessage) : option (Outcome bytes) :=
  if _got_response msgobj
  then Some (match _response msgobj with
             | Some r => Returns r
             | None => Raises AssertionError
             end)
  else None.

(** The loop runs the [_wait] task of the entry of [message_id]:
    a requested cancellation is delivered at the [await], otherwise the
    task ends once the event is set. *)
Definition run_wait_task (message_id : Z) : M unit :=
  table ← read _in_flight_messages;
  match table !! message_id with
  | None => mret tt
  | Some msgobj =>
      store ← read loop_tasks;
      match state <$> store !! wait_task msgobj with
      | Some (Pending true) => settle (wait_task msgobj) Cancelled
      | Some (Pending false) =>
          match _wait msgobj with
          | None => mret tt
          | Some (Returns r) => settle (wait_task msgobj) (Finished (Some r))
          | Some (Raises e) => settle (wait_task msgobj) (Failed e)
          end
      | _ => mret tt
      end
  end.

(** ** The read side *)

(** [self._reader.readexactly(n)]. *)
Definition readexactly (n : Z) : M bytes :=
  if n <? 0 then raise ValueError
  else
    buf ← read (fun ep => unread (_reader ep));
    if Z.of_nat (length buf) <? n
    then assign (set_reader (mkReader []));; raise IncompleteReadError
    else
      assign (set_reader (mkReader (drop (Z.to_nat n) buf)));;
      mret (take (Z.to_nat n) buf).

Definition _read_int_8 : M Z := b ← readexactly 1; mret (from_bytes b).
Definition _read_int_16 : M Z := b ← readexactly 2; mret (from_bytes b).
Definition _read_int_32 : M Z := b ← readexactly 4; mret (from_bytes b).

(** [_handle_message_packet]. *)
Definition _handle_message_packet : M unit :=
  msgid ← _read_int_16;
  msglen ← _read_int_16;
  msg ← readexactly msglen;
  closing ← read _closing;
  assert_ (negb closing);;
  _prune_tasks;;
  t ← create_task (HandleRawMessageCoro msgid msg);
  assign (fun ep => set_tasks (_tasks ep ++ [t]) ep).

(** [_handle_response_packet]. *)
Definition _handle_response_packet : M unit :=
  msgid ← _read_int_16;
  rsplen ← _read_int_16;
  rsp ← readexactly rsplen;
  table ← read _in_flight_messages;
  match table !! msgid with
  | None => mret tt
  | Some msgobj => set_response msgid msgobj rsp
  end.

(** One turn of the loop of [_run_read_task] (lines 347-367). *)
Definition _read_packet (env : Env) : M unit :=
  closing ← read _closing;
  assert_ (negb closing);;
  v ← _read_int_8;
  mtype ← lift (_PacketType_of_value v);
  match mtype with
  | HANDSHAKE => raise (RuntimeError "Got multiple handshakes")
  | KEEPALIVE => assign (set_last_keepalive_receive_time (Some (monotonic env)))
  | MESSAGE => _handle_message_packet
  | RESPONSE => _handle_response_packet
  end.

(** The [while True] of [_run_read_task], for at most [fuel] turns; it
    ends only by raising. *)
Fixpoint _read_loop (fuel : nat) (env : Env) : M unit :=
  match fuel with
  | O => mret tt
  | S fuel' => _read_packet env;; _read_loop fuel' env
  end.

(** ** The handler task *)

(** [_handle_raw_message].  An [Exception] of the handler is logged and
    swallowed; a cancellation is not an [Exception] and goes through.
    After [close] the handler attribute is gone, and the
    [AttributeError] is swallowed likewise. *)
Definition _handle_raw_message (env : Env) (message_id : Z)
    (message : bytes) : M unit :=
  h ← read _handle_raw_message_call;
  match h with
  | None => mret tt
  | Some call =>
      match call message with
      | Raises CancelledError => raise CancelledError
      | Raises _ => mret tt
      | Returns response =>
          packet ← lift
            (concat_bytes
              (concat_bytes
                (concat_bytes (to_bytes (_PacketType_value RESPONSE) 1)
                              (to_bytes message_id 2))
                (to_bytes (Z.of_nat (length response)) 2))
              (Returns response));
          _enqueue_outgoing_packet env packet
      end
  end.

(** ** The write side and the keepalives *)

(** [self._writer.write(data)]. *)
Definition writer_write (data : bytes) : M unit :=
  assign (fun ep =>
    set_writer (mkWriter (written (_writer ep) ++ data)
                         (writer_closing (_writer ep))) ep).

(** One turn of the loop of [_run_write_task] (lines 420-429); the
    turn does not start while the event is clear. *)
Definition _write_packet : M unit :=
  have ← read _have_out_packets;
  if have : bool then
    queue ← read _out_packets;
    match queue with
    | [] => raise AssertionError
    | data :: rest =>
        assign (set_out_packets rest);;
        (if bool_decide (rest = [])
         then assign (set_have_out_packets false)
         else mret tt);;
        writer_write data
    end
  else mret tt.

(** One turn of the loop of [_run_keepalive_task] after its sleep
    (lines 446-464), up to the next sleep (line 444). *)
Definition _keepalive_tick (env : Env) : M unit :=
  suppress ← read test_suppress_keepalives;
  (if suppress : bool then mret tt
   else
     packet ← lift (to_bytes (_PacketType_value KEEPALIVE) 1);
     _enqueue_outgoing_packet env packet);;
  peer ← read _peer_info;
  assert_ (bool_decide (peer ≠ None));;
  last ← read _last_keepalive_receive_time;
  timeout ← read _keepalive_timeout;
  match last with
  | Some tm =>
      if PrimFloat.ltb timeout (PrimFloat.sub (monotonic env) tm)
      then raise KeepaliveTimeoutError
      else mret tt
  | None => mret tt
  end;;
  closing ← read _closing;
  assert_ (negb closing).

(** ** run and the core tasks *)

(** [run] up to its [gather] (lines 149-163). *)
Definition run_start (env : Env) : M unit :=
  _check_env env;;
  called ← read _run_called;
  if called : bool
  then raise (RuntimeError "Run can be called only once per endpoint.")
  else
    assign (set_run_called true);;
    t1 ← create_task (CoreCoro "keepalive");
    t2 ← create_task (CoreCoro "read");
    t3 ← create_task (CoreCoro "write");
    assign (fun ep => set_tasks (_tasks ep ++ [t1; t2; t3]) ep).

(** [_run_core_task] once the wrapped loop has ended with [o]: an
    [Exception] is logged and swallowed, and in every case the endpoint
    is closed. *)
Definition _run_core_task_exit (env : Env) (o : Outcome unit) : M unit :=
  close env;;
  match o with
  | Raises CancelledError => raise CancelledError
  | _ => mret tt
  end.

(** ** The handshake and the event loop *)

Section Loop.

(** The JSON codec of [efro.dataclassio] for [_PeerInfo], with the
    [encode()]/[decode()] of the text: it is not part of this module
    and is taken as given. *)
Variable dataclass_to_json : _PeerInfo -> bytes.
Variable dataclass_from_json : bytes -> Outcome _PeerInfo.

(** [_run_read_task] before its loop (lines 333-343). *)
Definition _read_handshake (env : Env) : M unit :=
  _check_env env;;
  peer ← read _peer_info;
  assert_ (bool_decide (peer = None));;
  mlen ← _read_int_32;
  message ← readexactly mlen;
  info ← lift (dataclass_from_json message);
  assign (set_peer_info (Some info));;
  assign (set_last_keepalive_receive_time (Some (monotonic env))).

(** [_run_write_task] before its loop (lines 408-414). *)
Definition _write_handshake (env : Env) : M unit :=
  _check_env env;;
  interval ← read _keepalive_interval;
  let data := dataclass_to_json (mk_PeerInfo OUR_PROTOCOL interval) in
  packet ← lift (concat_bytes (to_bytes (Z.of_nat (length data)) 4) (Returns data));
  writer_write packet.

(** What the event loop can run next: a call of the public surface up
    to its first suspension, or the piece of a coroutine between two
    suspension points.  Any interleaving the loop can produce is a list
    of these; a property of all lists holds of every real run. *)
Inductive Op :=
| OpRun
| OpSendMessage (message : bytes) (timeout : option float)
| OpSendMessageResume (frame : SendFrame) (w : Wake)
| OpClose
| OpWaitClosed
| OpWaitClosedResume
| OpReadHandshake
| OpReadPacket
| OpWriteHandshake
| OpWritePacket
| OpKeepalive
| OpWaitTask (message_id : Z)
| OpHandleRawMessage (t : TaskId)
| OpCoreTaskExit (t : TaskId) (o : Outcome unit).

Definition discard {A : Type} (m : M A) : M unit := m;; mret tt.

(** The state a task takes when its coroutine ended with [o]. *)
Definition end_state (o : Outcome unit) : TaskState :=
  match o with
  | Returns _ => Finished None
  | Raises CancelledError => Cancelled
  | Raises e => Failed e
  end.

(** The loop runs the handler task [t]. *)
Definition run_handler_task (env : Env) (t : TaskId) : M unit :=
  store ← read loop_tasks;
  match store !! t with
  | Some (mkTask (HandleRawMessageCoro message_id message) (Pending true)) =>
      settle t Cancelled
  | Some (mkTask (HandleRawMessageCoro message_id message) (Pending false)) =>
      o ← attempt (_handle_raw_message env message_id message);
      settle t (end_state o)
  | _ => mret tt
  end.

(** The loop runs the last piece of the core task [t], whose wrapped
    loop ended with [o].  As [Task.__step] does: a cancellation
    requested while the task was suspended is thrown into the coroutine
    in place of [o], and the request is cleared; the task ends
    cancelled when [_run_core_task] lets a [CancelledError] out, and
    also when it returns with a cancellation requested during this very
    piece, as the [close()] of its [finally] requests of every live
    task, the running one included.  A task that is done, or is no core
    task, is not run. *)
Definition run_core_task_exit (env : Env) (t : TaskId) (o : Outcome unit)
    : M unit :=
  store ← read loop_tasks;
  match store !! t with
  | Some (mkTask (CoreCoro label) (Pending must_cancel)) =>
      settle t (Pending false);;
      o' ← attempt (_run_core_task_exit env
                      (if must_cancel then Raises CancelledError else o));
      store' ← read loop_tasks;
      settle t (match o', state <$> store' !! t with
                | Returns _, Some (Pending true) => Cancelled
                | _, _ => end_state o'
                end)
  | _ => mret tt
  end.

Definition run_op (env : Env) (op : Op) : M unit :=
  match op with
  | OpRun => run_start env
  | OpSendMessage message timeout => discard (send_message_start env message timeout)
  | OpSendMessageResume frame w => discard (send_message_finish frame w)
  | OpClose => close env
  | OpWaitClosed => discard (wait_closed_start env)
  | OpWaitClosedResume => wait_closed_finish
  | OpReadHandshake => _read_handshake env
  | OpReadPacket => _read_packet env
  | OpWriteHandshake => _write_handshake env
  | OpWritePacket => _write_packet
  | OpKeepalive => _keepalive_tick env
  | OpWaitTask message_id => run_wait_task message_id
  | OpHandleRawMessage t => run_handler_task env t
  | OpCoreTaskExit t o => run_core_task_exit env t o
  end.

Definition step (ep : RPCEndpoint) (eo : Env * Op) : RPCEndpoint :=
  snd (run_op (fst eo) (snd eo) ep).

Definition exec (trace : list (Env * Op)) (ep : RPCEndpoint) : RPCEndpoint :=
  fold_left step trace ep.

(** The message id a step allocates: that of a [send_message] that got
    past its two guards. *)
Definition allocated_id (ep : RPCEndpoint) (eo : Env * Op) : option Z :=
  match snd eo with
  | OpSendMessage message _ =>
      match fst (send_message_enqueue (fst eo) message ep) with
      | Returns message_id => Some message_id
      | Raises _ => None
      end
  | _ => None
  end.

(** The message ids allocated along a trace, in order. *)
Fixpoint message_ids (trace : list (Env * Op)) (ep : RPCEndpoint) : list Z :=
  match trace with
  | [] => []
  | eo :: rest =>
      match allocated_id ep eo with
      | Some message_id => message_id :: message_ids rest (step ep eo)
      | None => message_ids rest (step ep eo)
      end
  end.

End Loop.

(** * Vocabulary of the statements *)

(** [stable P m]: the method [m] keeps the property [P] of the
    endpoint, whether it returns or raises. *)
Definition stable {A : Type} (P : RPCEndpoint -> Prop) (m : M A) : Prop :=
  forall ep, P ep -> P (snd (m ep)).

(** The call is made on the thread and loop of the endpoint. *)
Definition env_ok (env : Env) (ep : RPCEndpoint) : Prop :=
  current_thread env = _thread ep /\ running_loop env = _event_loop ep.

(** The wire layout of a MESSAGE or RESPONSE packet: the tag, the id
    high byte first, the payload length high byte first, the payload. *)
Definition packet_layout (tag : byte) (message_id : Z) (payload : bytes)
    : bytes :=
  tag :: byte_of_Z (message_id / 256) :: byte_of_Z (message_id mod 256)
      :: byte_of_Z (Z.of_nat (length payload) / 256)
      :: byte_of_Z (Z.of_nat (length payload) mod 256)
      :: payload.

(** The endpoint after the id [_next_message_id ep] was taken and
    [packet] was queued. *)
Definition enqueued (packet : bytes) (ep : RPCEndpoint) : RPCEndpoint :=
  set_have_out_packets true
    (set_out_packets (_out_packets ep ++ [packet])
       (set_next_message_id ((_next_message_id ep + 1) mod 65536) ep)).

(** The endpoint after [send_message_register message_id] went through. *)
Definition registered (message_id : Z) (ep : RPCEndpoint) : RPCEndpoint :=
  let t := length (loop_tasks ep) in
  let store := loop_tasks ep ++ [mkTask WaitCoro (Pending false)] in
  set_tasks (List.filter (live_ref store) (_tasks ep) ++ [t])
    (set_in_flight_messages
       (<[message_id := mk_InFlightMessage None false t]> (_in_flight_messages ep))
       (set_loop_tasks store ep)).

(** The ids [start], [start + 1], ... taken modulo 2^16, [n] of them. *)
Definition ids_from (start : Z) (n : nat) : list Z :=
  map (fun k => (start + Z.of_nat k) mod 65536) (seq 0 n).

(** The non-empty event of the outgoing queue is set exactly when the
    queue holds a packet. *)
Definition queue_signalled (ep : RPCEndpoint) : Prop :=
  _have_out_packets ep = true <-> _out_packets ep <> [].

(** [n] turns of the loop of [_run_write_task]. *)
Fixpoint write_turns (n : nat) : M unit :=
  match n with
  | O => mret tt
  | S n' => _write_packet;; write_turns n'
  end.

(** The three things [close] does go together: a closing endpoint has
    dropped its handler and closed its writer, an open one still has
    its handler. *)
Definition closing_consistent (ep : RPCEndpoint) : Prop :=
  if _closing ep
  then _handle_raw_message_call ep = None /\ writer_closing (_writer ep) = true
  else _handle_raw_message_call ep <> None.

(** A packet the peer can parse: a KEEPALIVE, or a MESSAGE or RESPONSE
    laid out with an id and a payload length that fit their 16 bits. *)
Definition well_formed_packet (packet : bytes) : Prop :=
  packet = [x01] \/
  exists (tag : byte) (message_id : Z) (payload : bytes),
    (tag = x02 \/ tag = x03) /\
    0 <= message_id < 65536 /\
    Z.of_nat (length payload) <= 65535 /\
    packet = packet_layout tag message_id payload.

(** A handler task answers an id that fits 16 bits. *)
Definition coro_in_range (task : Task) : Prop :=
  match coro task with
  | HandleRawMessageCoro message_id _ => 0 <= message_id < 65536
  | _ => True
  end.

(** What the endpoint keeps about ids and packets. *)
Definition wire_invariant (ep : RPCEndpoint) : Prop :=
  0 <= _next_message_id ep < 65536 /\
  Forall well_formed_packet (_out_packets ep) /\
  Forall coro_in_range (loop_tasks ep) /\
  map_Forall (fun message_id _ => 0 <= message_id < 65536)
             (_in_flight_messages ep).

(** ** Concrete endpoints *)

Module Scenario.

Definition env : Env := mkEnv 0 0 0.0.
Definition echo : Handler := fun message => Returns message.
Definition abc : bytes := ["a"; "b"; "c"]%byte.
Definition ABC : bytes := ["A"; "B"; "C"]%byte.
Definition oversize : bytes := repeat x00 (Z.to_nat 65536).

(** A new endpoint whose peer will send [stream]. *)
Definition connect (stream : bytes) : RPCEndpoint :=
  init env echo (mkReader stream) (mkWriter [] false) false "A"
    DEFAULT_KEEPALIVE_INTERVAL DEFAULT_KEEPALIVE_TIMEOUT.

Definition fresh : RPCEndpoint := connect [].

(** [fresh] after [run()] has started its three core tasks. *)
Definition running : RPCEndpoint := snd (run_start env fresh).

(** [running] after [close()]. *)
Definition closed : RPCEndpoint := snd (close env running).

(** A stand-in for the JSON codec of the handshake. *)
Definition to_json : _PeerInfo -> bytes := fun _ => [].
Definition from_json : bytes -> Outcome _PeerInfo :=
  fun _ => Returns (mk_PeerInfo OUR_PROTOCOL DEFAULT_KEEPALIVE_INTERVAL).

(** The RESPONSE the peer sends to the first message. *)
Definition peer_response : bytes := packet_layout x03 65530 ABC.

(** The first [send_message(abc)], suspended at its [await]. *)
Definition frame : SendFrame := mkSendFrame 65530 0 DEFAULT_MESSAGE_TIMEOUT.
Definition sent : RPCEndpoint :=
  snd (send_message_start env abc None (connect peer_response)).

(** [sent] after the reader has handled the RESPONSE and the loop has
    run the [_wait] task. *)
Definition answered : RPCEndpoint :=
  snd (run_wait_task 65530 (snd (_read_packet env sent))).

(** A handler that fails. *)
Definition failing : Handler := fun _ => Raises HandlerError.

(** A second message queued behind the first. *)
Definition two_queued : RPCEndpoint :=
  snd (send_message_start env ABC None sent).

(** The first send on a stream that answers it twice, and the endpoint
    after the first answer was handled. *)
Definition sent_twice : RPCEndpoint :=
  snd (send_message_start env abc None
         (connect (peer_response ++ peer_response))).
Definition answered_once : RPCEndpoint := snd (_read_packet env sent_twice).

(** An endpoint that had its handshake at time [tm]. *)
Definition shaken_at (tm : float) : RPCEndpoint :=
  set_last_keepalive_receive_time (Some tm)
    (set_peer_info (Some (mk_PeerInfo OUR_PROTOCOL DEFAULT_KEEPALIVE_INTERVAL))
       fresh).

(** A handshake at time 0, a clock reading at the keepalive timeout
    and one past it. *)
Definition shaken : RPCEndpoint := shaken_at 0.0.
Definition on_time : Env := mkEnv 0 0 30.0.
Definition late : Env := mkEnv 0 0 31.0.

(** A handshake at 2.002 s and a clock reading of 32.002 s: the
    binary64 difference is 30.000000000000004. *)
#[warnings="-inexact-float"]
Definition shaken_2 : RPCEndpoint := shaken_at 2.002.
#[warnings="-inexact-float"]
Definition drifted : Env := mkEnv 0 0 32.002.

(** [sent] with the counter back on the id that is still in the table. *)
Definition colliding : RPCEndpoint := set_next_message_id 65530 sent.

End Scenario.

(** * Properties *)

(** ** Bytes *)

Lemma Z_of_byte_of_Z (z : Z) : 0 <= z < 256 -> Z_of_byte (byte_of_Z z) = z.
Proof.
  intros Hz. unfold Z_of_byte, byte_of_Z.
  rewrite Z.mod_small by lia.
  destruct (Byte.of_N (Z.to_N z)) as [b|] eqn:E.
  - apply Byte.to_of_N in E. rewrite E. lia.
  - apply Byte.of_N_None_iff in E. lia.
Qed.

Lemma Z_of_byte_range (b : byte) : 0 <= Z_of_byte b < 256.
Proof.
  unfold Z_of_byte. pose proof (Byte.to_N_bounded b). lia.
Qed.

Lemma byte_of_Z_of_byte (b : byte) : byte_of_Z (Z_of_byte b) = b.
Proof.
  unfold byte_of_Z. rewrite Z.mod_small by apply Z_of_byte_range.
  unfold Z_of_byte. rewrite N2Z.id, Byte.of_to_N. reflexivity.
Qed.

Lemma from_bytes_2 (b1 b2 : byte) :
  from_bytes [b1; b2] = Z_of_byte b1 * 256 + Z_of_byte b2.
Proof. unfold from_bytes. cbn [fold_left]. lia. Qed.

Lemma from_bytes_2_digits (b1 b2 : byte) :
  0 <= from_bytes [b1; b2] < 65536 /\
  byte_of_Z (from_bytes [b1; b2] / 256) = b1 /\
  byte_of_Z (from_bytes [b1; b2] mod 256) = b2.
Proof.
  rewrite from_bytes_2.
  pose proof (Z_of_byte_range b1). pose proof (Z_of_byte_range b2).
  split; [lia|].
  rewrite Z.div_add_l, Z.div_small, Z.add_0_r by lia.
  rewrite Z.add_comm, Z.mod_add, Z.mod_small by lia.
  rewrite !byte_of_Z_of_byte. auto.
Qed.

Lemma from_bytes_app (a : bytes) (x : byte) :
  from_bytes (a ++ [x]) = from_bytes a * 256 + Z_of_byte x.
Proof. unfold from_bytes. rewrite fold_left_app. reflexivity. Qed.

(** Decoding undoes encoding, for every width. *)
Lemma from_bytes_be_digits (k : nat) :
  forall n, 0 <= n -> from_bytes (be_digits k n) = n mod 256 ^ Z.of_nat k.
Proof.
  induction k as [|k IH]; intros n Hn.
  - simpl. rewrite Z.mod_1_r. reflexivity.
  - cbn [be_digits]. rewrite from_bytes_app.
    rewrite IH by (apply Z.div_pos; lia).
    rewrite Z_of_byte_of_Z by (apply Z.mod_pos_bound; lia).
    rewrite Nat2Z.inj_succ, Z.pow_succ_r by lia.
    rewrite Z.rem_mul_r by lia.
    ring.
Qed.

Lemma length_be_digits (k : nat) (n : Z) : length (be_digits k n) = k.
Proof.
  revert n. induction k as [|k IH]; intros n; cbn [be_digits].
  - reflexivity.
  - rewrite length_app, IH. simpl. lia.
Qed.

(** The two bytes of a 16-bit field, high byte first. *)
Lemma be_digits_2 (n : Z) :
  0 <= n < 65536 ->
  be_digits 2 n = [byte_of_Z (n / 256); byte_of_Z (n mod 256)].
Proof.
  intros Hn. cbn [be_digits app].
  assert (H : 0 <= n / 256 < 256).
  { split; [apply Z.div_pos; lia | apply Z.div_lt_upper_bound; lia]. }
  unfold byte_of_Z at 1. rewrite Z.mod_mod by lia. reflexivity.
Qed.

Lemma to_bytes_2 (n : Z) :
  0 <= n < 65536 ->
  to_bytes n 2 = Returns [byte_of_Z (n / 256); byte_of_Z (n mod 256)].
Proof.
  intros Hn. unfold to_bytes.
  replace (256 ^ Z.of_nat 2) with 65536 by reflexivity.
  destruct (Z.leb_spec 0 n); [|lia].
  destruct (Z.ltb_spec n 65536); [|lia].
  simpl andb. cbv iota. rewrite be_digits_2 by lia. reflexivity.
Qed.

Lemma to_bytes_Returns (n : Z) (k : nat) (b : bytes) :
  to_bytes n k = Returns b -> 0 <= n < 256 ^ Z.of_nat k /\ b = be_digits k n.
Proof.
  unfold to_bytes.
  destruct (Z.leb_spec 0 n), (Z.ltb_spec n (256 ^ Z.of_nat k)); simpl;
    intros Hb; inversion Hb; subst; auto.
Qed.

(** ** Reasoning about methods *)

Section Stable.

Context {A B : Type} (P : RPCEndpoint -> Prop).

Lemma stable_ret (a : A) : stable P (mret a).
Proof. intros ep H. exact H. Qed.

Lemma stable_raise (e : Exn) : stable P (raise e : M A).
Proof. intros ep H. exact H. Qed.

Lemma stable_lift (o : Outcome A) : stable P (lift o).
Proof. intros ep H. exact H. Qed.

Lemma stable_read (f : RPCEndpoint -> A) : stable P (read f).
Proof. intros ep H. exact H. Qed.

Lemma stable_assert (b : bool) : stable P (assert_ b).
Proof. intros ep H. destruct b; exact H. Qed.

Lemma stable_assign (g : RPCEndpoint -> RPCEndpoint) :
  (forall ep, P ep -> P (g ep)) -> stable P (assign g).
Proof. intros Hg ep H. apply Hg, H. Qed.

Lemma stable_bind (m : M A) (k : A -> M B) :
  stable P m -> (forall a, stable P (k a)) -> stable P (m ≫= k).
Proof.
  intros Hm Hk ep H. unfold mbind, M_bind.
  specialize (Hm ep H).
  destruct (m ep) as [[a|e] ep']; simpl in *.
  - apply Hk, Hm.
  - exact Hm.
Qed.

Lemma stable_try_except (m : M A) (catches : Exn -> bool) (h : Exn -> M A) :
  stable P m -> (forall e, stable P (h e)) -> stable P (try_except m catches h).
Proof.
  intros Hm Hh ep H. unfold try_except.
  specialize (Hm ep H).
  destruct (m ep) as [[a|e] ep']; simpl in *.
  - exact Hm.
  - destruct (catches e); simpl; [apply Hh, Hm | exact Hm].
Qed.

Lemma stable_attempt (m : M A) : stable P m -> stable P (attempt m).
Proof.
  intros Hm ep H. unfold attempt.
  specialize (Hm ep H). destruct (m ep) as [o ep']. exact Hm.
Qed.

End Stable.

(** The methods a proof opens on sight. *)
Create HintDb methods.
#[global] Hint Unfold _enqueue_outgoing_packet _check_env _prune_tasks
  _get_live_tasks create_task cancel settle del_in_flight wait_for
  set_response readexactly _read_int_8 _read_int_16 _read_int_32
  writer_write discard send_message_register send_message_finish close
  wait_closed_start wait_closed_finish run_wait_task _handle_message_packet
  _handle_response_packet _read_packet _handle_raw_message _write_packet
  _keepalive_tick run_start _run_core_task_exit _read_handshake
  _write_handshake run_handler_task run_core_task_exit : methods.

(** One step of a proof of [stable P m] by the shape of [m]; an
    assignment is closed when [P] does not read the attribute. *)
Ltac stable_step :=
  lazymatch goal with
  | |- stable _ (mret _) => apply stable_ret
  | |- stable _ (raise _) => apply stable_raise
  | |- stable _ (lift _) => apply stable_lift
  | |- stable _ (read _) => apply stable_read
  | |- stable _ (assert_ _) => apply stable_assert
  | |- stable _ (assign _) =>
      apply stable_assign; let ep := fresh "ep" in
      let H := fresh "H" in intros ep H; first [exact H | reflexivity]
  | |- stable _ (attempt _) => apply stable_attempt
  | |- stable _ (_ ≫= _) => apply stable_bind; [| intros ?; cbv beta]
  | |- stable _ (try_except _ _ _) =>
      apply stable_try_except; [| intros ?; cbv beta]
  | |- stable _ (if ?b then _ else _) => destruct b
  | |- stable _ (match ?x with _ => _ end) => destruct x
  | |- stable _ _ => progress autounfold with methods
  end.

Ltac stable_basic := repeat stable_step.

(** ** The guards of send_message *)

Ltac run_monad :=
  cbv beta iota zeta delta
    [mbind M_bind mret M_ret read assign raise lift assert_ attempt
     try_except discard].

Lemma check_env_ok (env : Env) (ep : RPCEndpoint) :
  env_ok env ep -> _check_env env ep = (Returns tt, ep).
Proof.
  intros [Ht Hl]. unfold _check_env. run_monad.
  rewrite Ht, Nat.eqb_refl. cbv beta iota delta [negb].
  rewrite Hl, Nat.eqb_refl. reflexivity.
Qed.

Lemma check_env_cases (env : Env) (ep : RPCEndpoint) :
  (env_ok env ep /\ _check_env env ep = (Returns tt, ep)) \/
  (~ env_ok env ep /\ exists e, _check_env env ep = (Raises e, ep)).
Proof.
  unfold _check_env, env_ok. run_monad.
  destruct (Nat.eqb_spec (current_thread env) (_thread ep)) as [Ht|Ht];
    cbv beta iota delta [negb].
  - destruct (Nat.eqb_spec (running_loop env) (_event_loop ep)) as [Hl|Hl].
    + left. auto.
    + right. split; [tauto | eauto].
  - right. split; [tauto | eauto].
Qed.

Lemma to_bytes_tag (t : _PacketType) :
  to_bytes (_PacketType_value t) 1 = Returns [byte_of_Z (_PacketType_value t)].
Proof. destruct t; reflexivity. Qed.

(** The first half of [send_message] on a message it takes. *)
Lemma send_message_enqueue_accepted (env : Env) (message : bytes) (ep : RPCEndpoint) :
  env_ok env ep -> Z.of_nat (length message) <= 65535 -> _closing ep = false ->
  0 <= _next_message_id ep < 65536 ->
  send_message_enqueue env message ep =
    (Returns (_next_message_id ep),
     enqueued (packet_layout x02 (_next_message_id ep) message) ep).
Proof.
  intros Henv Hlen Hcl Hid.
  unfold send_message_enqueue, _enqueue_outgoing_packet. run_monad.
  rewrite check_env_ok by exact Henv.
  destruct (Z.gtb_spec (Z.of_nat (length message)) 65535); [lia|].
  rewrite Hcl.
  rewrite (to_bytes_tag MESSAGE), !to_bytes_2 by lia.
  cbn [concat_bytes app].
  rewrite check_env_ok by exact Henv.
  reflexivity.
Qed.

(** A message over the limit is refused by the first guard. *)
Lemma send_message_enqueue_oversize (env : Env) (message : bytes) (ep : RPCEndpoint) :
  env_ok env ep -> Z.of_nat (length message) > 65535 ->
  send_message_enqueue env message ep =
    (Raises (RuntimeError "Message cannot be larger than 65535 bytes"), ep).
Proof.
  intros Henv Hlen. unfold send_message_enqueue. run_monad.
  rewrite check_env_ok by exact Henv.
  destruct (Z.gtb_spec (Z.of_nat (length message)) 65535); [reflexivity | lia].
Qed.

(** A message within the limit is refused by the second guard when the
    endpoint is closing. *)
Lemma send_message_enqueue_closing (env : Env) (message : bytes) (ep : RPCEndpoint) :
  env_ok env ep -> Z.of_nat (length message) <= 65535 -> _closing ep = true ->
  send_message_enqueue env message ep =
    (Raises (CommunicationError "Endpoint is closed"), ep).
Proof.
  intros Henv Hlen Hcl. unfold send_message_enqueue. run_monad.
  rewrite check_env_ok by exact Henv.
  destruct (Z.gtb_spec (Z.of_nat (length message)) 65535); [lia|].
  rewrite Hcl. reflexivity.
Qed.

(** How the first half of [send_message] ends: the message is taken,
    or a guard refuses it and nothing has changed, or (only from an
    endpoint whose counter is out of range) the id does not fit. *)
Lemma send_message_enqueue_cases (env : Env) (message : bytes) (ep : RPCEndpoint) :
  (env_ok env ep /\ Z.of_nat (length message) <= 65535 /\ _closing ep = false /\
   0 <= _next_message_id ep < 65536 /\
   send_message_enqueue env message ep =
     (Returns (_next_message_id ep),
      enqueued (packet_layout x02 (_next_message_id ep) message) ep)) \/
  (exists e, send_message_enqueue env message ep = (Raises e, ep)) \/
  (~ 0 <= _next_message_id ep < 65536 /\
   exists e, send_message_enqueue env message ep =
     (Raises e, set_next_message_id ((_next_message_id ep + 1) mod 65536) ep)).
Proof.
  destruct (check_env_cases env ep) as [[Henv Hc]|[Henv [e Hc]]].
  2:{ right; left. exists e. unfold send_message_enqueue. run_monad.
      rewrite Hc. reflexivity. }
  destruct (Z_le_gt_dec (Z.of_nat (length message)) 65535) as [Hlen|Hlen].
  2:{ right; left. eexists. apply send_message_enqueue_oversize; assumption. }
  destruct (_closing ep) eqn:Hcl.
  { right; left. eexists. apply send_message_enqueue_closing; assumption. }
  destruct (Z_lt_le_dec (_next_message_id ep) 0) as [Hneg|Hpos];
    [|destruct (Z_lt_le_dec (_next_message_id ep) 65536) as [Hlt|Hge]].
  - right; right. split; [lia|]. eexists.
    unfold send_message_enqueue. run_monad. rewrite Hc.
    destruct (Z.gtb_spec (Z.of_nat (length message)) 65535); [lia|].
    rewrite Hcl.
    unfold to_bytes at 2. destruct (Z.leb_spec 0 (_next_message_id ep)); [lia|].
    rewrite (to_bytes_tag MESSAGE). simpl. reflexivity.
  - left. split; [exact Henv|]. split; [exact Hlen|]. split; [reflexivity|].
    split; [lia|].
    apply send_message_enqueue_accepted; (assumption || lia).
  - right; right. split; [lia|]. eexists.
    unfold send_message_enqueue. run_monad. rewrite Hc.
    destruct (Z.gtb_spec (Z.of_nat (length message)) 65535); [lia|].
    rewrite Hcl.
    unfold to_bytes at 2.
    replace (256 ^ Z.of_nat 2) with 65536 by reflexivity.
    destruct (Z.ltb_spec (_next_message_id ep) 65536); [lia|].
    rewrite (to_bytes_tag MESSAGE), andb_false_r. simpl. reflexivity.
Qed.

Lemma send_message_register_cases (message_id : Z) (ep : RPCEndpoint) :
  (_in_flight_messages ep !! message_id = None /\
   send_message_register message_id ep =
     (Returns (length (loop_tasks ep)), registered message_id ep)) \/
  (_in_flight_messages ep !! message_id <> None /\
   send_message_register message_id ep = (Raises AssertionError, ep)).
Proof.
  unfold send_message_register, create_task, _prune_tasks. run_monad.
  case_bool_decide as Hfree.
  - left. split; [exact Hfree | reflexivity].
  - right. split; [exact Hfree | reflexivity].
Qed.

Lemma send_message_start_rejected (env : Env) (message : bytes)
    (timeout : option float) (ep ep' : RPCEndpoint) (e : Exn) :
  send_message_enqueue env message ep = (Raises e, ep') ->
  send_message_start env message timeout ep = (Raises e, ep').
Proof.
  intros H. unfold send_message_start. run_monad. rewrite H. reflexivity.
Qed.

Lemma send_message_start_oversize (env : Env) (ep : RPCEndpoint)
    (message : bytes) (timeout : option float) :
  env_ok env ep -> Z.of_nat (length message) > 65535 ->
  send_message_start env message timeout ep =
    (Raises (RuntimeError "Message cannot be larger than 65535 bytes"), ep).
Proof.
  intros Henv Hlen. apply send_message_start_rejected.
  apply send_message_enqueue_oversize; assumption.
Qed.

(** ** C6: an oversize message *)

(** C6. A message longer than 65535 bytes makes [send_message] raise
    the invalid-argument error ([RuntimeError]) before its first
    suspension, and the endpoint is left exactly as it was: the
    next-message-id counter, the in-flight table and the outgoing queue
    are unchanged and no packet is queued. *)
Theorem send_message_oversize_rejected (env : Env) (ep : RPCEndpoint)
    (message : bytes) (timeout : option float) :
  env_ok env ep ->
  Z.of_nat (length message) > 65535 ->
  send_message_start env message timeout ep =
    (Raises (RuntimeError "Message cannot be larger than 65535 bytes"), ep).
Proof. apply send_message_start_oversize. Qed.

Lemma send_message_oversize_rejected_witness :
  env_ok Scenario.env Scenario.fresh /\
  Z.of_nat (length Scenario.oversize) > 65535 /\
  send_message_start Scenario.env Scenario.oversize None Scenario.fresh =
    (Raises (RuntimeError "Message cannot be larger than 65535 bytes"),
     Scenario.fresh).
Proof.
  split; [split; reflexivity|]. split; [vm_compute; reflexivity|].
  apply (send_message_oversize_rejected Scenario.env Scenario.fresh
           Scenario.oversize None).
  - split; reflexivity.
  - vm_compute; reflexivity.
Defined.

(** ** C10: the order of the two guards *)

(** C10. The size check comes first: a message longer than 65535 bytes
    raises the invalid-argument error whatever the closing flag is, and
    a closing endpoint raises the communication error exactly for the
    messages of 65535 bytes or fewer. *)
Theorem send_message_size_check_first (env : Env) (ep : RPCEndpoint)
    (message : bytes) (timeout : option float) :
  env_ok env ep ->
  (Z.of_nat (length message) > 65535 ->
   fst (send_message_start env message timeout ep) =
     Raises (RuntimeError "Message cannot be larger than 65535 bytes")) /\
  (_closing ep = true ->
   (fst (send_message_start env message timeout ep) =
      Raises (CommunicationError "Endpoint is closed")
    <-> Z.of_nat (length message) <= 65535)).
Proof.
  intros Henv. split.
  - intros Hlen. rewrite send_message_start_oversize by assumption.
    reflexivity.
  - intros Hcl. split.
    + intros Hres.
      destruct (Z_le_gt_dec (Z.of_nat (length message)) 65535) as [Hle|Hgt];
        [exact Hle|].
      rewrite send_message_start_oversize in Hres by assumption.
      discriminate Hres.
    + intros Hle.
      rewrite (send_message_start_rejected env message timeout ep ep
                 (CommunicationError "Endpoint is closed")); [reflexivity|].
      apply send_message_enqueue_closing; assumption.
Qed.

Lemma send_message_size_check_first_witness :
  env_ok Scenario.env Scenario.closed /\
  fst (send_message_start Scenario.env Scenario.oversize None Scenario.closed) =
    Raises (RuntimeError "Message cannot be larger than 65535 bytes") /\
  fst (send_message_start Scenario.env Scenario.abc None Scenario.closed) =
    Raises (CommunicationError "Endpoint is closed").
Proof.
  assert (Henv : env_ok Scenario.env Scenario.closed) by (split; reflexivity).
  split; [exact Henv|]. split.
  - apply (send_message_size_check_first Scenario.env Scenario.closed
             Scenario.oversize None Henv).
    vm_compute; reflexivity.
  - apply (send_message_size_check_first Scenario.env Scenario.closed
             Scenario.abc None Henv).
    + reflexivity.
    + vm_compute; discriminate.
Defined.

(** ** C5: send_message on a closing endpoint *)

(** C5 as stated fails: on a closing endpoint a message of 65536 bytes
    is answered with the invalid-argument error, not with a
    communication error. *)
Lemma send_message_closing_oversize_counterexample :
  ~ (forall (env : Env) (ep : RPCEndpoint) (message : bytes) (timeout : option float),
       env_ok env ep -> _closing ep = true ->
       exists msg, send_message_start env message timeout ep =
                     (Raises (CommunicationError msg), ep)).
Proof.
  intros H.
  destruct (H Scenario.env Scenario.closed Scenario.oversize None) as [msg Hmsg].
  - split; reflexivity.
  - reflexivity.
  - rewrite send_message_start_oversize in Hmsg.
    + discriminate Hmsg.
    + split; reflexivity.
    + vm_compute; reflexivity.
Qed.

(** C5, amended. On a closing endpoint [send_message] fails before its
    first suspension and mutates nothing (no id is taken, no packet is
    queued, no table entry is made); the error is the communication
    error for a message of at most 65535 bytes, and the
    invalid-argument error for a longer one. *)
Theorem send_message_closing_rejected (env : Env) (ep : RPCEndpoint)
    (message : bytes) (timeout : option float) :
  env_ok env ep ->
  _closing ep = true ->
  (Z.of_nat (length message) <= 65535 ->
   send_message_start env message timeout ep =
     (Raises (CommunicationError "Endpoint is closed"), ep)) /\
  (Z.of_nat (length message) > 65535 ->
   send_message_start env message timeout ep =
     (Raises (RuntimeError "Message cannot be larger than 65535 bytes"), ep)).
Proof.
  intros Henv Hcl. split; intros Hlen.
  - apply send_message_start_rejected, send_message_enqueue_closing; assumption.
  - apply send_message_start_rejected, send_message_enqueue_oversize; assumption.
Qed.

Lemma send_message_closing_rejected_witness :
  env_ok Scenario.env Scenario.closed /\
  _closing Scenario.closed = true /\
  send_message_start Scenario.env Scenario.abc None Scenario.closed =
    (Raises (CommunicationError "Endpoint is closed"), Scenario.closed).
Proof.
  assert (Henv : env_ok Scenario.env Scenario.closed) by (split; reflexivity).
  split; [exact Henv|]. split; [reflexivity|].
  apply (send_message_closing_rejected Scenario.env Scenario.closed
           Scenario.abc None Henv eq_refl).
  vm_compute; discriminate.
Defined.

(** ** Stepping through a method *)

Lemma bind_Returns {A B : Type} (m : M A) (k : A -> M B)
    (ep ep' : RPCEndpoint) (a : A) :
  m ep = (Returns a, ep') -> (m ≫= k) ep = k a ep'.
Proof. intros H. unfold mbind, M_bind. rewrite H. reflexivity. Qed.

(** Reading [n] bytes when the stream holds them. *)
Lemma readexactly_prefix (n : Z) (b rest : bytes) (ep : RPCEndpoint) :
  n = Z.of_nat (length b) ->
  unread (_reader ep) = b ++ rest ->
  readexactly n ep = (Returns b, set_reader (mkReader rest) ep).
Proof.
  intros -> Hbuf. unfold readexactly. run_monad.
  destruct (Z.ltb_spec (Z.of_nat (length b)) 0); [lia|].
  rewrite Hbuf.
  destruct (Z.ltb_spec (Z.of_nat (length (b ++ rest))) (Z.of_nat (length b)))
    as [Hshort|_].
  { rewrite length_app in Hshort. lia. }
  rewrite Nat2Z.id, take_app_length, drop_app_length. reflexivity.
Qed.

Lemma _read_int_16_prefix (b1 b2 : byte) (rest : bytes) (ep : RPCEndpoint) :
  unread (_reader ep) = b1 :: b2 :: rest ->
  _read_int_16 ep = (Returns (from_bytes [b1; b2]), set_reader (mkReader rest) ep).
Proof.
  intros Hbuf. unfold _read_int_16.
  rewrite (bind_Returns _ _ ep (set_reader (mkReader rest) ep) [b1; b2]).
  - reflexivity.
  - apply readexactly_prefix; [reflexivity | exact Hbuf].
Qed.

(** ** C8: the layout of MESSAGE and RESPONSE packets *)

(** The fields of a laid-out packet, read back the way the peer reads
    them: one byte of tag, two of id, two of length, big-endian. *)
Lemma packet_layout_fields (tag : byte) (message_id : Z) (payload : bytes) :
  0 <= message_id < 65536 ->
  Z.of_nat (length payload) <= 65535 ->
  let packet := packet_layout tag message_id payload in
  take 1 packet = [tag] /\
  from_bytes (take 2 (drop 1 packet)) = message_id /\
  from_bytes (take 2 (drop 3 packet)) = Z.of_nat (length payload) /\
  drop 5 packet = payload.
Proof.
  intros Hid Hlen packet. unfold packet, packet_layout.
  cbn [take drop].
  rewrite <- !be_digits_2 by lia.
  rewrite !from_bytes_be_digits by lia.
  change (256 ^ Z.of_nat 2) with 65536.
  rewrite !Z.mod_small by lia.
  auto.
Qed.

(** An accepted message queues exactly its laid-out packet. *)
Lemma send_message_enqueue_Returns (env : Env) (message : bytes)
    (ep ep' : RPCEndpoint) (message_id : Z) :
  send_message_enqueue env message ep = (Returns message_id, ep') ->
  env_ok env ep /\ Z.of_nat (length message) <= 65535 /\ _closing ep = false /\
  0 <= message_id < 65536 /\ message_id = _next_message_id ep /\
  ep' = enqueued (packet_layout x02 message_id message) ep.
Proof.
  intros H.
  destruct (send_message_enqueue_cases env message ep)
    as [(Henv & Hlen & Hcl & Hid & Heq)|[[e Heq]|[_ [e Heq]]]];
    rewrite Heq in H; inversion H; subst; auto 10.
Qed.

Lemma _handle_raw_message_Returns (env : Env) (ep : RPCEndpoint)
    (call : Handler) (message_id : Z) (message response : bytes) :
  env_ok env ep ->
  _handle_raw_message_call ep = Some call ->
  call message = Returns response ->
  0 <= message_id < 65536 ->
  Z.of_nat (length response) <= 65535 ->
  _handle_raw_message env message_id message ep =
    (Returns tt,
     set_have_out_packets true
       (set_out_packets
          (_out_packets ep ++ [packet_layout x03 message_id response]) ep)).
Proof.
  intros Henv Hcall Hrsp Hid Hlen.
  unfold _handle_raw_message, _enqueue_outgoing_packet. run_monad.
  rewrite Hcall, Hrsp.
  rewrite (to_bytes_tag RESPONSE), !to_bytes_2 by lia.
  cbn [concat_bytes app].
  rewrite check_env_ok by exact Henv.
  reflexivity.
Qed.

(** A MESSAGE packet read off the stream spawns its handler task. *)
Lemma _read_packet_message (env : Env) (ep : RPCEndpoint)
    (i1 i2 l1 l2 : byte) (payload rest : bytes) :
  _closing ep = false ->
  unread (_reader ep) = x02 :: i1 :: i2 :: l1 :: l2 :: payload ++ rest ->
  from_bytes [l1; l2] = Z.of_nat (length payload) ->
  _read_packet env ep =
    (Returns tt,
     set_tasks (List.filter (live_ref (loop_tasks ep)) (_tasks ep)
                  ++ [length (loop_tasks ep)])
       (set_loop_tasks
          (loop_tasks ep ++
             [mkTask (HandleRawMessageCoro (from_bytes [i1; i2]) payload)
                     (Pending false)])
          (set_reader (mkReader rest) ep))).
Proof.
  intros Hcl Hbuf Hlen.
  unfold _read_packet, _read_int_8.
  erewrite bind_Returns by reflexivity.
  rewrite Hcl. cbn [negb].
  erewrite bind_Returns by reflexivity.
  erewrite bind_Returns.
  2:{ erewrite bind_Returns
        by (apply (readexactly_prefix 1 [x02]); [reflexivity | exact Hbuf]).
      reflexivity. }
  erewrite bind_Returns by reflexivity.
  unfold _handle_message_packet.
  erewrite bind_Returns by (apply _read_int_16_prefix; reflexivity).
  erewrite bind_Returns by (apply _read_int_16_prefix; reflexivity).
  erewrite bind_Returns
    by (apply (readexactly_prefix _ payload rest); [exact Hlen | reflexivity]).
  unfold create_task, _prune_tasks. run_monad.
  cbn [_closing set_reader]. rewrite Hcl. reflexivity.
Qed.

Lemma run_handler_task_response (env : Env) (ep : RPCEndpoint) (t : TaskId)
    (call : Handler) (message_id : Z) (message response : bytes) :
  env_ok env ep ->
  loop_tasks ep !! t =
    Some (mkTask (HandleRawMessageCoro message_id message) (Pending false)) ->
  _handle_raw_message_call ep = Some call ->
  call message = Returns response ->
  0 <= message_id < 65536 ->
  Z.of_nat (length response) <= 65535 ->
  run_handler_task env t ep =
    (Returns tt,
     set_loop_tasks
       (alter (fun task => mkTask (coro task) (Finished None)) t (loop_tasks ep))
       (set_have_out_packets true
          (set_out_packets
             (_out_packets ep ++ [packet_layout x03 message_id response]) ep))).
Proof.
  intros Henv Htask Hcall Hrsp Hid Hlen.
  unfold run_handler_task.
  erewrite bind_Returns by reflexivity.
  rewrite Htask.
  erewrite bind_Returns.
  2:{ unfold attempt.
      rewrite (_handle_raw_message_Returns env ep call message_id message response)
        by assumption.
      reflexivity. }
  reflexivity.
Qed.

(** A MESSAGE read off the stream, then its handler task run: the
    RESPONSE queued carries the two id bytes of the MESSAGE. *)
Lemma response_carries_message_id (env : Env) (ep : RPCEndpoint)
    (i1 i2 l1 l2 : byte) (payload rest : bytes)
    (call : Handler) (response : bytes) :
  env_ok env ep ->
  _closing ep = false ->
  unread (_reader ep) = x02 :: i1 :: i2 :: l1 :: l2 :: payload ++ rest ->
  from_bytes [l1; l2] = Z.of_nat (length payload) ->
  _handle_raw_message_call ep = Some call ->
  call payload = Returns response ->
  Z.of_nat (length response) <= 65535 ->
  let received := snd (_read_packet env ep) in
  let t := length (loop_tasks ep) in
  fst (_read_packet env ep) = Returns tt /\
  fst (run_handler_task env t received) = Returns tt /\
  _out_packets (snd (run_handler_task env t received)) =
    _out_packets ep ++
      [x03 :: i1 :: i2
           :: byte_of_Z (Z.of_nat (length response) / 256)
           :: byte_of_Z (Z.of_nat (length response) mod 256)
           :: response].
Proof.
  intros Henv Hcl Hbuf Hlen Hcall Hrsp Hrlen received t.
  pose proof (from_bytes_2_digits i1 i2) as (Hid & Hhi & Hlo).
  unfold received, t.
  rewrite (_read_packet_message env ep i1 i2 l1 l2 payload rest) by assumption.
  cbn [fst snd].
  rewrite (run_handler_task_response env _ _ call (from_bytes [i1; i2])
             payload response); try assumption.
  - cbn [fst snd _out_packets set_loop_tasks set_have_out_packets
         set_out_packets set_tasks set_reader].
    unfold packet_layout. rewrite Hhi, Hlo. auto.
  - cbn [loop_tasks set_tasks set_loop_tasks set_reader].
    apply list_lookup_middle. reflexivity.
Qed.

(** C8. An accepted message is queued as the tag byte 2, the message
    id as a big-endian u16, the payload length as a big-endian u16 and
    the payload; the response of the handler to a message is queued in
    the same layout with the tag byte 3 and the id of that message: a
    MESSAGE read from the peer is answered by a RESPONSE that carries
    the two id bytes of the MESSAGE. *)
Theorem packet_encoding (env : Env) (ep : RPCEndpoint) :
  (forall (message : bytes) (message_id : Z) (ep' : RPCEndpoint),
     send_message_enqueue env message ep = (Returns message_id, ep') ->
     let packet := packet_layout x02 message_id message in
     _out_packets ep' = _out_packets ep ++ [packet] /\
     take 1 packet = [x02] /\
     from_bytes (take 2 (drop 1 packet)) = message_id /\
     from_bytes (take 2 (drop 3 packet)) = Z.of_nat (length message) /\
     drop 5 packet = message) /\
  (forall (call : Handler) (message_id : Z) (message response : bytes),
     env_ok env ep ->
     _handle_raw_message_call ep = Some call ->
     call message = Returns response ->
     0 <= message_id < 65536 ->
     Z.of_nat (length response) <= 65535 ->
     let packet := packet_layout x03 message_id response in
     fst (_handle_raw_message env message_id message ep) = Returns tt /\
     _out_packets (snd (_handle_raw_message env message_id message ep)) =
       _out_packets ep ++ [packet] /\
     take 1 packet = [x03] /\
     from_bytes (take 2 (drop 1 packet)) = message_id /\
     from_bytes (take 2 (drop 3 packet)) = Z.of_nat (length response) /\
     drop 5 packet = response) /\
  (forall (i1 i2 l1 l2 : byte) (payload rest : bytes)
          (call : Handler) (response : bytes),
     env_ok env ep ->
     _closing ep = false ->
     unread (_reader ep) = x02 :: i1 :: i2 :: l1 :: l2 :: payload ++ rest ->
     from_bytes [l1; l2] = Z.of_nat (length payload) ->
     _handle_raw_message_call ep = Some call ->
     call payload = Returns response ->
     Z.of_nat (length response) <= 65535 ->
     let received := snd (_read_packet env ep) in
     let t := length (loop_tasks ep) in
     fst (_read_packet env ep) = Returns tt /\
     fst (run_handler_task env t received) = Returns tt /\
     _out_packets (snd (run_handler_task env t received)) =
       _out_packets ep ++
         [x03 :: i1 :: i2
              :: byte_of_Z (Z.of_nat (length response) / 256)
              :: byte_of_Z (Z.of_nat (length response) mod 256)
              :: response]).
Proof.
  split; [|split].
  - intros message message_id ep' H packet.
    apply send_message_enqueue_Returns in H.
    destruct H as (_ & Hlen & _ & Hid & _ & ->).
    split; [reflexivity|].
    apply packet_layout_fields; assumption.
  - intros call message_id message response Henv Hcall Hrsp Hid Hlen packet.
    rewrite (_handle_raw_message_Returns env ep call message_id message response)
      by assumption.
    split; [reflexivity|]. split; [reflexivity|].
    apply packet_layout_fields; assumption.
  - intros i1 i2 l1 l2 payload rest call response.
    apply response_carries_message_id.
Qed.

Lemma packet_encoding_witness :
  _out_packets (snd (send_message_enqueue Scenario.env Scenario.abc Scenario.fresh)) =
    [[x02; xff; xfa; x00; x03; "a"; "b"; "c"]%byte] /\
  _out_packets (snd (_handle_raw_message Scenario.env 65530 Scenario.abc Scenario.fresh)) =
    [[x03; xff; xfa; x00; x03; "a"; "b"; "c"]%byte].
Proof.
  destruct (packet_encoding Scenario.env Scenario.fresh) as [Hmsg [Hrsp _]].
  split.
  - destruct (Hmsg Scenario.abc 65530
                (snd (send_message_enqueue Scenario.env Scenario.abc Scenario.fresh))
                eq_refl) as [Hq _].
    exact Hq.
  - destruct (Hrsp Scenario.echo 65530 Scenario.abc Scenario.abc) as (_ & Hq & _).
    + split; reflexivity.
    + reflexivity.
    + reflexivity.
    + lia.
    + simpl. lia.
    + exact Hq.
Defined.

(** ** C2: the order of the enqueue and the table insert *)

(** How [send_message] reaches its [await]. *)
Lemma send_message_start_Returns (env : Env) (message : bytes)
    (timeout : option float) (ep ep' : RPCEndpoint) (frame : SendFrame) :
  send_message_start env message timeout ep = (Returns frame, ep') ->
  let message_id := frame_message_id frame in
  let between := enqueued (packet_layout x02 message_id message) ep in
  send_message_enqueue env message ep = (Returns message_id, between) /\
  _in_flight_messages ep !! message_id = None /\
  frame_wait_task frame = length (loop_tasks ep) /\
  send_message_register message_id between = (Returns (frame_wait_task frame), ep') /\
  ep' = registered message_id between.
Proof.
  unfold send_message_start. run_monad.
  destruct (send_message_enqueue env message ep) as [[mid|e] ep1] eqn:Henq;
    [|discriminate].
  pose proof (send_message_enqueue_Returns _ _ _ _ _ Henq)
    as (_ & _ & _ & _ & _ & ->).
  destruct (send_message_register_cases mid
              (enqueued (packet_layout x02 mid message) ep))
    as [[Hfree Hreg]|[_ Hreg]]; rewrite Hreg; [|discriminate].
  intros H. inversion H; subst. cbn [frame_message_id frame_wait_task].
  auto.
Qed.

(** C2 as stated fails: when the MESSAGE packet has been queued, the
    in-flight table need not hold the entry of its id yet. *)
Lemma send_message_enqueue_first_counterexample :
  ~ (forall (env : Env) (message : bytes) (ep between : RPCEndpoint)
            (message_id : Z),
       send_message_enqueue env message ep = (Returns message_id, between) ->
       is_Some (_in_flight_messages between !! message_id)).
Proof.
  intros H.
  destruct (H Scenario.env Scenario.abc Scenario.fresh
              (snd (send_message_enqueue Scenario.env Scenario.abc Scenario.fresh))
              65530 eq_refl) as [msgobj Hentry].
  vm_compute in Hentry. discriminate Hentry.
Qed.

(** C2, amended. Within [send_message], for every accepted message
    (one that got past the two guards), the MESSAGE packet is queued
    first, with the in-flight table still as it was, and the table
    insert follows from that state.  When the id is free the entry is
    inserted and both are in place when [send_message] first suspends,
    so no response can be handled while only one of the two is; when
    the id is still taken the assertion of line 215 fails with the
    packet already queued and no entry made. *)
Theorem send_message_enqueue_then_insert (env : Env) (message : bytes)
    (timeout : option float) (ep between : RPCEndpoint) (message_id : Z) :
  send_message_enqueue env message ep = (Returns message_id, between) ->
  let packet := packet_layout x02 message_id message in
  let t := length (loop_tasks ep) in
  _out_packets between = _out_packets ep ++ [packet] /\
  _in_flight_messages between = _in_flight_messages ep /\
  (_in_flight_messages ep !! message_id = None ->
   exists ep' : RPCEndpoint,
     send_message_register message_id between = (Returns t, ep') /\
     send_message_start env message timeout ep =
       (Returns (mkSendFrame message_id t
                   (match timeout with
                    | None => DEFAULT_MESSAGE_TIMEOUT
                    | Some tm => tm
                    end)), ep') /\
     _out_packets ep' = _out_packets ep ++ [packet] /\
     _in_flight_messages ep' =
       <[message_id := mk_InFlightMessage None false t]> (_in_flight_messages ep)) /\
  (_in_flight_messages ep !! message_id <> None ->
   send_message_register message_id between = (Raises AssertionError, between) /\
   send_message_start env message timeout ep = (Raises AssertionError, between)).
Proof.
  intros Henq packet t.
  pose proof (send_message_enqueue_Returns _ _ _ _ _ Henq)
    as (_ & _ & _ & _ & _ & Hbetween).
  fold packet in Hbetween.
  assert (Hstart : send_message_start env message timeout ep =
    (r ← send_message_register message_id;
     mret (mkSendFrame message_id r
             (match timeout with
              | None => DEFAULT_MESSAGE_TIMEOUT
              | Some tm => tm
              end))) between).
  { unfold send_message_start. run_monad. rewrite Henq. reflexivity. }
  subst between.
  split; [reflexivity|]. split; [reflexivity|].
  destruct (send_message_register_cases message_id (enqueued packet ep))
    as [[Hfree Hreg]|[Htaken Hreg]].
  - split; [|intros Hentry; contradiction].
    intros _. exists (registered message_id (enqueued packet ep)).
    split; [exact Hreg|]. split; [|split; reflexivity].
    rewrite Hstart. run_monad. rewrite Hreg. reflexivity.
  - split; [intros Hentry; contradiction|].
    intros _. split; [exact Hreg|].
    rewrite Hstart. run_monad. rewrite Hreg. reflexivity.
Qed.

Lemma send_message_enqueue_then_insert_witness :
  (exists ep' : RPCEndpoint,
     send_message_register 65530
       (snd (send_message_enqueue Scenario.env Scenario.abc Scenario.fresh)) =
       (Returns 0%nat, ep') /\
     send_message_start Scenario.env Scenario.abc None Scenario.fresh =
       (Returns (mkSendFrame 65530 0 DEFAULT_MESSAGE_TIMEOUT), ep') /\
     _out_packets ep' = [packet_layout x02 65530 Scenario.abc] /\
     _in_flight_messages ep' = {[ 65530 := mk_InFlightMessage None false 0%nat ]}) /\
  send_message_start Scenario.env Scenario.ABC None Scenario.colliding =
    (Raises AssertionError,
     snd (send_message_enqueue Scenario.env Scenario.ABC Scenario.colliding)) /\
  _out_packets (snd (send_message_enqueue Scenario.env Scenario.ABC Scenario.colliding)) =
    [packet_layout x02 65530 Scenario.abc; packet_layout x02 65530 Scenario.ABC].
Proof.
  destruct (send_message_enqueue_then_insert Scenario.env Scenario.abc None
              Scenario.fresh
              (snd (send_message_enqueue Scenario.env Scenario.abc Scenario.fresh))
              65530 eq_refl) as (_ & _ & Hfree & _).
  destruct (send_message_enqueue_then_insert Scenario.env Scenario.ABC None
              Scenario.colliding
              (snd (send_message_enqueue Scenario.env Scenario.ABC Scenario.colliding))
              65530 eq_refl) as (Hqueued & _ & _ & Htaken).
  split; [|split].
  - apply Hfree. reflexivity.
  - apply Htaken. vm_compute. discriminate.
  - exact Hqueued.
Defined.

(** ** C1 and C3: what is left in the in-flight table *)

(** Of the ways [send_message] can leave its [await], only the
    [TimeoutError] of [wait_for] removes the entry: the table is the
    same after a response and after a cancellation. *)
Lemma send_message_finish_table (frame : SendFrame) (w : Wake) (ep : RPCEndpoint) :
  _in_flight_messages (snd (send_message_finish frame w ep)) =
    match fst (wait_for (frame_wait_task frame) w ep) with
    | Raises TimeoutError =>
        delete (frame_message_id frame) (_in_flight_messages ep)
    | _ => _in_flight_messages ep
    end.
Proof.
  assert (Hdel : forall ep1,
    _in_flight_messages ep1 = _in_flight_messages ep ->
    _in_flight_messages
      (snd ((cancel (frame_wait_task frame);;
             del_in_flight (frame_message_id frame);;
             (raise (CommunicationError EmptyString) : M (option bytes))) ep1)) =
    delete (frame_message_id frame) (_in_flight_messages ep)).
  { intros ep1 Htable. unfold del_in_flight, cancel. run_monad.
    cbn [_in_flight_messages set_loop_tasks]. rewrite Htable.
    destruct (_in_flight_messages ep !! frame_message_id frame) eqn:Hentry;
      cbn [snd _in_flight_messages set_in_flight_messages set_loop_tasks].
    - rewrite Htable. reflexivity.
    - rewrite Htable. symmetry. apply delete_id. exact Hentry. }
  unfold send_message_finish, try_except.
  assert (Hwait : _in_flight_messages (snd (wait_for (frame_wait_task frame) w ep))
                  = _in_flight_messages ep).
  { apply (ltac:(stable_basic) :
      stable (fun ep1 => _in_flight_messages ep1 = _in_flight_messages ep)
             (wait_for (frame_wait_task frame) w)). reflexivity. }
  destruct (wait_for (frame_wait_task frame) w ep) as [[r|e] ep1];
    cbn [fst snd] in *; [exact Hwait|].
  destruct e; cbn [snd]; try exact Hwait.
  apply Hdel, Hwait.
Qed.

(** X19. Taking an id whose entry is still in the table trips the
    assertion of line 215, after the id was taken and the packet was
    queued: the call raises [AssertionError] and the MESSAGE goes out
    with nobody to wait for its response. *)
Lemma send_message_start_collision (env : Env) (message : bytes)
    (timeout : option float) (ep : RPCEndpoint) :
  env_ok env ep -> Z.of_nat (length message) <= 65535 -> _closing ep = false ->
  0 <= _next_message_id ep < 65536 ->
  _in_flight_messages ep !! _next_message_id ep <> None ->
  send_message_start env message timeout ep =
    (Raises AssertionError,
     enqueued (packet_layout x02 (_next_message_id ep) message) ep).
Proof.
  intros Henv Hlen Hcl Hid Hentry.
  unfold send_message_start. run_monad.
  rewrite send_message_enqueue_accepted by assumption.
  destruct (send_message_register_cases (_next_message_id ep)
              (enqueued (packet_layout x02 (_next_message_id ep) message) ep))
    as [[Hfree _]|[_ Hreg]].
  - contradiction.
  - rewrite Hreg. reflexivity.
Qed.

Lemma send_message_start_collision_witness :
  send_message_start Scenario.env Scenario.ABC None Scenario.colliding =
    (Raises AssertionError,
     enqueued (packet_layout x02 65530 Scenario.ABC) Scenario.colliding).
Proof.
  apply (send_message_start_collision Scenario.env Scenario.ABC None
           Scenario.colliding).
  - split; reflexivity.
  - cbn. lia.
  - reflexivity.
  - cbn. lia.
  - vm_compute. discriminate.
Defined.

(** C1, at the failing input. [send_message(abc)] is sent with id
    65530, the RESPONSE of the peer is handled, and the call returns
    the response; the entry of id 65530 is still in the table when the
    call has returned. *)
Theorem send_message_returns_with_entry :
  send_message_start Scenario.env Scenario.abc None
      (Scenario.connect Scenario.peer_response) =
    (Returns Scenario.frame, Scenario.sent) /\
  fst (_read_packet Scenario.env Scenario.sent) = Returns tt /\
  fst (send_message_finish Scenario.frame TimeoutExpired Scenario.answered) =
    Returns (Some Scenario.ABC) /\
  _in_flight_messages
      (snd (send_message_finish Scenario.frame TimeoutExpired Scenario.answered))
      !! 65530 =
    Some (mk_InFlightMessage (Some Scenario.ABC) true 0%nat).
Proof.
  split; [vm_compute; reflexivity|]. split; [vm_compute; reflexivity|].
  split; vm_compute; reflexivity.
Qed.

(** C3, at the failing input. The pending [send_message(abc)] is
    cancelled: it raises the communication error and its waiter is
    cancelled, but the entry of id 65530 stays in the table; on the
    timeout path the same call removes it. *)
Theorem send_message_cancelled_with_entry :
  let cancelled := send_message_finish Scenario.frame CallerCancelled Scenario.sent in
  let timed_out := send_message_finish Scenario.frame TimeoutExpired Scenario.sent in
  fst cancelled = Raises (CommunicationError EmptyString) /\
  state <$> loop_tasks (snd cancelled) !! 0%nat = Some Cancelled /\
  _in_flight_messages (snd cancelled) !! 65530 =
    Some (mk_InFlightMessage None false 0%nat) /\
  fst timed_out = Raises (CommunicationError EmptyString) /\
  state <$> loop_tasks (snd timed_out) !! 0%nat = Some Cancelled /\
  _in_flight_messages (snd timed_out) !! 65530 = None.
Proof.
  cbv zeta. repeat split; vm_compute; reflexivity.
Qed.

(** ** C9: a response nobody waits for *)

(** A RESPONSE whose id has no entry: the packet is read off the
    stream and nothing else happens. *)
Lemma _handle_response_packet_absent (ep : RPCEndpoint)
    (i1 i2 l1 l2 : byte) (payload rest : bytes) :
  unread (_reader ep) = i1 :: i2 :: l1 :: l2 :: payload ++ rest ->
  from_bytes [l1; l2] = Z.of_nat (length payload) ->
  _in_flight_messages ep !! from_bytes [i1; i2] = None ->
  _handle_response_packet ep = (Returns tt, set_reader (mkReader rest) ep).
Proof.
  intros Hbuf Hlen Hentry. unfold _handle_response_packet.
  erewrite bind_Returns by (apply _read_int_16_prefix; exact Hbuf).
  erewrite bind_Returns by (apply _read_int_16_prefix; reflexivity).
  erewrite bind_Returns
    by (apply (readexactly_prefix _ payload rest); [exact Hlen | reflexivity]).
  run_monad. cbn [_in_flight_messages set_reader]. rewrite Hentry.
  reflexivity.
Qed.

(** C9. A RESPONSE packet whose id is absent from the in-flight table
    is dropped without an error: handling it returns normally, the
    endpoint is unchanged but for the bytes of the packet taken off the
    stream, and the read loop goes on with the packets that follow
    exactly as it would have without it. *)
Theorem late_response_ignored (env : Env) (ep : RPCEndpoint)
    (i1 i2 l1 l2 : byte) (payload rest : bytes) (fuel : nat) :
  _closing ep = false ->
  unread (_reader ep) = x03 :: i1 :: i2 :: l1 :: l2 :: payload ++ rest ->
  from_bytes [l1; l2] = Z.of_nat (length payload) ->
  _in_flight_messages ep !! from_bytes [i1; i2] = None ->
  _handle_response_packet
      (set_reader (mkReader (i1 :: i2 :: l1 :: l2 :: payload ++ rest)) ep) =
    (Returns tt, set_reader (mkReader rest) ep) /\
  _read_packet env ep = (Returns tt, set_reader (mkReader rest) ep) /\
  _read_loop (S fuel) env ep =
    _read_loop fuel env (set_reader (mkReader rest) ep).
Proof.
  intros Hcl Hbuf Hlen Hentry.
  assert (Hrsp : _handle_response_packet
            (set_reader (mkReader (i1 :: i2 :: l1 :: l2 :: payload ++ rest)) ep) =
          (Returns tt, set_reader (mkReader rest) ep)).
  { exact (_handle_response_packet_absent
             (set_reader (mkReader (i1 :: i2 :: l1 :: l2 :: payload ++ rest)) ep)
             i1 i2 l1 l2 payload rest eq_refl Hlen Hentry). }
  assert (Hpkt : _read_packet env ep = (Returns tt, set_reader (mkReader rest) ep)).
  { unfold _read_packet, _read_int_8.
    erewrite bind_Returns by reflexivity.
    rewrite Hcl. cbn [negb].
    erewrite bind_Returns by reflexivity.
    erewrite bind_Returns.
    2:{ erewrite bind_Returns
          by (apply (readexactly_prefix 1 [x03]); [reflexivity | exact Hbuf]).
        reflexivity. }
    erewrite bind_Returns by reflexivity.
    exact Hrsp. }
  split; [exact Hrsp|]. split; [exact Hpkt|].
  cbn [_read_loop]. erewrite bind_Returns by exact Hpkt. reflexivity.
Qed.

Lemma late_response_ignored_witness :
  let timed_out :=
    snd (send_message_finish Scenario.frame TimeoutExpired Scenario.sent) in
  _handle_response_packet
      (set_reader (mkReader (xff :: xfa :: x00 :: x03 :: Scenario.ABC ++ [])) timed_out) =
    (Returns tt, set_reader (mkReader []) timed_out) /\
  _read_packet Scenario.env timed_out =
    (Returns tt, set_reader (mkReader []) timed_out) /\
  _read_loop 1 Scenario.env timed_out =
    _read_loop 0 Scenario.env (set_reader (mkReader []) timed_out).
Proof.
  apply (late_response_ignored Scenario.env
           (snd (send_message_finish Scenario.frame TimeoutExpired Scenario.sent))
           xff xfa x00 x03 Scenario.ABC [] 0).
  - reflexivity.
  - reflexivity.
  - reflexivity.
  - vm_compute. reflexivity.
Defined.

(** ** The read loop ends *)

Lemma readexactly_short (n : Z) (k : nat) :
  stable (fun ep => (length (unread (_reader ep)) <= k)%nat) (readexactly n).
Proof.
  intros ep H. unfold readexactly. run_monad.
  destruct (n <? 0); [exact H|].
  destruct (Z.of_nat (length (unread (_reader ep))) <? n);
    cbn [snd _reader set_reader unread].
  - cbn [length]. lia.
  - rewrite length_drop. lia.
Qed.

Lemma readexactly_Returns (n : Z) (b : bytes) (ep ep' : RPCEndpoint) :
  readexactly n ep = (Returns b, ep') ->
  Z.of_nat (length (unread (_reader ep'))) =
    Z.of_nat (length (unread (_reader ep))) - n /\ 0 <= n.
Proof.
  unfold readexactly. run_monad.
  destruct (Z.ltb_spec n 0); [discriminate|].
  destruct (Z.ltb_spec (Z.of_nat (length (unread (_reader ep)))) n);
    [discriminate|].
  intros Heq. inversion Heq; subst. cbn [_reader set_reader unread].
  rewrite length_drop. lia.
Qed.

Ltac stable_reads :=
  repeat first [apply readexactly_short | stable_step].

(** A turn of the read loop that does not raise takes at least one
    byte off the stream. *)
Lemma _read_packet_consumes (env : Env) (ep ep' : RPCEndpoint) :
  _read_packet env ep = (Returns tt, ep') ->
  (length (unread (_reader ep')) < length (unread (_reader ep)))%nat.
Proof.
  unfold _read_packet, _read_int_8.
  unfold mbind at 1, M_bind at 1. cbn [read].
  unfold mbind at 1, M_bind at 1.
  destruct (_closing ep); cbn [negb assert_]; [discriminate|].
  cbn [mret M_ret].
  unfold mbind at 1, M_bind at 1. unfold mbind at 1, M_bind at 1.
  destruct (readexactly 1 ep) as [[b|e] ep1] eqn:Hread; [|discriminate].
  apply readexactly_Returns in Hread. destruct Hread as [Hlen _].
  cbn [mret M_ret].
  intros Hrest.
  assert (Hkeep : stable (fun ep2 => (length (unread (_reader ep2))
                                      <= length (unread (_reader ep1)))%nat)
            (mtype ← lift (_PacketType_of_value (from_bytes b));
             match mtype with
             | HANDSHAKE => raise (RuntimeError "Got multiple handshakes")
             | KEEPALIVE =>
                 assign (set_last_keepalive_receive_time (Some (monotonic env)))
             | MESSAGE => _handle_message_packet
             | RESPONSE => _handle_response_packet
             end)).
  { stable_reads. }
  specialize (Hkeep ep1 (le_n _)). rewrite Hrest in Hkeep. cbn [snd] in Hkeep.
  lia.
Qed.

(** X18. On a finite stream the read loop ends, and it ends by
    raising: with more turns allowed than bytes left, the turns are not
    used up. *)
Lemma _read_loop_raises (fuel : nat) (env : Env) :
  forall ep : RPCEndpoint,
    (length (unread (_reader ep)) < fuel)%nat ->
    exists e, fst (_read_loop fuel env ep) = Raises e.
Proof.
  induction fuel as [|fuel IH]; intros ep Hlen; [lia|].
  cbn [_read_loop]. unfold mbind, M_bind.
  destruct (_read_packet env ep) as [[[]|e] ep1] eqn:Hpkt.
  - apply IH. apply _read_packet_consumes in Hpkt. lia.
  - exists e. reflexivity.
Qed.

Lemma _read_loop_raises_witness :
  exists e, fst (_read_loop 9 Scenario.env
                   (Scenario.connect Scenario.peer_response)) = Raises e.
Proof.
  apply (_read_loop_raises 9 Scenario.env
           (Scenario.connect Scenario.peer_response)).
  vm_compute. lia.
Defined.

(** ** C4: the latch of wait_closed *)

Section Latch.

Variable dataclass_to_json : _PeerInfo -> bytes.
Variable dataclass_from_json : bytes -> Outcome _PeerInfo.

(** Nothing the loop can run clears the flag. *)
Lemma did_wait_closed_kept (env : Env) (op : Op) :
  stable (fun ep => _did_wait_closed ep = true)
         (run_op dataclass_to_json dataclass_from_json env op).
Proof.
  destruct op; cbn [run_op];
    unfold send_message_start, send_message_enqueue; stable_basic.
Qed.

(** Nothing but [wait_closed] sets it. *)
Lemma did_wait_closed_set_by (env : Env) (op : Op) :
  op <> OpWaitClosed ->
  stable (fun ep => _did_wait_closed ep = false)
         (run_op dataclass_to_json dataclass_from_json env op).
Proof.
  intros Hop. destruct op; try contradiction; cbn [run_op];
    unfold send_message_start, send_message_enqueue; stable_basic.
Qed.

(** [wait_closed] on entry, by the flags it finds. *)
Lemma wait_closed_start_cases (env : Env) (ep : RPCEndpoint) :
  env_ok env ep ->
  wait_closed_start env ep =
    if _did_wait_closed ep then (Returns None, ep)
    else if _closing ep
    then (Returns (Some (List.filter (live_ref (loop_tasks ep)) (_tasks ep))),
          set_did_wait_closed true ep)
    else (Raises (RuntimeError "Must be called after close()"),
          set_did_wait_closed true ep).
Proof.
  intros Henv. unfold wait_closed_start, _get_live_tasks. run_monad.
  rewrite check_env_ok by exact Henv.
  destruct (_did_wait_closed ep); [reflexivity|].
  cbn [_closing set_did_wait_closed].
  destruct (_closing ep); reflexivity.
Qed.

(** C4, amended. The did-wait-closed flag only goes from false to
    true, and what sets it is the first entry into [wait_closed],
    whether or not the closing flag is set: called before [close()],
    [wait_closed] raises its error with the latch already set, and
    every later [wait_closed] returns at once without waiting. *)
Theorem wait_closed_latch (env : Env) (ep : RPCEndpoint) :
  (forall op, _did_wait_closed ep = true ->
     _did_wait_closed (step dataclass_to_json dataclass_from_json ep (env, op)) = true) /\
  (forall op, _did_wait_closed ep = false ->
     _did_wait_closed (step dataclass_to_json dataclass_from_json ep (env, op)) = true ->
     op = OpWaitClosed) /\
  (env_ok env ep -> _did_wait_closed ep = false ->
     _did_wait_closed (snd (wait_closed_start env ep)) = true) /\
  (env_ok env ep -> _did_wait_closed ep = false -> _closing ep = false ->
     wait_closed_start env ep =
       (Raises (RuntimeError "Must be called after close()"),
        set_did_wait_closed true ep)) /\
  (env_ok env ep -> _did_wait_closed ep = true ->
     wait_closed_start env ep = (Returns None, ep)).
Proof.
  split; [|split; [|split; [|split]]].
  - intros op Hset. apply (did_wait_closed_kept env op ep Hset).
  - intros op Hclear Hset.
    destruct op; try reflexivity;
      match type of Hset with
      | _did_wait_closed (step _ _ _ (_, ?o)) = true =>
          assert (Hne : o <> OpWaitClosed) by discriminate;
          pose proof (did_wait_closed_set_by env o Hne ep Hclear) as Hkept;
          unfold step in Hset; cbn [fst snd] in Hset; cbv beta in Hkept;
          rewrite Hkept in Hset; discriminate Hset
      end.
  - intros Henv Hclear. rewrite wait_closed_start_cases by exact Henv.
    rewrite Hclear. destruct (_closing ep); reflexivity.
  - intros Henv Hclear Hopen. rewrite wait_closed_start_cases by exact Henv.
    rewrite Hclear, Hopen. reflexivity.
  - intros Henv Hset. rewrite wait_closed_start_cases by exact Henv.
    rewrite Hset. reflexivity.
Qed.

End Latch.

(** C4 as stated fails: [wait_closed] on an endpoint that is not
    closing sets the flag all the same, and after it a [wait_closed]
    that follows [close()] returns without waiting for the three core
    tasks it would otherwise have waited for. *)
Lemma wait_closed_before_close_counterexample :
  ~ (forall (env : Env) (ep : RPCEndpoint),
       env_ok env ep ->
       _did_wait_closed ep = false ->
       _did_wait_closed (snd (wait_closed_start env ep)) = true ->
       _closing ep = true) /\
  (let early := wait_closed_start Scenario.env Scenario.running in
   let later :=
     wait_closed_start Scenario.env (snd (close Scenario.env (snd early))) in
   fst early = Raises (RuntimeError "Must be called after close()") /\
   fst later = Returns None /\
   fst (wait_closed_start Scenario.env Scenario.closed) =
     Returns (Some [0; 1; 2]%nat)).
Proof.
  split.
  - intros H.
    specialize (H Scenario.env Scenario.running).
    assert (Hclosing : _closing Scenario.running = true).
    { apply H; [split; reflexivity | reflexivity | reflexivity]. }
    discriminate Hclosing.
  - cbv zeta. repeat split; vm_compute; reflexivity.
Qed.

Lemma wait_closed_latch_witness :
  let early := snd (wait_closed_start Scenario.env Scenario.running) in
  let later := snd (close Scenario.env early) in
  wait_closed_start Scenario.env Scenario.running =
    (Raises (RuntimeError "Must be called after close()"),
     set_did_wait_closed true Scenario.running) /\
  _did_wait_closed later = true /\
  wait_closed_start Scenario.env later = (Returns None, later).
Proof.
  cbv zeta. split; [|split].
  - destruct (wait_closed_latch Scenario.to_json Scenario.from_json
                Scenario.env Scenario.running) as (_ & _ & _ & Hraise & _).
    apply Hraise; [split; reflexivity | reflexivity | reflexivity].
  - destruct (wait_closed_latch Scenario.to_json Scenario.from_json
                Scenario.env
                (snd (wait_closed_start Scenario.env Scenario.running)))
      as (Hkept & _).
    apply (Hkept OpClose). reflexivity.
  - destruct (wait_closed_latch Scenario.to_json Scenario.from_json
                Scenario.env
                (snd (close Scenario.env
                        (snd (wait_closed_start Scenario.env Scenario.running)))))
      as (_ & _ & _ & _ & Hlatched).
    apply Hlatched; [split; reflexivity | reflexivity].
Defined.

(** ** C7: the sequence of message ids *)

Lemma ids_from_S (start : Z) (n : nat) :
  ids_from start (S n) = start mod 65536 :: ids_from ((start + 1) mod 65536) n.
Proof.
  unfold ids_from. cbn [seq map]. rewrite Z.add_0_r. f_equal.
  rewrite <- seq_shift, map_map. apply map_ext. intros k.
  rewrite Zplus_mod_idemp_l. f_equal. lia.
Qed.

Lemma send_message_register_next (message_id v : Z) :
  stable (fun ep => _next_message_id ep = v) (send_message_register message_id).
Proof. stable_basic. Qed.

Lemma send_message_start_next (env : Env) (message : bytes)
    (timeout : option float) (ep : RPCEndpoint) :
  _next_message_id (snd (send_message_start env message timeout ep)) =
  _next_message_id (snd (send_message_enqueue env message ep)).
Proof.
  unfold send_message_start. run_monad.
  destruct (send_message_enqueue env message ep) as [[mid|e] ep1];
    [|reflexivity].
  pose proof (send_message_register_next mid (_next_message_id ep1) ep1 eq_refl)
    as Hreg.
  cbv beta in Hreg.
  destruct (send_message_register mid ep1) as [[t|e] ep2]; exact Hreg.
Qed.

Section Ids.

Variable dataclass_to_json : _PeerInfo -> bytes.
Variable dataclass_from_json : bytes -> Outcome _PeerInfo.

(** Only [send_message] touches the counter. *)
Lemma next_message_id_kept (env : Env) (op : Op) (v : Z) :
  (forall message timeout, op <> OpSendMessage message timeout) ->
  stable (fun ep => _next_message_id ep = v)
         (run_op dataclass_to_json dataclass_from_json env op).
Proof.
  intros Hop.
  destruct op; try (exfalso; eapply Hop; reflexivity); cbn [run_op];
    stable_basic.
Qed.

(** One step: the id it allocates is the counter, which then moves on
    by one modulo 2^16; a step that allocates nothing leaves it. *)
Lemma step_next_message_id (ep : RPCEndpoint) (eo : Env * Op) :
  0 <= _next_message_id ep < 65536 ->
  match allocated_id ep eo with
  | Some message_id =>
      message_id = _next_message_id ep /\
      _next_message_id (step dataclass_to_json dataclass_from_json ep eo) =
        (_next_message_id ep + 1) mod 65536
  | None =>
      _next_message_id (step dataclass_to_json dataclass_from_json ep eo) =
        _next_message_id ep
  end.
Proof.
  intros Hid. destruct eo as [env op]. unfold allocated_id, step.
  cbn [fst snd].
  destruct op;
    try (apply (next_message_id_kept env _ (_next_message_id ep));
         [discriminate | reflexivity]).
  cbn [run_op]. unfold discard.
  assert (Hnext :
    _next_message_id
      (snd ((send_message_start env message timeout ≫= (fun _ => mret tt)) ep)) =
    _next_message_id (snd (send_message_enqueue env message ep))).
  { rewrite <- (send_message_start_next env message timeout ep).
    unfold mbind, M_bind.
    destruct (send_message_start env message timeout ep) as [[f|e] ep1];
      reflexivity. }
  rewrite Hnext.
  destruct (send_message_enqueue_cases env message ep)
    as [(_ & _ & _ & _ & Heq)|[[e Heq]|[Hbad _]]].
  - rewrite Heq. cbn [fst snd]. split; reflexivity.
  - rewrite Heq. reflexivity.
  - contradiction.
Qed.

Lemma step_next_message_id_range (ep : RPCEndpoint) (eo : Env * Op) :
  0 <= _next_message_id ep < 65536 ->
  0 <= _next_message_id (step dataclass_to_json dataclass_from_json ep eo) < 65536.
Proof.
  intros Hid. pose proof (step_next_message_id ep eo Hid) as H.
  destruct (allocated_id ep eo).
  - destruct H as [_ ->]. apply Z.mod_pos_bound. lia.
  - rewrite H. exact Hid.
Qed.

(** Along any trace the allocated ids count up from the counter. *)
Lemma message_ids_from (trace : list (Env * Op)) :
  forall ep, 0 <= _next_message_id ep < 65536 ->
  message_ids dataclass_to_json dataclass_from_json trace ep =
    ids_from (_next_message_id ep)
      (length (message_ids dataclass_to_json dataclass_from_json trace ep)).
Proof.
  induction trace as [|eo rest IH]; intros ep Hid.
  - reflexivity.
  - cbn [message_ids].
    pose proof (step_next_message_id ep eo Hid) as Hstep.
    pose proof (step_next_message_id_range ep eo Hid) as Hrange.
    specialize (IH _ Hrange).
    destruct (allocated_id ep eo) as [message_id|].
    + destruct Hstep as [-> Hnext].
      cbn [length]. rewrite ids_from_S, <- Hnext, <- IH.
      rewrite Z.mod_small by exact Hid. reflexivity.
    + rewrite Hstep in IH. exact IH.
Qed.

End Ids.

Lemma ids_from_nth (n : nat) :
  forall (start : Z) (k : nat) (i : Z),
    nth_error (ids_from start n) k = Some i ->
    i = (start + Z.of_nat k) mod 65536.
Proof.
  induction n as [|n IH]; intros start k i H.
  - destruct k; discriminate H.
  - rewrite ids_from_S in H. destruct k as [|k]; cbn [nth_error] in H.
    + inversion H. rewrite Z.add_0_r. reflexivity.
    + apply IH in H. rewrite H, Zplus_mod_idemp_l. f_equal. lia.
Qed.

(** C7. From a new endpoint, whatever else the loop runs in between,
    the ids allocated by the accepted [send_message] calls are
    [(65530 + k) mod 65536] for [k = 0, 1, ...], in order; the seventh
    id is 0, so the ids wrap through 0 after six sends. *)
Theorem message_ids_sequence
    (dataclass_to_json : _PeerInfo -> bytes)
    (dataclass_from_json : bytes -> Outcome _PeerInfo)
    (env : Env) (handle_raw_message_call : Handler)
    (reader : StreamReader) (writer : StreamWriter) (debug_print : bool)
    (label : string) (keepalive_interval keepalive_timeout : float)
    (trace : list (Env * Op)) :
  let ep := init env handle_raw_message_call reader writer debug_print label
              keepalive_interval keepalive_timeout in
  let ids := message_ids dataclass_to_json dataclass_from_json trace ep in
  ids = map (fun k => (65530 + Z.of_nat k) mod 65536) (seq 0 (length ids)) /\
  (forall (k : nat) (i : Z),
     nth_error ids k = Some i -> i = (65530 + Z.of_nat k) mod 65536) /\
  (forall i : Z, nth_error ids 6 = Some i -> i = 0).
Proof.
  intros ep ids.
  assert (Hseq : ids = ids_from 65530 (length ids)).
  { apply (message_ids_from dataclass_to_json dataclass_from_json trace ep).
    cbn. lia. }
  split; [exact Hseq|]. split.
  - intros k i H. rewrite Hseq in H. apply ids_from_nth in H. exact H.
  - intros i H. rewrite Hseq in H. apply ids_from_nth in H. exact H.
Qed.

(** Ten sends on a new endpoint, each accepted. *)
Lemma message_ids_sequence_witness :
  message_ids Scenario.to_json Scenario.from_json
    (repeat (Scenario.env, OpSendMessage Scenario.abc None) 10) Scenario.fresh =
    [65530; 65531; 65532; 65533; 65534; 65535; 0; 1; 2; 3] /\
  nth_error
    (message_ids Scenario.to_json Scenario.from_json
       (repeat (Scenario.env, OpSendMessage Scenario.abc None) 10) Scenario.fresh)
    6 = Some 0.
Proof.
  pose proof (message_ids_sequence Scenario.to_json Scenario.from_json
                Scenario.env Scenario.echo (mkReader []) (mkWriter [] false)
                false "A" DEFAULT_KEEPALIVE_INTERVAL DEFAULT_KEEPALIVE_TIMEOUT
                (repeat (Scenario.env, OpSendMessage Scenario.abc None) 10))
    as [Hseq _].
  split.
  - vm_compute in Hseq. vm_compute. exact Hseq.
  - vm_compute. reflexivity.
Defined.

(** [send_message] does not touch what its guards read. *)
Lemma step_send_message_guards
    (dataclass_to_json : _PeerInfo -> bytes)
    (dataclass_from_json : bytes -> Outcome _PeerInfo)
    (env : Env) (message : bytes) (timeout : option float) (ep : RPCEndpoint) :
  _thread (step dataclass_to_json dataclass_from_json ep
             (env, OpSendMessage message timeout)) = _thread ep /\
  _event_loop (step dataclass_to_json dataclass_from_json ep
                 (env, OpSendMessage message timeout)) = _event_loop ep /\
  _closing (step dataclass_to_json dataclass_from_json ep
              (env, OpSendMessage message timeout)) = _closing ep.
Proof.
  unfold step. cbn [fst snd run_op].
  apply (ltac:(unfold send_message_start, send_message_enqueue; stable_basic) :
    stable (fun ep' => _thread ep' = _thread ep /\
                       _event_loop ep' = _event_loop ep /\
                       _closing ep' = _closing ep)
           (discard (send_message_start env message timeout))).
  auto.
Qed.

(** X20. Every one of [n] sends within the size limit on an open
    endpoint is accepted: the trace of the sends allocates [n] ids. *)
Lemma message_ids_of_sends
    (dataclass_to_json : _PeerInfo -> bytes)
    (dataclass_from_json : bytes -> Outcome _PeerInfo)
    (env : Env) (messages : list bytes) :
  forall ep : RPCEndpoint,
    env_ok env ep -> _closing ep = false ->
    0 <= _next_message_id ep < 65536 ->
    Forall (fun message => Z.of_nat (length message) <= 65535) messages ->
    length (message_ids dataclass_to_json dataclass_from_json
              (map (fun message => (env, OpSendMessage message None)) messages) ep)
    = length messages.
Proof.
  induction messages as [|message rest IH]; intros ep Henv Hcl Hid Hlen.
  - reflexivity.
  - inversion Hlen as [|? ? Hm Hrest]; subst.
    cbn [map message_ids]. unfold allocated_id. cbn [fst snd].
    rewrite send_message_enqueue_accepted by assumption.
    cbn [fst length]. f_equal.
    pose proof (step_send_message_guards dataclass_to_json dataclass_from_json
                  env message None ep) as (Ht & Hl & Hc).
    destruct Henv as [Ht' Hl'].
    apply IH.
    + split; congruence.
    + congruence.
    + apply step_next_message_id_range. exact Hid.
    + exact Hrest.
Qed.

Lemma message_ids_of_sends_witness :
  length (message_ids Scenario.to_json Scenario.from_json
            (map (fun message => (Scenario.env, OpSendMessage message None))
                 [Scenario.abc; Scenario.ABC]) Scenario.fresh) = 2%nat.
Proof.
  apply (message_ids_of_sends Scenario.to_json Scenario.from_json Scenario.env
           [Scenario.abc; Scenario.ABC] Scenario.fresh).
  - split; reflexivity.
  - reflexivity.
  - cbn. lia.
  - repeat constructor; cbn; lia.
Defined.

(** * Further properties *)

(** ** Integers on the wire *)

Lemma from_bytes_range (b : bytes) :
  0 <= from_bytes b < 256 ^ Z.of_nat (length b).
Proof.
  induction b as [|x b IH] using rev_ind.
  - cbn. lia.
  - rewrite from_bytes_app, length_app. cbn [length].
    replace (Z.of_nat (length b + 1)) with (Z.succ (Z.of_nat (length b))) by lia.
    rewrite Z.pow_succ_r by lia.
    pose proof (Z_of_byte_range x). nia.
Qed.

Lemma be_digits_from_bytes (b : bytes) :
  be_digits (length b) (from_bytes b) = b.
Proof.
  induction b as [|x b IH] using rev_ind.
  - reflexivity.
  - rewrite length_app, Nat.add_comm. cbn [length Nat.add be_digits].
    rewrite from_bytes_app.
    pose proof (Z_of_byte_range x).
    rewrite Z.div_add_l, Z.div_small, Z.add_0_r by lia.
    rewrite Z.add_comm, Z.mod_add, Z.mod_small by lia.
    rewrite IH, byte_of_Z_of_byte. reflexivity.
Qed.

(** X1. [int.to_bytes(length, 'big')] and [int.from_bytes(_, 'big')]
    are inverse to each other at every width: an integer that encodes
    decodes to itself from exactly [length] bytes, every byte string
    is the encoding of what it decodes to, and the encoding fails
    (with [OverflowError]) exactly for a negative integer or one of
    [256 ^ length] or more. *)
Theorem to_bytes_from_bytes :
  (forall (n : Z) (width : nat) (b : bytes),
     to_bytes n width = Returns b -> from_bytes b = n /\ length b = width) /\
  (forall b : bytes, to_bytes (from_bytes b) (length b) = Returns b) /\
  (forall (n : Z) (width : nat),
     to_bytes n width = Raises OverflowError <->
     n < 0 \/ 256 ^ Z.of_nat width <= n).
Proof.
  split; [|split].
  - intros n width b H. apply to_bytes_Returns in H. destruct H as [Hn ->].
    split.
    + rewrite from_bytes_be_digits by lia. apply Z.mod_small. exact Hn.
    + apply length_be_digits.
  - intros b. unfold to_bytes. pose proof (from_bytes_range b) as Hr.
    destruct (Z.leb_spec 0 (from_bytes b)); [|lia].
    destruct (Z.ltb_spec (from_bytes b) (256 ^ Z.of_nat (length b))); [|lia].
    cbn [andb]. rewrite be_digits_from_bytes. reflexivity.
  - intros n width. unfold to_bytes.
    destruct (Z.leb_spec 0 n), (Z.ltb_spec n (256 ^ Z.of_nat width));
      cbn [andb]; split; intros Hx; try discriminate Hx; try reflexivity; lia.
Qed.

Lemma to_bytes_from_bytes_witness :
  to_bytes 65530 2 = Returns [xff; xfa] /\
  from_bytes [xff; xfa] = 65530 /\
  to_bytes 65536 2 = Raises OverflowError.
Proof.
  destruct to_bytes_from_bytes as (Hdec & Henc & Hover).
  split; [exact (Henc [xff; xfa])|].
  split.
  - apply (Hdec 65530 2%nat [xff; xfa]). reflexivity.
  - apply Hover. right. cbn. lia.
Defined.

(** ** The outgoing queue and its event *)

Ltac stable_using tac := repeat first [tac | stable_step].

Lemma _enqueue_outgoing_packet_signalled (env : Env) (data : bytes) :
  stable queue_signalled (_enqueue_outgoing_packet env data).
Proof.
  intros ep H. unfold _enqueue_outgoing_packet. run_monad.
  destruct (check_env_cases env ep) as [[_ Hc]|[_ [e Hc]]]; rewrite Hc.
  - unfold queue_signalled.
    cbn [snd _have_out_packets _out_packets set_have_out_packets set_out_packets].
    split; [|reflexivity]. intros _. destruct (_out_packets ep); discriminate.
  - exact H.
Qed.

Lemma _write_packet_signalled : stable queue_signalled _write_packet.
Proof.
  intros ep H. unfold _write_packet, writer_write. run_monad.
  destruct (_have_out_packets ep) eqn:Hhave; [|exact H].
  destruct (_out_packets ep) as [|data rest] eqn:Hq; [exact H|].
  case_bool_decide as Hrest; unfold queue_signalled;
    cbn [snd _have_out_packets _out_packets set_have_out_packets
         set_out_packets set_writer].
  - subst rest. split; [discriminate | intros Hne; contradiction].
  - rewrite Hhave. split; [intros _; exact Hrest | reflexivity].
Qed.

Section Queue.

Variable dataclass_to_json : _PeerInfo -> bytes.
Variable dataclass_from_json : bytes -> Outcome _PeerInfo.

Lemma run_op_signalled (env : Env) (op : Op) :
  stable queue_signalled (run_op dataclass_to_json dataclass_from_json env op).
Proof.
  destruct op; cbn [run_op];
    unfold send_message_start, send_message_enqueue;
    stable_using ltac:(first [apply _enqueue_outgoing_packet_signalled
                             | apply _write_packet_signalled]).
Qed.

Lemma exec_signalled (trace : list (Env * Op)) :
  forall ep, queue_signalled ep ->
  queue_signalled (exec dataclass_to_json dataclass_from_json trace ep).
Proof.
  induction trace as [|[env op] rest IH]; intros ep H; [exact H|].
  cbn [exec fold_left]. apply IH. apply (run_op_signalled env op ep H).
Qed.

End Queue.

Lemma _write_packet_head (ep : RPCEndpoint) (data : bytes) (rest : list bytes) :
  queue_signalled ep ->
  _out_packets ep = data :: rest ->
  let ep' := snd (_write_packet ep) in
  fst (_write_packet ep) = Returns tt /\
  written (_writer ep') = written (_writer ep) ++ data /\
  writer_closing (_writer ep') = writer_closing (_writer ep) /\
  _out_packets ep' = rest /\
  queue_signalled ep'.
Proof.
  intros Hsig Hq ep'.
  pose proof (_write_packet_signalled ep Hsig) as Hsig'.
  assert (Hhave : _have_out_packets ep = true).
  { apply Hsig. rewrite Hq. discriminate. }
  assert (Heq : _write_packet ep =
    (Returns tt,
     set_writer (mkWriter (written (_writer ep) ++ data)
                          (writer_closing (_writer ep)))
       (if bool_decide (rest = [])
        then set_have_out_packets false (set_out_packets rest ep)
        else set_out_packets rest ep))).
  { unfold _write_packet, writer_write. run_monad. rewrite Hhave, Hq.
    case_bool_decide; reflexivity. }
  unfold ep'. rewrite Heq in *. cbn [fst snd] in *.
  split; [reflexivity|]. split; [reflexivity|]. split; [reflexivity|].
  split; [|exact Hsig'].
  case_bool_decide; reflexivity.
Qed.

(** X2. From a new endpoint, whatever the loop runs, the non-empty
    event of the outgoing queue is set exactly when the queue holds a
    packet; so a turn of the write task never finds the queue empty
    behind a set event, and its assertion (line 422) does not fail. *)
Theorem out_packets_event_invariant
    (dataclass_to_json : _PeerInfo -> bytes)
    (dataclass_from_json : bytes -> Outcome _PeerInfo)
    (env : Env) (handle_raw_message_call : Handler)
    (reader : StreamReader) (writer : StreamWriter) (debug_print : bool)
    (label : string) (keepalive_interval keepalive_timeout : float)
    (trace : list (Env * Op)) :
  let ep := exec dataclass_to_json dataclass_from_json trace
              (init env handle_raw_message_call reader writer debug_print
                 label keepalive_interval keepalive_timeout) in
  (_have_out_packets ep = true <-> _out_packets ep <> []) /\
  fst (_write_packet ep) = Returns tt.
Proof.
  intros ep.
  assert (Hsig : queue_signalled ep).
  { apply exec_signalled. split; [discriminate | intros H; contradiction]. }
  split; [exact Hsig|].
  destruct (_out_packets ep) as [|data rest] eqn:Hq.
  - unfold _write_packet. run_monad.
    destruct (_have_out_packets ep) eqn:Hhave; [|reflexivity].
    apply Hsig in Hhave. rewrite Hq in Hhave. contradiction.
  - apply (_write_packet_head ep data rest Hsig Hq).
Qed.

Lemma out_packets_event_invariant_witness :
  fst (_write_packet
         (exec Scenario.to_json Scenario.from_json
            [(Scenario.env, OpSendMessage Scenario.abc None)] Scenario.fresh)) =
    Returns tt.
Proof.
  exact (proj2 (out_packets_event_invariant Scenario.to_json Scenario.from_json
                  Scenario.env Scenario.echo (mkReader []) (mkWriter [] false)
                  false "A" DEFAULT_KEEPALIVE_INTERVAL DEFAULT_KEEPALIVE_TIMEOUT
                  [(Scenario.env, OpSendMessage Scenario.abc None)])).
Defined.

(** X3. The write task sends the queue in order: after [k] turns, for
    [k] up to the length of the queue, the writer has been given the
    first [k] packets back to back and the queue holds the others; the
    event is still in step with the queue. *)
Theorem write_turns_fifo (k : nat) :
  forall ep : RPCEndpoint,
    queue_signalled ep ->
    (k <= length (_out_packets ep))%nat ->
    let ep' := snd (write_turns k ep) in
    fst (write_turns k ep) = Returns tt /\
    written (_writer ep') =
      written (_writer ep) ++ concat (take k (_out_packets ep)) /\
    _out_packets ep' = drop k (_out_packets ep) /\
    queue_signalled ep'.
Proof.
  induction k as [|k IH]; intros ep Hsig Hk ep'.
  - unfold ep'. cbn. rewrite app_nil_r. auto.
  - destruct (_out_packets ep) as [|data rest] eqn:Hq; [cbn in Hk; lia|].
    destruct (_write_packet_head ep data rest Hsig Hq)
      as (Hret & Hw & _ & Hrest & Hsig1).
    unfold ep'. cbn [write_turns]. unfold mbind, M_bind.
    destruct (_write_packet ep) as [o ep1]. cbn [fst snd] in *. subst o.
    specialize (IH ep1 Hsig1). rewrite Hrest in IH.
    destruct IH as (Hret' & Hw' & Hq' & Hsig').
    { cbn in Hk. lia. }
    split; [exact Hret'|]. split.
    + rewrite Hw', Hw. cbn [take concat]. rewrite app_assoc. reflexivity.
    + split; [exact Hq' | exact Hsig'].
Qed.

Lemma write_turns_fifo_witness :
  queue_signalled Scenario.two_queued /\
  written (_writer (snd (write_turns 2 Scenario.two_queued))) =
    packet_layout x02 65530 Scenario.abc ++ packet_layout x02 65531 Scenario.ABC /\
  _out_packets (snd (write_turns 2 Scenario.two_queued)) = [].
Proof.
  assert (Hsig : queue_signalled Scenario.two_queued).
  { split; intros _; vm_compute; [discriminate | reflexivity]. }
  split; [exact Hsig|].
  destruct (write_turns_fifo 2 Scenario.two_queued Hsig) as (_ & Hw & Hq & _).
  - vm_compute. lia.
  - split; [exact Hw | exact Hq].
Defined.

(** ** Closing *)

Lemma close_consistent (env : Env) : stable closing_consistent (close env).
Proof.
  intros ep H. unfold close, _get_live_tasks. run_monad.
  destruct (check_env_cases env ep) as [[_ Hc]|[_ [e Hc]]]; rewrite Hc;
    [|exact H].
  unfold closing_consistent in *.
  destruct (_closing ep) eqn:Hcl.
  - cbn [snd]. rewrite Hcl. exact H.
  - cbn [_handle_raw_message_call set_writer set_loop_tasks set_closing].
    destruct (_handle_raw_message_call ep); [|contradiction].
    cbn. auto.
Qed.

Lemma cancel_task_idemp (task : Task) :
  cancel_task (cancel_task task) = cancel_task task.
Proof. destruct task as [c []]; reflexivity. Qed.

(** Cancelling a list of tasks one after the other. *)
Lemma cancel_all_lookup (l : list TaskId) :
  forall (store : list Task) (t : TaskId),
    fold_left (fun s t' => alter cancel_task t' s) l store !! t =
    if bool_decide (t ∈ l) then cancel_task <$> store !! t else store !! t.
Proof.
  induction l as [|a l IH]; intros store t; cbn [fold_left].
  - reflexivity.
  - rewrite IH. rewrite list_lookup_alter.
    destruct (decide (a = t)) as [->|Hne].
    + rewrite (bool_decide_eq_true_2 (t ∈ t :: l))
        by (apply elem_of_cons; left; reflexivity).
      case_bool_decide; [|reflexivity].
      destruct (store !! t) as [task|]; cbn; [|reflexivity].
      rewrite cancel_task_idemp. reflexivity.
    + case_bool_decide as Hin.
      * rewrite bool_decide_eq_true_2
          by (apply elem_of_cons; right; exact Hin).
        reflexivity.
      * rewrite bool_decide_eq_false_2
          by (apply not_elem_of_cons; split; [congruence | exact Hin]).
        reflexivity.
Qed.

Lemma close_on_open (env : Env) (ep : RPCEndpoint) (call : Handler) :
  env_ok env ep ->
  _closing ep = false ->
  _handle_raw_message_call ep = Some call ->
  close env ep =
    (Returns tt,
     set_handle_raw_message_call None
       (set_writer (mkWriter (written (_writer ep)) true)
          (set_loop_tasks
             (fold_left (fun s t => alter cancel_task t s)
                (List.filter (live_ref (loop_tasks ep)) (_tasks ep))
                (loop_tasks ep))
             (set_closing true ep)))).
Proof.
  intros Henv Hcl Hcall. unfold close, _get_live_tasks. run_monad.
  rewrite check_env_ok by exact Henv. rewrite Hcl.
  cbn [_handle_raw_message_call set_writer set_loop_tasks set_closing].
  rewrite Hcall. reflexivity.
Qed.

(** X5. [close] on an open endpoint sets the closing flag, closes the
    writer, drops the handler, and requests the cancellation of every
    pending task the endpoint tracks, touching no other task and
    neither the in-flight table, the queue nor the id counter; a second
    [close] returns at once and changes nothing. *)
Theorem close_effect (env : Env) (ep : RPCEndpoint) :
  env_ok env ep ->
  _closing ep = false ->
  _handle_raw_message_call ep <> None ->
  let ep' := snd (close env ep) in
  fst (close env ep) = Returns tt /\
  _closing ep' = true /\
  writer_closing (_writer ep') = true /\
  _handle_raw_message_call ep' = None /\
  (forall t : TaskId,
     loop_tasks ep' !! t =
       if bool_decide (t ∈ _tasks ep)
       then cancel_task <$> loop_tasks ep !! t
       else loop_tasks ep !! t) /\
  _in_flight_messages ep' = _in_flight_messages ep /\
  _out_packets ep' = _out_packets ep /\
  _next_message_id ep' = _next_message_id ep /\
  close env ep' = (Returns tt, ep').
Proof.
  intros Henv Hcl Hh ep'.
  destruct (_handle_raw_message_call ep) as [call|] eqn:Hcall; [|contradiction].
  pose proof (close_on_open env ep call Henv Hcl Hcall) as Heq.
  unfold ep'. rewrite Heq. cbn [fst snd].
  split; [reflexivity|]. split; [reflexivity|]. split; [reflexivity|].
  split; [reflexivity|]. split.
  - intros t.
    cbn [loop_tasks set_handle_raw_message_call set_writer set_loop_tasks].
    rewrite cancel_all_lookup.
    case_bool_decide as Hlive; case_bool_decide as Hin; try reflexivity.
    + apply list_elem_of_In, filter_In in Hlive. destruct Hlive as [Hlive _].
      apply list_elem_of_In in Hlive. contradiction.
    + assert (Hdead : live_ref (loop_tasks ep) t = false).
      { destruct (live_ref (loop_tasks ep) t) eqn:Hl; [|reflexivity].
        exfalso. apply Hlive. apply list_elem_of_In, filter_In.
        split; [apply list_elem_of_In; exact Hin | exact Hl]. }
      unfold live_ref in Hdead.
      destruct (loop_tasks ep !! t) as [[c st]|]; [|reflexivity].
      unfold done in Hdead. cbn in Hdead.
      destruct st; try discriminate Hdead; reflexivity.
  - split; [reflexivity|]. split; [reflexivity|]. split; [reflexivity|].
    unfold close. run_monad.
    rewrite check_env_ok by exact Henv. reflexivity.
Qed.

Lemma close_effect_witness :
  fst (close Scenario.env Scenario.running) = Returns tt /\
  _closing Scenario.closed = true /\
  state <$> loop_tasks Scenario.closed !! 1%nat = Some (Pending true).
Proof.
  destruct (close_effect Scenario.env Scenario.running)
    as (Hret & Hcl & _ & _ & Htasks & _).
  - split; reflexivity.
  - reflexivity.
  - discriminate.
  - split; [exact Hret|]. split; [exact Hcl|].
    unfold Scenario.closed. rewrite (Htasks 1%nat). reflexivity.
Defined.

Lemma send_message_enqueue_when_closing (env : Env) (message : bytes)
    (ep : RPCEndpoint) :
  _closing ep = true ->
  exists e, send_message_enqueue env message ep = (Raises e, ep).
Proof.
  intros Hcl.
  destruct (check_env_cases env ep) as [[Henv _]|[_ [e Hc]]].
  - destruct (Z_le_gt_dec (Z.of_nat (length message)) 65535).
    + eexists. apply send_message_enqueue_closing; assumption.
    + eexists. apply send_message_enqueue_oversize; assumption.
  - exists e. unfold send_message_enqueue. run_monad. rewrite Hc. reflexivity.
Qed.

Section Closing.

Variable dataclass_to_json : _PeerInfo -> bytes.
Variable dataclass_from_json : bytes -> Outcome _PeerInfo.

Lemma run_op_closing (env : Env) (op : Op) :
  stable (fun ep => _closing ep = true)
         (run_op dataclass_to_json dataclass_from_json env op).
Proof.
  destruct op; cbn [run_op];
    unfold send_message_start, send_message_enqueue; stable_basic.
Qed.

Lemma run_op_consistent (env : Env) (op : Op) :
  stable closing_consistent
         (run_op dataclass_to_json dataclass_from_json env op).
Proof.
  destruct op; cbn [run_op];
    unfold send_message_start, send_message_enqueue;
    stable_using ltac:(apply close_consistent).
Qed.

Lemma exec_consistent (trace : list (Env * Op)) :
  forall ep, closing_consistent ep ->
  closing_consistent (exec dataclass_to_json dataclass_from_json trace ep).
Proof.
  induction trace as [|[env op] rest IH]; intros ep H; [exact H|].
  cbn [exec fold_left]. apply IH. apply (run_op_consistent env op ep H).
Qed.

(** X4. Closing is final: once the closing flag is set, whatever the
    loop runs afterwards leaves it set, no [send_message] is accepted
    any more (no message id is allocated) and the id counter stays
    where it was. *)
Theorem closing_is_final (trace : list (Env * Op)) :
  forall ep : RPCEndpoint,
    _closing ep = true ->
    _closing (exec dataclass_to_json dataclass_from_json trace ep) = true /\
    message_ids dataclass_to_json dataclass_from_json trace ep = [] /\
    _next_message_id (exec dataclass_to_json dataclass_from_json trace ep) =
      _next_message_id ep.
Proof.
  induction trace as [|[env op] rest IH]; intros ep Hcl.
  - cbn. auto.
  - assert (Hcl' : _closing (step dataclass_to_json dataclass_from_json ep
                                 (env, op)) = true)
      by apply (run_op_closing env op ep Hcl).
    destruct (IH _ Hcl') as (Hfinal & Hids & Hnext).
    cbn [exec fold_left message_ids].
    assert (Hnone : allocated_id ep (env, op) = None).
    { unfold allocated_id. cbn [fst snd]. destruct op; try reflexivity.
      destruct (send_message_enqueue_when_closing env message ep Hcl) as [e ->].
      reflexivity. }
    rewrite Hnone. split; [exact Hfinal|]. split; [exact Hids|].
    unfold exec in Hnext. rewrite Hnext.
    unfold step. cbn [fst snd].
    destruct op;
      try (apply (next_message_id_kept dataclass_to_json dataclass_from_json
                    env _ (_next_message_id ep)); [discriminate | reflexivity]).
    cbn [run_op]. unfold discard.
    transitivity (_next_message_id (snd (send_message_start env message timeout ep))).
    { unfold mbind, M_bind.
      destruct (send_message_start env message timeout ep) as [[f|e] ep1];
        reflexivity. }
    rewrite send_message_start_next.
    destruct (send_message_enqueue_when_closing env message ep Hcl) as [e ->].
    reflexivity.
Qed.

(** X6. From a new endpoint, whatever the loop runs: the endpoint is
    closing exactly when it has dropped its handler, and a closing
    endpoint has closed its writer.  So [close] never raises on the
    endpoint's own thread (its [del] finds the handler), and the
    assertion of [wait_closed] on the writer (line 315) holds whenever
    the endpoint is closing. *)
Theorem closing_invariant
    (env0 : Env) (handle_raw_message_call : Handler)
    (reader : StreamReader) (writer : StreamWriter) (debug_print : bool)
    (label : string) (keepalive_interval keepalive_timeout : float)
    (trace : list (Env * Op)) (env : Env) :
  let ep := exec dataclass_to_json dataclass_from_json trace
              (init env0 handle_raw_message_call reader writer debug_print
                 label keepalive_interval keepalive_timeout) in
  (_closing ep = true <-> _handle_raw_message_call ep = None) /\
  (_closing ep = true -> writer_closing (_writer ep) = true) /\
  (env_ok env ep -> fst (close env ep) = Returns tt) /\
  (_closing ep = true -> fst (wait_closed_finish ep) = Returns tt).
Proof.
  intros ep.
  assert (H : closing_consistent ep).
  { apply exec_consistent. unfold closing_consistent. cbn. discriminate. }
  unfold closing_consistent in H.
  destruct (_closing ep) eqn:Hcl.
  - destruct H as [Hh Hw]. split; [split; auto|]. split; [auto|]. split.
    + intros Henv. unfold close. run_monad.
      rewrite check_env_ok by exact Henv. rewrite Hcl. reflexivity.
    + intros _. unfold wait_closed_finish. run_monad. rewrite Hw. reflexivity.
  - split; [split; [discriminate | intros Hh; contradiction]|].
    split; [discriminate|]. split; [|discriminate].
    intros Henv.
    destruct (_handle_raw_message_call ep) as [call|] eqn:Hcall;
      [|contradiction].
    rewrite (close_on_open env ep call Henv Hcl Hcall). reflexivity.
Qed.

Lemma run_op_run_called (env : Env) (op : Op) :
  stable (fun ep => _run_called ep = true)
         (run_op dataclass_to_json dataclass_from_json env op).
Proof.
  destruct op; cbn [run_op];
    unfold send_message_start, send_message_enqueue; stable_basic.
Qed.

Lemma exec_run_called (trace : list (Env * Op)) :
  forall ep, _run_called ep = true ->
  _run_called (exec dataclass_to_json dataclass_from_json trace ep) = true.
Proof.
  induction trace as [|[env op] rest IH]; intros ep H; [exact H|].
  cbn [exec fold_left]. apply IH. apply (run_op_run_called env op ep H).
Qed.

(** X7. [run] is one-shot: its first call sets the run-called flag,
    and from then on, whatever the loop has run in between, a call of
    [run] on the endpoint's thread raises [RuntimeError] and changes
    nothing. *)
Theorem run_only_once (env : Env) (ep : RPCEndpoint)
    (trace : list (Env * Op)) (env' : Env) :
  env_ok env ep ->
  let started := snd (run_start env ep) in
  let later := exec dataclass_to_json dataclass_from_json trace started in
  env_ok env' later ->
  _run_called started = true /\
  run_start env' later =
    (Raises (RuntimeError "Run can be called only once per endpoint."), later).
Proof.
  intros Henv started later Henv'.
  assert (Hstarted : _run_called started = true).
  { unfold started, run_start, create_task. run_monad.
    rewrite check_env_ok by exact Henv.
    destruct (_run_called ep) eqn:Hr; [exact Hr | reflexivity]. }
  split; [exact Hstarted|].
  assert (Hlater : _run_called later = true)
    by apply (exec_run_called trace started Hstarted).
  unfold run_start. run_monad.
  rewrite check_env_ok by exact Henv'. rewrite Hlater. reflexivity.
Qed.

End Closing.

Lemma run_only_once_witness :
  _run_called (snd (run_start Scenario.env Scenario.fresh)) = true /\
  run_start Scenario.env
      (exec Scenario.to_json Scenario.from_json [(Scenario.env, OpClose)]
         (snd (run_start Scenario.env Scenario.fresh))) =
    (Raises (RuntimeError "Run can be called only once per endpoint."),
     exec Scenario.to_json Scenario.from_json [(Scenario.env, OpClose)]
       (snd (run_start Scenario.env Scenario.fresh))).
Proof.
  apply (run_only_once Scenario.to_json Scenario.from_json Scenario.env
           Scenario.fresh [(Scenario.env, OpClose)] Scenario.env).
  - split; reflexivity.
  - split; vm_compute; reflexivity.
Defined.

Lemma closing_invariant_witness :
  fst (wait_closed_finish
         (exec Scenario.to_json Scenario.from_json
            [(Scenario.env, OpClose)] Scenario.fresh)) = Returns tt.
Proof.
  destruct (closing_invariant Scenario.to_json Scenario.from_json
              Scenario.env Scenario.echo (mkReader []) (mkWriter [] false)
              false "A" DEFAULT_KEEPALIVE_INTERVAL DEFAULT_KEEPALIVE_TIMEOUT
              [(Scenario.env, OpClose)] Scenario.env) as (_ & _ & _ & Hfinish).
  apply Hfinish. vm_compute. reflexivity.
Defined.

Lemma closing_is_final_witness :
  _closing (exec Scenario.to_json Scenario.from_json
              [(Scenario.env, OpSendMessage Scenario.abc None)] Scenario.closed)
    = true /\
  message_ids Scenario.to_json Scenario.from_json
    [(Scenario.env, OpSendMessage Scenario.abc None)] Scenario.closed = [].
Proof.
  destruct (closing_is_final Scenario.to_json Scenario.from_json
              [(Scenario.env, OpSendMessage Scenario.abc None)]
              Scenario.closed eq_refl) as (Hcl & Hids & _).
  split; [exact Hcl | exact Hids].
Defined.

(** ** The read side *)

Lemma bind_Raises {A B : Type} (m : M A) (k : A -> M B)
    (ep ep' : RPCEndpoint) (e : Exn) :
  m ep = (Raises e, ep') -> (m ≫= k) ep = (Raises e, ep').
Proof. intros H. unfold mbind, M_bind. rewrite H. reflexivity. Qed.

(** Reading more bytes than the stream holds. *)
Lemma readexactly_truncated (n : Z) (ep : RPCEndpoint) :
  Z.of_nat (length (unread (_reader ep))) < n ->
  readexactly n ep = (Raises IncompleteReadError, set_reader (mkReader []) ep).
Proof.
  intros Hshort. unfold readexactly. run_monad.
  destruct (Z.ltb_spec n 0); [lia|].
  destruct (Z.ltb_spec (Z.of_nat (length (unread (_reader ep)))) n); [|lia].
  reflexivity.
Qed.

Lemma _read_packet_tag (env : Env) (ep : RPCEndpoint) (b : byte) (rest : bytes)
    (k : Z -> M unit) :
  _closing ep = false ->
  unread (_reader ep) = b :: rest ->
  (closing ← read _closing; assert_ (negb closing);; v ← _read_int_8; k v) ep =
  k (Z_of_byte b) (set_reader (mkReader rest) ep).
Proof.
  intros Hcl Hbuf. unfold _read_int_8.
  erewrite bind_Returns by reflexivity.
  rewrite Hcl. cbn [negb].
  erewrite bind_Returns by reflexivity.
  erewrite bind_Returns.
  2:{ erewrite bind_Returns
        by (apply (readexactly_prefix 1 [b]); [reflexivity | exact Hbuf]).
      reflexivity. }
  unfold from_bytes. cbn [fold_left]. rewrite Z.mul_0_l, Z.add_0_l.
  reflexivity.
Qed.

(** X8. What the read loop does with a stream it cannot use.  On a
    closing endpoint the turn fails its assertion and reads nothing.
    Otherwise: at the end of the stream it raises the incomplete-read
    error; the tag 0 of a handshake raises [RuntimeError] and a tag
    over 3 raises [ValueError], with the tag byte read; a MESSAGE or
    RESPONSE cut short before the end of its payload raises the
    incomplete-read error, with the stream emptied.  In no case is
    anything but the reader touched. *)
Theorem read_packet_errors (env : Env) (ep : RPCEndpoint) :
  (_closing ep = true -> _read_packet env ep = (Raises AssertionError, ep)) /\
  (_closing ep = false -> unread (_reader ep) = [] ->
   _read_packet env ep =
     (Raises IncompleteReadError, set_reader (mkReader []) ep)) /\
  (forall (b : byte) (rest : bytes),
     _closing ep = false -> unread (_reader ep) = b :: rest ->
     Z_of_byte b = 0 ->
     _read_packet env ep =
       (Raises (RuntimeError "Got multiple handshakes"),
        set_reader (mkReader rest) ep)) /\
  (forall (b : byte) (rest : bytes),
     _closing ep = false -> unread (_reader ep) = b :: rest ->
     3 < Z_of_byte b ->
     _read_packet env ep = (Raises ValueError, set_reader (mkReader rest) ep)) /\
  (forall (b i1 i2 l1 l2 : byte) (body : bytes),
     _closing ep = false ->
     unread (_reader ep) = b :: i1 :: i2 :: l1 :: l2 :: body ->
     b = x02 \/ b = x03 ->
     Z.of_nat (length body) < from_bytes [l1; l2] ->
     _read_packet env ep =
       (Raises IncompleteReadError, set_reader (mkReader []) ep)).
Proof.
  split; [|split; [|split; [|split]]].
  - intros Hcl. unfold _read_packet.
    erewrite bind_Returns by reflexivity. rewrite Hcl. reflexivity.
  - intros Hcl Hbuf. unfold _read_packet, _read_int_8.
    erewrite bind_Returns by reflexivity. rewrite Hcl. cbn [negb].
    erewrite bind_Returns by reflexivity.
    apply bind_Raises, bind_Raises, readexactly_truncated.
    rewrite Hbuf. cbn. lia.
  - intros b rest Hcl Hbuf Htag. unfold _read_packet.
    rewrite (_read_packet_tag env ep b rest) by assumption.
    rewrite Htag. reflexivity.
  - intros b rest Hcl Hbuf Htag. unfold _read_packet.
    rewrite (_read_packet_tag env ep b rest) by assumption.
    apply bind_Raises. unfold lift, _PacketType_of_value.
    destruct (Z.eqb_spec (Z_of_byte b) 0); [lia|].
    destruct (Z.eqb_spec (Z_of_byte b) 1); [lia|].
    destruct (Z.eqb_spec (Z_of_byte b) 2); [lia|].
    destruct (Z.eqb_spec (Z_of_byte b) 3); [lia|].
    reflexivity.
  - intros b i1 i2 l1 l2 body Hcl Hbuf Htag Hshort. unfold _read_packet.
    rewrite (_read_packet_tag env ep b (i1 :: i2 :: l1 :: l2 :: body))
      by assumption.
    destruct Htag as [-> | ->].
    + erewrite bind_Returns by reflexivity. cbn.
      unfold _handle_message_packet.
      erewrite bind_Returns by (apply _read_int_16_prefix; reflexivity).
      erewrite bind_Returns by (apply _read_int_16_prefix; reflexivity).
      apply bind_Raises.
      rewrite readexactly_truncated by exact Hshort. reflexivity.
    + erewrite bind_Returns by reflexivity. cbn.
      unfold _handle_response_packet.
      erewrite bind_Returns by (apply _read_int_16_prefix; reflexivity).
      erewrite bind_Returns by (apply _read_int_16_prefix; reflexivity).
      apply bind_Raises.
      rewrite readexactly_truncated by exact Hshort. reflexivity.
Qed.

Lemma read_packet_errors_witness :
  _read_packet Scenario.env Scenario.fresh =
    (Raises IncompleteReadError, set_reader (mkReader []) Scenario.fresh) /\
  _read_packet Scenario.env (Scenario.connect [x00; x01]) =
    (Raises (RuntimeError "Got multiple handshakes"),
     set_reader (mkReader [x01]) (Scenario.connect [x00; x01])) /\
  _read_packet Scenario.env (Scenario.connect [x03; xff; xfa; x00; x03; "A"]%byte) =
    (Raises IncompleteReadError,
     set_reader (mkReader [])
       (Scenario.connect [x03; xff; xfa; x00; x03; "A"]%byte)).
Proof.
  split; [|split].
  - destruct (read_packet_errors Scenario.env Scenario.fresh)
      as (_ & Hempty & _).
    apply Hempty; reflexivity.
  - destruct (read_packet_errors Scenario.env (Scenario.connect [x00; x01]))
      as (_ & _ & Hzero & _).
    apply (Hzero x00 [x01]); reflexivity.
  - destruct (read_packet_errors Scenario.env
                (Scenario.connect [x03; xff; xfa; x00; x03; "A"]%byte))
      as (_ & _ & _ & _ & Hshort).
    apply (Hshort x03 xff xfa x00 x03 ["A"%byte]).
    + reflexivity.
    + reflexivity.
    + right. reflexivity.
    + vm_compute. reflexivity.
Defined.

(** A RESPONSE for an entry that waits: the payload is put in it. *)
Lemma _read_packet_response (env : Env) (ep : RPCEndpoint)
    (i1 i2 l1 l2 : byte) (payload rest : bytes) (msgobj : _InFlightMessage) :
  _closing ep = false ->
  unread (_reader ep) = x03 :: i1 :: i2 :: l1 :: l2 :: payload ++ rest ->
  from_bytes [l1; l2] = Z.of_nat (length payload) ->
  _in_flight_messages ep !! from_bytes [i1; i2] = Some msgobj ->
  _read_packet env ep =
    set_response (from_bytes [i1; i2]) msgobj payload
      (set_reader (mkReader rest) ep).
Proof.
  intros Hcl Hbuf Hlen Hentry. unfold _read_packet.
  rewrite (_read_packet_tag env ep x03 (i1 :: i2 :: l1 :: l2 :: payload ++ rest))
    by assumption.
  erewrite bind_Returns by reflexivity. cbn [Z_of_byte].
  change (match MESSAGE with
          | HANDSHAKE => _ | KEEPALIVE => _ | MESSAGE => _ | RESPONSE => _
          end) with _handle_message_packet || idtac.
  cbn.
  unfold _handle_response_packet.
  erewrite bind_Returns by (apply _read_int_16_prefix; reflexivity).
  erewrite bind_Returns by (apply _read_int_16_prefix; reflexivity).
  erewrite bind_Returns
    by (apply (readexactly_prefix _ payload rest); [exact Hlen | reflexivity]).
  erewrite bind_Returns by reflexivity.
  cbn [_in_flight_messages set_reader]. rewrite Hentry. reflexivity.
Qed.

(** The way of a RESPONSE from the stream to the suspended caller. *)
Lemma response_delivery (env : Env) (ep : RPCEndpoint)
    (i1 i2 l1 l2 : byte) (payload rest : bytes) (msgobj : _InFlightMessage)
    (timeout : float) (w : Wake) :
  _closing ep = false ->
  unread (_reader ep) = x03 :: i1 :: i2 :: l1 :: l2 :: payload ++ rest ->
  from_bytes [l1; l2] = Z.of_nat (length payload) ->
  _in_flight_messages ep !! from_bytes [i1; i2] = Some msgobj ->
  _response msgobj = None ->
  state <$> loop_tasks ep !! wait_task msgobj = Some (Pending false) ->
  let message_id := from_bytes [i1; i2] in
  let received := snd (_read_packet env ep) in
  let woken := snd (run_wait_task message_id received) in
  fst (_read_packet env ep) = Returns tt /\
  fst (run_wait_task message_id received) = Returns tt /\
  send_message_finish (mkSendFrame message_id (wait_task msgobj) timeout) w woken =
    (Returns (Some payload), woken).
Proof.
  intros Hcl Hbuf Hlen Hentry Hnone Htask message_id received woken.
  unfold woken, received, message_id.
  rewrite (_read_packet_response env ep i1 i2 l1 l2 payload rest msgobj)
    by assumption.
  unfold set_response. rewrite Hnone.
  rewrite bool_decide_eq_true_2 by reflexivity.
  run_monad. cbn [fst snd]. split; [reflexivity|].
  unfold run_wait_task, settle, _wait. run_monad.
  cbn [_in_flight_messages set_in_flight_messages set_reader loop_tasks].
  rewrite lookup_insert_eq. cbn [wait_task _got_response _response].
  cbn [loop_tasks set_in_flight_messages set_reader].
  rewrite Htask. cbn [fst snd]. split; [reflexivity|].
  unfold send_message_finish, wait_for, try_except. run_monad.
  cbn [frame_wait_task loop_tasks set_loop_tasks set_in_flight_messages
       set_reader].
  rewrite list_lookup_alter_eq.
  destruct (loop_tasks ep !! wait_task msgobj) as [task|] eqn:Hstore;
    [|discriminate Htask].
  reflexivity.
Qed.

(** X9. A RESPONSE reaches its caller: when the reader handles a
    RESPONSE whose id has a waiting entry, and the loop then runs the
    entry's [_wait] task, the suspended [send_message] returns exactly
    the payload bytes of the packet, however its wait would otherwise
    have ended. *)
Theorem response_delivered (env : Env) (ep : RPCEndpoint)
    (i1 i2 l1 l2 : byte) (payload rest : bytes) (msgobj : _InFlightMessage)
    (timeout : float) (w : Wake) :
  _closing ep = false ->
  unread (_reader ep) = x03 :: i1 :: i2 :: l1 :: l2 :: payload ++ rest ->
  from_bytes [l1; l2] = Z.of_nat (length payload) ->
  _in_flight_messages ep !! from_bytes [i1; i2] = Some msgobj ->
  _response msgobj = None ->
  state <$> loop_tasks ep !! wait_task msgobj = Some (Pending false) ->
  let message_id := from_bytes [i1; i2] in
  let received := snd (_read_packet env ep) in
  let woken := snd (run_wait_task message_id received) in
  fst (_read_packet env ep) = Returns tt /\
  fst (run_wait_task message_id received) = Returns tt /\
  send_message_finish (mkSendFrame message_id (wait_task msgobj) timeout) w woken =
    (Returns (Some payload), woken).
Proof. apply response_delivery. Qed.

Lemma response_delivered_witness :
  send_message_finish Scenario.frame TimeoutExpired Scenario.answered =
    (Returns (Some Scenario.ABC), Scenario.answered).
Proof.
  apply (response_delivered Scenario.env Scenario.sent xff xfa x00 x03
           Scenario.ABC [] (mk_InFlightMessage None false 0)
           DEFAULT_MESSAGE_TIMEOUT TimeoutExpired).
  - reflexivity.
  - reflexivity.
  - reflexivity.
  - vm_compute. reflexivity.
  - reflexivity.
  - vm_compute. reflexivity.
Defined.

(** X10. A second RESPONSE for an entry that already holds one trips
    the assertion of [set_response] (line 71): the read turn raises
    [AssertionError] with the packet read and the entry as it was. *)
Theorem duplicate_response_asserts (env : Env) (ep : RPCEndpoint)
    (i1 i2 l1 l2 : byte) (payload rest : bytes) (msgobj : _InFlightMessage)
    (first : bytes) :
  _closing ep = false ->
  unread (_reader ep) = x03 :: i1 :: i2 :: l1 :: l2 :: payload ++ rest ->
  from_bytes [l1; l2] = Z.of_nat (length payload) ->
  _in_flight_messages ep !! from_bytes [i1; i2] = Some msgobj ->
  _response msgobj = Some first ->
  _read_packet env ep = (Raises AssertionError, set_reader (mkReader rest) ep).
Proof.
  intros Hcl Hbuf Hlen Hentry Hfirst.
  rewrite (_read_packet_response env ep i1 i2 l1 l2 payload rest msgobj)
    by assumption.
  unfold set_response. rewrite Hfirst.
  rewrite bool_decide_eq_false_2 by discriminate.
  reflexivity.
Qed.

Lemma duplicate_response_asserts_witness :
  _read_packet Scenario.env Scenario.answered_once =
    (Raises AssertionError, set_reader (mkReader []) Scenario.answered_once).
Proof.
  apply (duplicate_response_asserts Scenario.env Scenario.answered_once
           xff xfa x00 x03 Scenario.ABC []
           (mk_InFlightMessage (Some Scenario.ABC) true 0) Scenario.ABC).
  - reflexivity.
  - vm_compute. reflexivity.
  - reflexivity.
  - vm_compute. reflexivity.
  - reflexivity.
Defined.

(** ** Keepalives *)

(** X11. A keepalive turn on an open endpoint that has had its
    handshake: unless keepalives are suppressed, a KEEPALIVE packet,
    the single byte 1, is queued; then the turn raises the
    keepalive-timeout error exactly when the float difference between
    the clock reading and the time of the last keepalive is greater
    than the timeout, and otherwise returns.  Without a handshake yet,
    the turn fails its assertion, after queueing the packet. *)
Theorem keepalive_tick_behaviour (env : Env) (ep : RPCEndpoint) :
  env_ok env ep ->
  _closing ep = false ->
  let queued :=
    if test_suppress_keepalives ep then ep
    else set_have_out_packets true
           (set_out_packets (_out_packets ep ++ [[x01]]) ep) in
  (forall (info : _PeerInfo) (tm : float),
     _peer_info ep = Some info ->
     _last_keepalive_receive_time ep = Some tm ->
     let since_last := PrimFloat.sub (monotonic env) tm in
     _keepalive_tick env ep =
       (if PrimFloat.ltb (_keepalive_timeout ep) since_last
        then Raises KeepaliveTimeoutError
        else Returns tt,
        queued)) /\
  (_peer_info ep = None ->
   _keepalive_tick env ep = (Raises AssertionError, queued)).
Proof.
  intros Henv Hcl queued.
  assert (Hfirst : forall k : M unit,
    (suppress ← read test_suppress_keepalives;
     (if suppress : bool then mret tt
      else packet ← lift (to_bytes (_PacketType_value KEEPALIVE) 1);
           _enqueue_outgoing_packet env packet);;
     k) ep = k queued).
  { intros k. unfold queued, _enqueue_outgoing_packet. run_monad.
    destruct (test_suppress_keepalives ep); [reflexivity|].
    cbn [to_bytes _PacketType_value]. cbn.
    rewrite check_env_ok by exact Henv. reflexivity. }
  assert (Hq_peer : _peer_info queued = _peer_info ep)
    by (unfold queued; destruct (test_suppress_keepalives ep); reflexivity).
  assert (Hq_last : _last_keepalive_receive_time queued =
                    _last_keepalive_receive_time ep)
    by (unfold queued; destruct (test_suppress_keepalives ep); reflexivity).
  assert (Hq_to : _keepalive_timeout queued = _keepalive_timeout ep)
    by (unfold queued; destruct (test_suppress_keepalives ep); reflexivity).
  assert (Hq_cl : _closing queued = _closing ep)
    by (unfold queued; destruct (test_suppress_keepalives ep); reflexivity).
  split.
  - intros info tm Hinfo Hlast since_last. unfold _keepalive_tick.
    rewrite Hfirst.
    erewrite bind_Returns by reflexivity. rewrite Hq_peer, Hinfo.
    rewrite bool_decide_eq_true_2 by discriminate.
    erewrite bind_Returns by reflexivity.
    erewrite bind_Returns by reflexivity. rewrite Hq_last, Hlast.
    erewrite bind_Returns by reflexivity. rewrite Hq_to.
    fold since_last.
    destruct (PrimFloat.ltb (_keepalive_timeout ep) since_last).
    + reflexivity.
    + erewrite bind_Returns by reflexivity.
      erewrite bind_Returns by reflexivity. rewrite Hq_cl, Hcl. reflexivity.
  - intros Hinfo. unfold _keepalive_tick.
    rewrite Hfirst.
    erewrite bind_Returns by reflexivity. rewrite Hq_peer, Hinfo.
    rewrite bool_decide_eq_false_2 by (intros H; apply H; reflexivity).
    reflexivity.
Qed.

(** With the default timeout of 30.0 s: a reading 31 s after the last
    keepalive raises and queues the packet, a reading 30 s after it
    returns, and the readings 2.002 s and 32.002 s raise, their
    difference being 30.000000000000004 in binary64. *)
Lemma keepalive_tick_behaviour_witness :
  fst (_keepalive_tick Scenario.late Scenario.shaken) =
    Raises KeepaliveTimeoutError /\
  _out_packets (snd (_keepalive_tick Scenario.late Scenario.shaken)) = [[x01]] /\
  fst (_keepalive_tick Scenario.on_time Scenario.shaken) = Returns tt /\
  fst (_keepalive_tick Scenario.drifted Scenario.shaken_2) =
    Raises KeepaliveTimeoutError.
Proof.
  assert (Hlate := keepalive_tick_behaviour Scenario.late Scenario.shaken).
  assert (Hedge := keepalive_tick_behaviour Scenario.on_time Scenario.shaken).
  assert (Hdrift := keepalive_tick_behaviour Scenario.drifted Scenario.shaken_2).
  cbv zeta in Hlate, Hedge, Hdrift.
  destruct Hlate as [Hlate _]; [split; reflexivity | reflexivity |].
  destruct Hedge as [Hedge _]; [split; reflexivity | reflexivity |].
  destruct Hdrift as [Hdrift _]; [split; reflexivity | reflexivity |].
  rewrite (Hlate _ _ eq_refl eq_refl), (Hedge _ _ eq_refl eq_refl),
    (Hdrift _ _ eq_refl eq_refl).
  split; [reflexivity|]. split; [reflexivity|]. split; reflexivity.
Defined.

(** ** The handshake *)

Lemma to_bytes_in_range (n : Z) (width : nat) :
  0 <= n < 256 ^ Z.of_nat width ->
  to_bytes n width = Returns (be_digits width n).
Proof.
  intros Hn. unfold to_bytes.
  destruct (Z.leb_spec 0 n); [|lia].
  destruct (Z.ltb_spec n (256 ^ Z.of_nat width)); [|lia].
  reflexivity.
Qed.

Section Handshake.

Variable dataclass_to_json : _PeerInfo -> bytes.
Variable dataclass_from_json : bytes -> Outcome _PeerInfo.

(** What [_run_write_task] writes first. *)
Lemma _write_handshake_written (env : Env) (ep : RPCEndpoint) :
  env_ok env ep ->
  let data := dataclass_to_json (mk_PeerInfo OUR_PROTOCOL (_keepalive_interval ep)) in
  Z.of_nat (length data) < 2 ^ 32 ->
  _write_handshake dataclass_to_json env ep =
    (Returns tt,
     set_writer
       (mkWriter (written (_writer ep) ++ be_digits 4 (Z.of_nat (length data)) ++ data)
                 (writer_closing (_writer ep))) ep).
Proof.
  intros Henv data Hlen. unfold _write_handshake, writer_write. run_monad.
  rewrite check_env_ok by exact Henv.
  fold data. rewrite to_bytes_in_range by (change (256 ^ Z.of_nat 4) with (2 ^ 32); lia).
  reflexivity.
Qed.

(** What [_run_read_task] does with a length-prefixed blob. *)
Lemma _read_handshake_blob (env : Env) (ep : RPCEndpoint) (data rest : bytes) :
  env_ok env ep ->
  _peer_info ep = None ->
  Z.of_nat (length data) < 2 ^ 32 ->
  unread (_reader ep) = be_digits 4 (Z.of_nat (length data)) ++ data ++ rest ->
  _read_handshake dataclass_from_json env ep =
    match dataclass_from_json data with
    | Returns info =>
        (Returns tt,
         set_last_keepalive_receive_time (Some (monotonic env))
           (set_peer_info (Some info) (set_reader (mkReader rest) ep)))
    | Raises e => (Raises e, set_reader (mkReader rest) ep)
    end.
Proof.
  intros Henv Hpeer Hlen Hbuf. unfold _read_handshake, _read_int_32.
  rewrite (bind_Returns _ _ ep ep tt) by (apply check_env_ok; exact Henv).
  erewrite bind_Returns by reflexivity.
  rewrite Hpeer. rewrite bool_decide_eq_true_2 by reflexivity.
  erewrite bind_Returns by reflexivity.
  erewrite bind_Returns.
  2:{ erewrite bind_Returns.
      2:{ apply (readexactly_prefix 4 (be_digits 4 (Z.of_nat (length data)))
                   (data ++ rest)).
          - rewrite length_be_digits. reflexivity.
          - exact Hbuf. }
      reflexivity. }
  rewrite from_bytes_be_digits by lia.
  change (256 ^ Z.of_nat 4) with (2 ^ 32). rewrite Z.mod_small by lia.
  erewrite bind_Returns
    by (apply (readexactly_prefix _ data rest); reflexivity).
  unfold lift. run_monad.
  destruct (dataclass_from_json data); reflexivity.
Qed.

(** X12. The handshake goes through: what one endpoint writes first,
    the 4-byte big-endian length and the JSON of its peer info, is
    what the read task of the other expects first.  If the JSON codec
    decodes what it encodes, the reader ends up with the writer's
    protocol number 1 and keepalive interval as its peer info, with the
    time of the read as its last-keepalive time and the rest of the
    stream unread; if the blob does not decode, the decoder's error
    ends the read task and the peer info stays unset. *)
Theorem handshake_round_trip (envA envB : Env) (A B : RPCEndpoint)
    (rest : bytes) :
  let info := mk_PeerInfo OUR_PROTOCOL (_keepalive_interval A) in
  env_ok envA A ->
  env_ok envB B ->
  _peer_info B = None ->
  Z.of_nat (length (dataclass_to_json info)) < 2 ^ 32 ->
  written (_writer A) = [] ->
  unread (_reader B) =
    written (_writer (snd (_write_handshake dataclass_to_json envA A))) ++ rest ->
  fst (_write_handshake dataclass_to_json envA A) = Returns tt /\
  (dataclass_from_json (dataclass_to_json info) = Returns info ->
   _read_handshake dataclass_from_json envB B =
     (Returns tt,
      set_last_keepalive_receive_time (Some (monotonic envB))
        (set_peer_info (Some info) (set_reader (mkReader rest) B)))) /\
  (forall e, dataclass_from_json (dataclass_to_json info) = Raises e ->
   _read_handshake dataclass_from_json envB B =
     (Raises e, set_reader (mkReader rest) B)).
Proof.
  intros info HenvA HenvB Hpeer Hlen Hempty Hbuf.
  rewrite (_write_handshake_written envA A HenvA Hlen) in *.
  cbn [fst snd written _writer set_writer] in *.
  rewrite Hempty in Hbuf. cbn [app] in Hbuf. rewrite <- app_assoc in Hbuf.
  split; [reflexivity|].
  pose proof (_read_handshake_blob envB B (dataclass_to_json info) rest
                HenvB Hpeer Hlen Hbuf) as Hread.
  split.
  - intros Hcodec. rewrite Hread. fold info. rewrite Hcodec. reflexivity.
  - intros e Hcodec. rewrite Hread. fold info. rewrite Hcodec. reflexivity.
Qed.

End Handshake.

Lemma handshake_round_trip_witness :
  _peer_info
    (snd (_read_handshake Scenario.from_json Scenario.env
            (Scenario.connect [x00; x00; x00; x00]))) =
    Some (mk_PeerInfo 1 DEFAULT_KEEPALIVE_INTERVAL).
Proof.
  destruct (handshake_round_trip Scenario.to_json Scenario.from_json
              Scenario.env Scenario.env Scenario.fresh
              (Scenario.connect [x00; x00; x00; x00]) [])
    as (_ & Hread & _).
  - split; reflexivity.
  - split; reflexivity.
  - reflexivity.
  - vm_compute. reflexivity.
  - reflexivity.
  - reflexivity.
  - rewrite (Hread eq_refl). reflexivity.
Defined.

(** ** The handler task *)

(** X14. A handler that fails sends nothing: when the user's handler
    raises an exception (other than a cancellation),
    [_handle_raw_message] returns normally and the endpoint is exactly
    as before, so no RESPONSE is queued; when the handler returns more
    than 65535 bytes, the length does not fit its two bytes,
    [OverflowError] escapes and again nothing is queued. *)
Theorem handler_failure_sends_nothing (env : Env) (ep : RPCEndpoint)
    (call : Handler) (message_id : Z) (message : bytes) :
  _handle_raw_message_call ep = Some call ->
  (forall e, call message = Raises e -> e <> CancelledError ->
     _handle_raw_message env message_id message ep = (Returns tt, ep)) /\
  (forall response, call message = Returns response ->
     Z.of_nat (length response) > 65535 ->
     _handle_raw_message env message_id message ep = (Raises OverflowError, ep)).
Proof.
  intros Hcall. split.
  - intros e He Hne. unfold _handle_raw_message. run_monad.
    rewrite Hcall, He. destruct e; try reflexivity. contradiction.
  - intros response Hrsp Hlen. unfold _handle_raw_message. run_monad.
    rewrite Hcall, Hrsp.
    rewrite (to_bytes_tag RESPONSE).
    assert (Hover : to_bytes (Z.of_nat (length response)) 2 = Raises OverflowError).
    { unfold to_bytes. change (256 ^ Z.of_nat 2) with 65536.
      destruct (Z.ltb_spec (Z.of_nat (length response)) 65536); [lia|].
      rewrite andb_false_r. reflexivity. }
    rewrite Hover.
    unfold to_bytes.
    destruct ((0 <=? message_id) && (message_id <? 256 ^ Z.of_nat 2));
      reflexivity.
Qed.

Lemma handler_failure_sends_nothing_witness :
  let ep := init Scenario.env Scenario.failing (mkReader []) (mkWriter [] false)
              false "B" DEFAULT_KEEPALIVE_INTERVAL DEFAULT_KEEPALIVE_TIMEOUT in
  _handle_raw_message Scenario.env 65530 Scenario.abc ep = (Returns tt, ep) /\
  _handle_raw_message Scenario.env 65530 Scenario.oversize Scenario.fresh =
    (Raises OverflowError, Scenario.fresh).
Proof.
  cbv zeta. split.
  - destruct (handler_failure_sends_nothing Scenario.env
                (init Scenario.env Scenario.failing (mkReader [])
                   (mkWriter [] false) false "B" DEFAULT_KEEPALIVE_INTERVAL
                   DEFAULT_KEEPALIVE_TIMEOUT)
                Scenario.failing 65530 Scenario.abc eq_refl) as [Hraise _].
    apply (Hraise HandlerError); [reflexivity | discriminate].
  - destruct (handler_failure_sends_nothing Scenario.env Scenario.fresh
                Scenario.echo 65530 Scenario.oversize eq_refl) as [_ Hover].
    apply (Hover Scenario.oversize); [reflexivity | vm_compute; reflexivity].
Defined.

(** ** Timeouts and cancellation *)

Lemma send_message_finish_pending (frame : SendFrame) (w : Wake)
    (ep : RPCEndpoint) (task : Task) (b : bool) :
  loop_tasks ep !! frame_wait_task frame = Some task ->
  state task = Pending b ->
  let cancelled :=
    set_loop_tasks
      (alter (fun task' => mkTask (coro task') Cancelled)
             (frame_wait_task frame) (loop_tasks ep)) ep in
  send_message_finish frame w ep =
    match w with
    | CallerCancelled => (Raises (CommunicationError EmptyString), cancelled)
    | TimeoutExpired =>
        match _in_flight_messages ep !! frame_message_id frame with
        | Some _ =>
            (Raises (CommunicationError EmptyString),
             set_in_flight_messages
               (delete (frame_message_id frame) (_in_flight_messages ep))
               cancelled)
        | None => (Raises KeyError, cancelled)
        end
    end.
Proof.
  intros Hstore Hstate cancelled.
  unfold send_message_finish, wait_for, try_except, settle, cancel, del_in_flight.
  run_monad. rewrite Hstore. cbn [fmap option_fmap option_map]. rewrite Hstate.
  destruct w; cbn [snd fst].
  - cbn [_in_flight_messages set_loop_tasks loop_tasks].
    assert (Hsame : alter cancel_task (frame_wait_task frame)
              (alter (fun task' => mkTask (coro task') Cancelled)
                     (frame_wait_task frame) (loop_tasks ep)) =
            alter (fun task' => mkTask (coro task') Cancelled)
                  (frame_wait_task frame) (loop_tasks ep)).
    { apply list_eq. intros i.
      destruct (decide (i = frame_wait_task frame)) as [->|Hne].
      - rewrite !list_lookup_alter_eq. rewrite Hstore. reflexivity.
      - rewrite !list_lookup_alter_ne by congruence. reflexivity. }
    destruct (_in_flight_messages ep !! frame_message_id frame);
      unfold cancelled; cbn [set_loop_tasks loop_tasks];
      rewrite Hsame; reflexivity.
  - reflexivity.
Qed.

(** X15. A send that times out leaves the in-flight table as it was
    before the send: the caller gets the communication error, the
    waiter task ends cancelled, the entry made by the send is removed
    and no other entry is touched, while the MESSAGE packet stays
    queued for the peer. *)
Theorem send_then_timeout (env : Env) (message : bytes) (timeout : option float)
    (ep ep1 : RPCEndpoint) (frame : SendFrame) :
  send_message_start env message timeout ep = (Returns frame, ep1) ->
  let ep2 := snd (send_message_finish frame TimeoutExpired ep1) in
  fst (send_message_finish frame TimeoutExpired ep1) =
    Raises (CommunicationError EmptyString) /\
  _in_flight_messages ep2 = _in_flight_messages ep /\
  state <$> loop_tasks ep2 !! frame_wait_task frame = Some Cancelled /\
  _out_packets ep2 =
    _out_packets ep ++ [packet_layout x02 (frame_message_id frame) message].
Proof.
  intros Hstart ep2.
  apply send_message_start_Returns in Hstart.
  destruct Hstart as (_ & Hfree & Htask & _ & ->).
  unfold ep2. clear ep2.
  set (ep1 := registered (frame_message_id frame)
                (enqueued (packet_layout x02 (frame_message_id frame) message) ep)).
  assert (Hstore : loop_tasks ep1 !! frame_wait_task frame =
                   Some (mkTask WaitCoro (Pending false))).
  { unfold ep1, registered. cbn [loop_tasks set_tasks set_in_flight_messages
      set_loop_tasks enqueued set_have_out_packets set_out_packets
      set_next_message_id].
    rewrite Htask. apply list_lookup_middle. reflexivity. }
  rewrite (send_message_finish_pending frame TimeoutExpired ep1 _ false Hstore eq_refl).
  assert (Hentry : _in_flight_messages ep1 =
            <[frame_message_id frame :=
                mk_InFlightMessage None false (length (loop_tasks ep))]>
              (_in_flight_messages ep)) by reflexivity.
  rewrite Hentry, lookup_insert_eq. cbn [fst snd].
  split; [reflexivity|]. split.
  - cbn [_in_flight_messages set_in_flight_messages].
    rewrite delete_insert_eq. apply delete_id. exact Hfree.
  - split; [|reflexivity].
    cbn [loop_tasks set_in_flight_messages set_loop_tasks].
    rewrite list_lookup_alter_eq, Hstore. reflexivity.
Qed.

Lemma send_then_timeout_witness :
  fst (send_message_finish Scenario.frame TimeoutExpired Scenario.sent) =
    Raises (CommunicationError EmptyString) /\
  _in_flight_messages
    (snd (send_message_finish Scenario.frame TimeoutExpired Scenario.sent)) =
    _in_flight_messages (Scenario.connect Scenario.peer_response).
Proof.
  destruct (send_then_timeout Scenario.env Scenario.abc None
              (Scenario.connect Scenario.peer_response) Scenario.sent
              Scenario.frame) as (Hraise & Htable & _).
  - vm_compute. reflexivity.
  - split; [exact Hraise | exact Htable].
Defined.

(** X13. [close] fails a pending send: after [close], the waiter of a
    suspended [send_message] has its cancellation requested; once the
    loop has delivered it the waiter is cancelled, and the call raises
    the communication error, whatever would otherwise have ended its
    wait. *)
Theorem close_fails_pending_send (env : Env) (message : bytes)
    (timeout : option float) (ep ep1 : RPCEndpoint) (frame : SendFrame) (w : Wake) :
  send_message_start env message timeout ep = (Returns frame, ep1) ->
  _handle_raw_message_call ep <> None ->
  let closed := snd (close env ep1) in
  let settled := snd (run_wait_task (frame_message_id frame) closed) in
  fst (close env ep1) = Returns tt /\
  state <$> loop_tasks closed !! frame_wait_task frame = Some (Pending true) /\
  state <$> loop_tasks settled !! frame_wait_task frame = Some Cancelled /\
  fst (send_message_finish frame w settled) =
    Raises (CommunicationError EmptyString).
Proof.
  intros Hstart Hh closed settled.
  apply send_message_start_Returns in Hstart.
  destruct Hstart as (Henq & Hfree & Htask & _ & ->).
  apply send_message_enqueue_Returns in Henq.
  destruct Henq as (Henv & _ & Hcl & _ & _ & _).
  destruct (_handle_raw_message_call ep) as [call|] eqn:Hcall; [|contradiction].
  set (mid := frame_message_id frame) in *.
  set (t := frame_wait_task frame) in *.
  set (ep1 := registered mid (enqueued (packet_layout x02 mid message) ep)) in *.
  assert (Hstore : loop_tasks ep1 !! t = Some (mkTask WaitCoro (Pending false))).
  { unfold ep1, registered. cbn [loop_tasks set_tasks set_in_flight_messages
      set_loop_tasks enqueued set_have_out_packets set_out_packets
      set_next_message_id].
    rewrite Htask. apply list_lookup_middle. reflexivity. }
  assert (Htracked : t ∈ _tasks ep1).
  { unfold ep1, registered. cbn [_tasks set_tasks]. rewrite Htask.
    apply list_elem_of_In, in_or_app. right. left. reflexivity. }
  assert (Hclose : close env ep1 = _) by
    (apply (close_on_open env ep1 call); [exact Henv | exact Hcl | exact Hcall]).
  assert (Hclosed : loop_tasks closed !! t =
                    Some (mkTask WaitCoro (Pending true))).
  { unfold closed. rewrite Hclose.
    cbn [snd loop_tasks set_handle_raw_message_call set_writer set_loop_tasks].
    rewrite cancel_all_lookup.
    rewrite bool_decide_eq_true_2.
    - rewrite Hstore. reflexivity.
    - apply list_elem_of_In, filter_In. split.
      + apply list_elem_of_In. exact Htracked.
      + unfold live_ref. rewrite Hstore. reflexivity. }
  assert (Hentry : _in_flight_messages closed !! mid =
                   Some (mk_InFlightMessage None false t)).
  { unfold closed. rewrite Hclose.
    cbn [snd _in_flight_messages set_handle_raw_message_call set_writer
         set_loop_tasks set_closing].
    unfold ep1, registered. cbn [_in_flight_messages set_tasks set_in_flight_messages].
    rewrite lookup_insert_eq, Htask. reflexivity. }
  assert (Hsettled : settled =
            set_loop_tasks
              (alter (fun task => mkTask (coro task) Cancelled) t (loop_tasks closed))
              closed).
  { unfold settled, run_wait_task, settle. run_monad.
    rewrite Hentry. cbn [wait_task]. rewrite Hclosed. reflexivity. }
  split; [rewrite Hclose; reflexivity|].
  split; [rewrite Hclosed; reflexivity|].
  assert (Hcancelled : loop_tasks settled !! t = Some (mkTask WaitCoro Cancelled)).
  { rewrite Hsettled. cbn [loop_tasks set_loop_tasks].
    rewrite list_lookup_alter_eq, Hclosed. reflexivity. }
  split; [rewrite Hcancelled; reflexivity|].
  unfold send_message_finish, wait_for, try_except. run_monad.
  fold t. rewrite Hcancelled. reflexivity.
Qed.

Lemma close_fails_pending_send_witness :
  fst (send_message_finish Scenario.frame TimeoutExpired
         (snd (run_wait_task 65530 (snd (close Scenario.env Scenario.sent))))) =
    Raises (CommunicationError EmptyString).
Proof.
  apply (close_fails_pending_send Scenario.env Scenario.abc None
           (Scenario.connect Scenario.peer_response) Scenario.sent
           Scenario.frame TimeoutExpired).
  - vm_compute. reflexivity.
  - discriminate.
Defined.

(** ** A call from end to end *)

Lemma from_bytes_u16 (n : Z) :
  0 <= n < 65536 ->
  from_bytes [byte_of_Z (n / 256); byte_of_Z (n mod 256)] = n.
Proof.
  intros Hn. rewrite <- be_digits_2 by exact Hn.
  rewrite from_bytes_be_digits by lia.
  change (256 ^ Z.of_nat 2) with 65536. apply Z.mod_small. exact Hn.
Qed.

(** [send_message] on a message it takes, with the id free. *)
Lemma send_message_start_accepted (env : Env) (message : bytes)
    (timeout : option float) (ep : RPCEndpoint) :
  env_ok env ep -> Z.of_nat (length message) <= 65535 -> _closing ep = false ->
  0 <= _next_message_id ep < 65536 ->
  _in_flight_messages ep !! _next_message_id ep = None ->
  send_message_start env message timeout ep =
    (Returns (mkSendFrame (_next_message_id ep) (length (loop_tasks ep))
                (match timeout with
                 | None => DEFAULT_MESSAGE_TIMEOUT
                 | Some tm => tm
                 end)),
     registered (_next_message_id ep)
       (enqueued (packet_layout x02 (_next_message_id ep) message) ep)).
Proof.
  intros Henv Hlen Hcl Hid Hfree. unfold send_message_start.
  erewrite bind_Returns
    by (apply send_message_enqueue_accepted; assumption).
  destruct (send_message_register_cases (_next_message_id ep)
              (enqueued (packet_layout x02 (_next_message_id ep) message) ep))
    as [[_ Hreg]|[Hbusy _]].
  - erewrite bind_Returns by exact Hreg. reflexivity.
  - exfalso. apply Hbusy. exact Hfree.
Qed.

(** A turn of the write task on a queue of one packet. *)
Lemma _write_packet_single (ep : RPCEndpoint) (data : bytes) :
  _have_out_packets ep = true ->
  _out_packets ep = [data] ->
  _write_packet ep =
    (Returns tt,
     set_writer (mkWriter (written (_writer ep) ++ data)
                          (writer_closing (_writer ep)))
       (set_have_out_packets false (set_out_packets [] ep))).
Proof.
  intros Hhave Hq. unfold _write_packet, writer_write. run_monad.
  rewrite Hhave, Hq. reflexivity.
Qed.

(** X16. A call from end to end.  Endpoint [A] sends a message to its
    peer [B]; the write task of [A] puts the packet on the wire, the
    read task of [B] takes it and the handler task of [B] answers with
    the handler's bytes; the write task of [B] puts the RESPONSE on the
    wire, the read task of [A] takes it and the waiter of [A] is run:
    then [send_message] on [A] returns exactly what the handler of [B]
    returned for the message. *)
Theorem round_trip (envA envB : Env) (A B : RPCEndpoint)
    (message response restA restB : bytes) (call : Handler)
    (timeout : option float) (w : Wake) :
  env_ok envA A -> _closing A = false ->
  0 <= _next_message_id A < 65536 ->
  _in_flight_messages A !! _next_message_id A = None ->
  Z.of_nat (length message) <= 65535 ->
  _out_packets A = [] ->
  env_ok envB B -> _closing B = false ->
  _handle_raw_message_call B = Some call ->
  call message = Returns response ->
  Z.of_nat (length response) <= 65535 ->
  _out_packets B = [] ->
  let A1 := snd (send_message_start envA message timeout A) in
  let A2 := snd (_write_packet A1) in
  let wireAB := drop (length (written (_writer A))) (written (_writer A2)) in
  unread (_reader B) = wireAB ++ restB ->
  let B1 := snd (_read_packet envB B) in
  let B2 := snd (run_handler_task envB (length (loop_tasks B)) B1) in
  let B3 := snd (_write_packet B2) in
  let wireBA := drop (length (written (_writer B))) (written (_writer B3)) in
  unread (_reader A) = wireBA ++ restA ->
  let A3 := snd (_read_packet envA A2) in
  let A4 := snd (run_wait_task (_next_message_id A) A3) in
  exists frame : SendFrame,
    fst (send_message_start envA message timeout A) = Returns frame /\
    frame_message_id frame = _next_message_id A /\
    wireAB = packet_layout x02 (_next_message_id A) message /\
    wireBA = packet_layout x03 (_next_message_id A) response /\
    send_message_finish frame w A4 = (Returns (Some response), A4).
Proof.
  intros HenvA HclA HidA HfreeA Hlen HqA HenvB HclB Hcall Hrsp Hrlen HqB.
  set (mid := _next_message_id A).
  pose proof (send_message_start_accepted envA message timeout A
                HenvA Hlen HclA HidA HfreeA) as Hstart.
  fold mid in Hstart. rewrite Hstart. cbn [fst snd].
  set (A1 := registered mid (enqueued (packet_layout x02 mid message) A)).
  assert (HqA1 : _out_packets A1 = [packet_layout x02 mid message]).
  { unfold A1, registered, enqueued.
    cbn [_out_packets set_tasks set_in_flight_messages set_loop_tasks
         set_have_out_packets set_out_packets].
    rewrite HqA. reflexivity. }
  rewrite (_write_packet_single A1 _ eq_refl HqA1). cbn [snd].
  set (A2 := set_writer _ _).
  assert (HwireAB : drop (length (written (_writer A))) (written (_writer A2)) =
                    packet_layout x02 mid message).
  { unfold A2. cbn [written _writer set_writer].
    change (written (_writer A1)) with (written (_writer A)).
    apply drop_app_length. }
  rewrite HwireAB. intros HbufB.
  (* B takes the MESSAGE and answers it *)
  assert (HlenA : 0 <= Z.of_nat (length message) < 65536) by lia.
  pose proof (_read_packet_message envB B
                (byte_of_Z (mid / 256)) (byte_of_Z (mid mod 256))
                (byte_of_Z (Z.of_nat (length message) / 256))
                (byte_of_Z (Z.of_nat (length message) mod 256))
                message restB HclB HbufB
                (from_bytes_u16 _ HlenA))
    as HreadB.
  rewrite (from_bytes_u16 mid HidA) in HreadB.
  rewrite HreadB. cbn [snd].
  set (B1 := set_tasks _ _).
  assert (HtaskB : loop_tasks B1 !! length (loop_tasks B) =
                   Some (mkTask (HandleRawMessageCoro mid message) (Pending false))).
  { unfold B1. cbn [loop_tasks set_tasks set_loop_tasks set_reader].
    apply list_lookup_middle. reflexivity. }
  rewrite (run_handler_task_response envB B1 (length (loop_tasks B)) call mid
             message response HenvB HtaskB Hcall Hrsp HidA Hrlen).
  cbn [snd].
  set (B2 := set_loop_tasks _ _).
  assert (HqB2 : _out_packets B2 = [packet_layout x03 mid response]).
  { unfold B2, B1.
    cbn [_out_packets set_loop_tasks set_have_out_packets set_out_packets
         set_tasks set_reader].
    rewrite HqB. reflexivity. }
  rewrite (_write_packet_single B2 _ eq_refl HqB2). cbn [snd].
  set (B3 := set_writer _ _).
  assert (HwireBA : drop (length (written (_writer B))) (written (_writer B3)) =
                    packet_layout x03 mid response).
  { unfold B3. cbn [written _writer set_writer].
    change (written (_writer B2)) with (written (_writer B)).
    apply drop_app_length. }
  rewrite HwireBA. intros HbufA.
  (* A takes the RESPONSE *)
  eexists. split; [reflexivity|]. split; [reflexivity|].
  split; [reflexivity|]. split; [reflexivity|].
  cbn [frame_message_id].
  pose proof (response_delivery envA A2
                (byte_of_Z (mid / 256)) (byte_of_Z (mid mod 256))
                (byte_of_Z (Z.of_nat (length response) / 256))
                (byte_of_Z (Z.of_nat (length response) mod 256))
                response restA
                (mk_InFlightMessage None false (length (loop_tasks A)))
                (match timeout with
                 | None => DEFAULT_MESSAGE_TIMEOUT
                 | Some tm => tm
                 end) w) as Hdeliver.
  rewrite (from_bytes_u16 mid HidA) in Hdeliver.
  cbn [wait_task] in Hdeliver.
  apply Hdeliver.
  - exact HclA.
  - exact HbufA.
  - apply from_bytes_u16. lia.
  - unfold A2, A1, registered.
    cbn [_in_flight_messages set_writer set_have_out_packets set_out_packets
         set_tasks set_in_flight_messages].
    apply lookup_insert_eq.
  - reflexivity.
  - unfold A2, A1, registered.
    cbn [loop_tasks set_writer set_have_out_packets set_out_packets
         set_tasks set_in_flight_messages set_loop_tasks enqueued
         set_next_message_id].
    rewrite list_lookup_middle by reflexivity. reflexivity.
Qed.

Lemma round_trip_witness :
  let A := Scenario.connect (packet_layout x03 65530 Scenario.abc) in
  let A2 := snd (_write_packet
                   (snd (send_message_start Scenario.env Scenario.abc None A))) in
  let A4 := snd (run_wait_task 65530 (snd (_read_packet Scenario.env A2))) in
  exists frame : SendFrame,
    fst (send_message_start Scenario.env Scenario.abc None A) = Returns frame /\
    send_message_finish frame TimeoutExpired A4 = (Returns (Some Scenario.abc), A4).
Proof.
  cbv zeta.
  destruct (round_trip Scenario.env Scenario.env
              (Scenario.connect (packet_layout x03 65530 Scenario.abc))
              (Scenario.connect (packet_layout x02 65530 Scenario.abc))
              Scenario.abc Scenario.abc [] [] Scenario.echo None TimeoutExpired)
    as (frame & Hstart & _ & _ & _ & Hfinish).
  - split; reflexivity.
  - reflexivity.
  - cbn. lia.
  - reflexivity.
  - cbn. lia.
  - reflexivity.
  - split; reflexivity.
  - reflexivity.
  - reflexivity.
  - reflexivity.
  - cbn. lia.
  - reflexivity.
  - vm_compute. reflexivity.
  - vm_compute. reflexivity.
  - exists frame. split; [exact Hstart | exact Hfinish].
Defined.

(** ** Ids and packets stay well formed *)

(** The rule of sequence that remembers what the first part returned. *)
Lemma stable_bind_post {A B : Type} (P : RPCEndpoint -> Prop) (Q : A -> Prop)
    (m : M A) (k : A -> M B) :
  (forall ep a ep', m ep = (Returns a, ep') -> Q a) ->
  stable P m -> (forall a, Q a -> stable P (k a)) -> stable P (m ≫= k).
Proof.
  intros HQ Hm Hk ep H. unfold mbind, M_bind.
  specialize (Hm ep H). specialize (HQ ep).
  destruct (m ep) as [[a|e] ep']; cbn [snd] in *.
  - apply (Hk a (HQ a ep' eq_refl)), Hm.
  - exact Hm.
Qed.

Lemma readexactly_Returns_length (n : Z) (b : bytes) (ep ep' : RPCEndpoint) :
  readexactly n ep = (Returns b, ep') -> Z.of_nat (length b) = n.
Proof.
  unfold readexactly. run_monad.
  destruct (Z.ltb_spec n 0); [discriminate|].
  destruct (Z.ltb_spec (Z.of_nat (length (unread (_reader ep)))) n);
    [discriminate|].
  intros Heq. inversion Heq; subst. rewrite length_take. lia.
Qed.

Lemma _read_int_16_range (ep ep' : RPCEndpoint) (v : Z) :
  _read_int_16 ep = (Returns v, ep') -> 0 <= v < 65536.
Proof.
  unfold _read_int_16, mbind, M_bind.
  destruct (readexactly 2 ep) as [[b|e] ep1] eqn:Hread; [|discriminate].
  apply readexactly_Returns_length in Hread.
  cbn [mret M_ret]. intros Heq. inversion Heq; subst.
  pose proof (from_bytes_range b) as Hr.
  replace (Z.of_nat (length b)) with 2 in Hr. exact Hr.
Qed.

Lemma wire_enqueue (env : Env) (data : bytes) :
  well_formed_packet data ->
  stable wire_invariant (_enqueue_outgoing_packet env data).
Proof.
  intros Hwf ep H. pose proof H as (Hid & Hq & Hst & Htab).
  unfold _enqueue_outgoing_packet. run_monad.
  destruct (check_env_cases env ep) as [[_ Hc]|[_ [e Hc]]]; rewrite Hc;
    cbn [snd]; [|exact H]. unfold wire_invariant.
  - cbn [_next_message_id _out_packets loop_tasks _in_flight_messages
         set_have_out_packets set_out_packets].
    split; [exact Hid|]. split; [|split; assumption].
    apply Forall_app. split; [exact Hq|]. constructor; [exact Hwf|constructor].
Qed.

Lemma wire_create_task (c : Coro) :
  coro_in_range (mkTask c (Pending false)) ->
  stable wire_invariant (create_task c).
Proof.
  intros Hc ep (Hid & Hq & Hst & Htab). unfold create_task. run_monad.
  cbn [snd]. unfold wire_invariant.
  cbn [_next_message_id _out_packets loop_tasks _in_flight_messages
       set_loop_tasks].
  split; [exact Hid|]. split; [exact Hq|]. split; [|exact Htab].
  apply Forall_app. split; [exact Hst|]. constructor; [exact Hc|constructor].
Qed.

(** Changing the state of a task leaves its coroutine. *)
Lemma wire_alter (f : Task -> Task) (t : TaskId) :
  (forall task, coro (f task) = coro task) ->
  stable wire_invariant
    (assign (fun ep => set_loop_tasks (alter f t (loop_tasks ep)) ep)).
Proof.
  intros Hf ep (Hid & Hq & Hst & Htab). unfold assign. cbn [snd].
  unfold wire_invariant.
  cbn [_next_message_id _out_packets loop_tasks _in_flight_messages
       set_loop_tasks].
  split; [exact Hid|]. split; [exact Hq|]. split; [|exact Htab].
  apply Forall_lookup. intros i task Hi.
  rewrite list_lookup_alter in Hi.
  destruct (decide (t = i)) as [->|Hne].
  - destruct (loop_tasks ep !! i) as [task0|] eqn:Hi0; [|discriminate Hi].
    cbn in Hi. inversion Hi; subst.
    pose proof (proj1 (Forall_lookup _ _) Hst i task0 Hi0) as H0.
    unfold coro_in_range in *. rewrite Hf. exact H0.
  - apply (proj1 (Forall_lookup _ _) Hst i task Hi).
Qed.

Lemma cancel_task_coro (task : Task) : coro (cancel_task task) = coro task.
Proof. destruct task as [c []]; reflexivity. Qed.

Lemma wire_cancel (t : TaskId) : stable wire_invariant (cancel t).
Proof. apply wire_alter, cancel_task_coro. Qed.

Lemma wire_settle (t : TaskId) (s : TaskState) :
  stable wire_invariant (settle t s).
Proof. apply wire_alter. reflexivity. Qed.

Lemma wire_cancel_all (live : list TaskId) :
  stable wire_invariant
    (assign (fun ep =>
       set_loop_tasks
         (fold_left (fun store t => alter cancel_task t store) live
            (loop_tasks ep)) ep)).
Proof.
  intros ep (Hid & Hq & Hst & Htab). unfold assign. cbn [snd].
  unfold wire_invariant.
  cbn [_next_message_id _out_packets loop_tasks _in_flight_messages
       set_loop_tasks].
  split; [exact Hid|]. split; [exact Hq|]. split; [|exact Htab].
  apply Forall_lookup. intros i task Hi.
  rewrite cancel_all_lookup in Hi.
  destruct (bool_decide (i ∈ live)).
  - destruct (loop_tasks ep !! i) as [task0|] eqn:Hi0; [|discriminate Hi].
    cbn in Hi. inversion Hi; subst.
    pose proof (proj1 (Forall_lookup _ _) Hst i task0 Hi0) as H0.
    unfold coro_in_range in *. rewrite cancel_task_coro. exact H0.
  - apply (proj1 (Forall_lookup _ _) Hst i task Hi).
Qed.

Lemma wire_write_packet : stable wire_invariant _write_packet.
Proof.
  intros ep H. pose proof H as (Hid & Hq & Hst & Htab).
  unfold _write_packet, writer_write. run_monad.
  destruct (_have_out_packets ep); [|exact H].
  destruct (_out_packets ep) as [|data rest] eqn:Hqueue; [exact H|].
  inversion Hq; subst.
  case_bool_decide; cbn [snd]; unfold wire_invariant;
    cbn [_next_message_id _out_packets loop_tasks _in_flight_messages
         set_writer set_have_out_packets set_out_packets]; auto.
Qed.

Lemma wire_send_message_enqueue (env : Env) (message : bytes) :
  stable wire_invariant (send_message_enqueue env message).
Proof.
  intros ep H.
  destruct (send_message_enqueue_cases env message ep)
    as [(_ & Hlen & _ & Hid & Heq)|[[e Heq]|[Hbad _]]].
  - rewrite Heq. cbn [snd]. destruct H as (_ & Hq & Hst & Htab).
    unfold wire_invariant, enqueued.
    cbn [_next_message_id _out_packets loop_tasks _in_flight_messages
         set_have_out_packets set_out_packets set_next_message_id].
    split; [apply Z.mod_pos_bound; lia|]. split; [|split; assumption].
    apply Forall_app. split; [exact Hq|]. constructor; [|constructor].
    right. exists x02, (_next_message_id ep), message. auto.
  - rewrite Heq. exact H.
  - destruct H as (Hid & _). contradiction.
Qed.

Lemma wire_register (message_id : Z) :
  0 <= message_id < 65536 ->
  stable wire_invariant (send_message_register message_id).
Proof.
  intros Hmid ep H.
  destruct (send_message_register_cases message_id ep) as [[_ Heq]|[_ Heq]];
    rewrite Heq; [|exact H].
  destruct H as (Hid & Hq & Hst & Htab). cbn [snd].
  unfold wire_invariant, registered.
  cbn [_next_message_id _out_packets loop_tasks _in_flight_messages
       set_tasks set_in_flight_messages set_loop_tasks].
  split; [exact Hid|]. split; [exact Hq|]. split.
  - apply Forall_app. split; [exact Hst|]. constructor; [exact I|constructor].
  - apply map_Forall_insert_2; assumption.
Qed.

Lemma wire_set_response (message_id : Z) (msgobj : _InFlightMessage)
    (data : bytes) :
  0 <= message_id < 65536 ->
  stable wire_invariant (set_response message_id msgobj data).
Proof.
  intros Hmid ep H. pose proof H as (Hid & Hq & Hst & Htab).
  unfold set_response. run_monad.
  destruct (bool_decide (_response msgobj = None)); [|exact H].
  cbn [snd]. unfold wire_invariant.
  cbn [_next_message_id _out_packets loop_tasks _in_flight_messages
       set_in_flight_messages].
  split; [exact Hid|]. split; [exact Hq|]. split; [exact Hst|].
  apply map_Forall_insert_2; assumption.
Qed.

Lemma wire_del_in_flight (message_id : Z) :
  stable wire_invariant (del_in_flight message_id).
Proof.
  intros ep H. pose proof H as (Hid & Hq & Hst & Htab).
  unfold del_in_flight. run_monad.
  destruct (_in_flight_messages ep !! message_id); [|exact H].
  cbn [snd]. unfold wire_invariant.
  cbn [_next_message_id _out_packets loop_tasks _in_flight_messages
       set_in_flight_messages].
  split; [exact Hid|]. split; [exact Hq|]. split; [exact Hst|].
  apply map_Forall_delete. exact Htab.
Qed.

(** The bytes [_handle_raw_message] builds, when they can be built. *)
Lemma response_packet_Returns (message_id : Z) (response packet : bytes) :
  concat_bytes
    (concat_bytes
       (concat_bytes (to_bytes (_PacketType_value RESPONSE) 1)
                     (to_bytes message_id 2))
       (to_bytes (Z.of_nat (length response)) 2))
    (Returns response) = Returns packet ->
  well_formed_packet packet.
Proof.
  rewrite (to_bytes_tag RESPONSE).
  destruct (to_bytes message_id 2) as [bi|] eqn:Hi; [|discriminate].
  destruct (to_bytes (Z.of_nat (length response)) 2) as [bl|] eqn:Hl;
    [|discriminate].
  apply to_bytes_Returns in Hi, Hl. change (256 ^ Z.of_nat 2) with 65536 in *.
  destruct Hi as [Hi ->]. destruct Hl as [Hl ->].
  rewrite !be_digits_2 by lia.
  cbn [concat_bytes]. intros Heq. inversion Heq; subst.
  right. exists x03, message_id, response.
  split; [auto|]. split; [exact Hi|]. split; [lia|].
  reflexivity.
Qed.

Lemma wire_handle_raw_message (env : Env) (message_id : Z) (message : bytes) :
  stable wire_invariant (_handle_raw_message env message_id message).
Proof.
  unfold _handle_raw_message.
  apply stable_bind; [apply stable_read|]. intros [call|]; [|apply stable_ret].
  destruct (call message) as [response|e].
  - eapply (stable_bind_post _ well_formed_packet).
    + intros ep a ep' Heq. unfold lift in Heq. inversion Heq as [[Hp He]].
      apply (response_packet_Returns message_id response a Hp).
    + apply stable_lift.
    + intros packet Hwf. apply wire_enqueue, Hwf.
  - destruct e; first [apply stable_ret | apply stable_raise].
Qed.

Ltac wire_step :=
  first
    [ apply wire_write_packet
    | apply wire_send_message_enqueue
    | apply wire_handle_raw_message
    | apply wire_del_in_flight
    | apply wire_cancel_all
    | apply wire_cancel
    | apply wire_settle
    | apply wire_create_task; exact I
    | stable_step ].

Lemma wire_close (env : Env) : stable wire_invariant (close env).
Proof. unfold close, _get_live_tasks. repeat wire_step. Qed.

Lemma wire_send_message_finish (frame : SendFrame) (w : Wake) :
  stable wire_invariant (send_message_finish frame w).
Proof. unfold send_message_finish, wait_for. repeat wire_step. Qed.

Lemma wire_send_message_start (env : Env) (message : bytes)
    (timeout : option float) :
  stable wire_invariant (send_message_start env message timeout).
Proof.
  unfold send_message_start.
  apply (stable_bind_post _ (fun message_id => 0 <= message_id < 65536)).
  - intros ep a ep' Heq. apply send_message_enqueue_Returns in Heq. tauto.
  - apply wire_send_message_enqueue.
  - intros message_id Hid. apply stable_bind; [apply wire_register, Hid|].
    intros t. apply stable_ret.
Qed.

Lemma wire_handle_message_packet : stable wire_invariant _handle_message_packet.
Proof.
  unfold _handle_message_packet.
  apply (stable_bind_post _ (fun message_id => 0 <= message_id < 65536)).
  - intros ep a ep' Heq. apply (_read_int_16_range _ _ _ Heq).
  - repeat stable_step.
  - intros msgid Hid.
    apply stable_bind; [repeat stable_step|]. intros msglen.
    apply stable_bind; [repeat stable_step|]. intros msg.
    apply stable_bind; [apply stable_read|]. intros closing.
    apply stable_bind; [apply stable_assert|]. intros _.
    apply stable_bind; [repeat stable_step|]. intros _.
    apply stable_bind; [apply wire_create_task; exact Hid|]. intros t.
    repeat stable_step.
Qed.

Lemma wire_handle_response_packet :
  stable wire_invariant _handle_response_packet.
Proof.
  unfold _handle_response_packet.
  apply (stable_bind_post _ (fun message_id => 0 <= message_id < 65536)).
  - intros ep a ep' Heq. apply (_read_int_16_range _ _ _ Heq).
  - repeat stable_step.
  - intros msgid Hid.
    apply stable_bind; [repeat stable_step|]. intros rsplen.
    apply stable_bind; [repeat stable_step|]. intros rsp.
    apply stable_bind; [apply stable_read|]. intros table.
    destruct (table !! msgid) as [msgobj|]; [|apply stable_ret].
    apply wire_set_response, Hid.
Qed.

Lemma wire_read_packet (env : Env) : stable wire_invariant (_read_packet env).
Proof.
  unfold _read_packet.
  apply stable_bind; [apply stable_read|]. intros closing.
  apply stable_bind; [apply stable_assert|]. intros _.
  apply stable_bind; [repeat stable_step|]. intros v.
  apply stable_bind; [apply stable_lift|]. intros [| | |].
  - apply stable_raise.
  - repeat stable_step.
  - apply wire_handle_message_packet.
  - apply wire_handle_response_packet.
Qed.

Lemma wire_keepalive_tick (env : Env) : stable wire_invariant (_keepalive_tick env).
Proof.
  unfold _keepalive_tick.
  apply stable_bind; [apply stable_read|]. intros suppress.
  apply stable_bind.
  - destruct suppress; [apply stable_ret|].
    apply (stable_bind_post _ (fun packet => packet = [x01])).
    + intros ep a ep' Heq. inversion Heq. reflexivity.
    + apply stable_lift.
    + intros packet ->. apply wire_enqueue. left. reflexivity.
  - intros _. repeat stable_step.
Qed.

Section Wire.

Variable dataclass_to_json : _PeerInfo -> bytes.
Variable dataclass_from_json : bytes -> Outcome _PeerInfo.

Lemma run_op_wire (env : Env) (op : Op) :
  stable wire_invariant (run_op dataclass_to_json dataclass_from_json env op).
Proof.
  destruct op; cbn [run_op].
  - unfold run_start. repeat wire_step.
  - unfold discard. apply stable_bind; [apply wire_send_message_start|].
    intros f. apply stable_ret.
  - unfold discard. apply stable_bind; [apply wire_send_message_finish|].
    intros r. apply stable_ret.
  - apply wire_close.
  - repeat stable_step.
  - repeat stable_step.
  - repeat stable_step.
  - apply wire_read_packet.
  - repeat stable_step.
  - apply wire_write_packet.
  - apply wire_keepalive_tick.
  - unfold run_wait_task. repeat wire_step.
  - unfold run_handler_task. repeat wire_step.
  - unfold run_core_task_exit, _run_core_task_exit.
    repeat first [apply wire_close | wire_step].
Qed.

Lemma exec_wire (trace : list (Env * Op)) :
  forall ep, wire_invariant ep ->
  wire_invariant (exec dataclass_to_json dataclass_from_json trace ep).
Proof.
  induction trace as [|[env op] rest IH]; intros ep H; [exact H|].
  cbn [exec fold_left]. apply IH. apply (run_op_wire env op ep H).
Qed.

(** X17. From a new endpoint, whatever the loop runs: the id counter
    stays a 16-bit number, every key of the in-flight table is a 16-bit
    number, and every packet in the outgoing queue is one the peer can
    parse: a KEEPALIVE byte, or a MESSAGE or RESPONSE with its id and
    length in two big-endian bytes each and a payload of that length. *)
Theorem endpoint_stays_well_formed
    (env : Env) (handle_raw_message_call : Handler)
    (reader : StreamReader) (writer : StreamWriter) (debug_print : bool)
    (label : string) (keepalive_interval keepalive_timeout : float)
    (trace : list (Env * Op)) :
  let ep := exec dataclass_to_json dataclass_from_json trace
              (init env handle_raw_message_call reader writer debug_print
                 label keepalive_interval keepalive_timeout) in
  0 <= _next_message_id ep < 65536 /\
  (forall (message_id : Z) (msgobj : _InFlightMessage),
     _in_flight_messages ep !! message_id = Some msgobj ->
     0 <= message_id < 65536) /\
  (forall packet : bytes, In packet (_out_packets ep) ->
     packet = [x01] \/
     exists (tag : byte) (message_id : Z) (payload : bytes),
       (tag = x02 \/ tag = x03) /\
       0 <= message_id < 65536 /\
       Z.of_nat (length payload) <= 65535 /\
       packet = packet_layout tag message_id payload).
Proof.
  intros ep.
  assert (H : wire_invariant ep).
  { apply exec_wire. unfold wire_invariant. cbn.
    split; [lia|]. split; [constructor|]. split; [constructor|].
    apply map_Forall_empty. }
  destruct H as (Hid & Hq & _ & Htab).
  split; [exact Hid|]. split.
  - intros message_id msgobj Hentry. apply (Htab message_id msgobj Hentry).
  - intros packet Hin. apply (proj1 (List.Forall_forall _ _) Hq packet Hin).
Qed.

End Wire.

Lemma endpoint_stays_well_formed_witness :
  0 <= _next_message_id
         (exec Scenario.to_json Scenario.from_json
            (repeat (Scenario.env, OpSendMessage Scenario.abc None) 7)
            Scenario.fresh) < 65536.
Proof.
  exact (proj1 (endpoint_stays_well_formed Scenario.to_json Scenario.from_json
                  Scenario.env Scenario.echo (mkReader []) (mkWriter [] false)
                  false "A" DEFAULT_KEEPALIVE_INTERVAL DEFAULT_KEEPALIVE_TIMEOUT
                  (repeat (Scenario.env, OpSendMessage Scenario.abc None) 7))).
Defined.

(** ** Pruning *)

Lemma filter_idemp {A : Type} (f : A -> bool) (l : list A) :
  List.filter f (List.filter f l) = List.filter f l.
Proof.
  induction l as [|a l IH]; [reflexivity|].
  cbn [List.filter]. destruct (f a) eqn:Ha; [|exact IH].
  cbn [List.filter]. rewrite Ha, IH. reflexivity.
Qed.

(** X21. Pruning loses nothing that matters: [_prune_tasks] keeps
    exactly the tracked tasks that are not done, so the live tasks are
    the same before and after, a second pruning changes nothing, and
    [close] requests the same cancellations whether or not the list was
    pruned first. *)
Theorem prune_keeps_live_tasks (env : Env) (ep : RPCEndpoint) :
  let pruned := snd (_prune_tasks ep) in
  _get_live_tasks ep = (Returns (_tasks pruned), ep) /\
  _get_live_tasks pruned = (Returns (_tasks pruned), pruned) /\
  _prune_tasks pruned = (Returns tt, pruned) /\
  (env_ok env ep -> _closing ep = false ->
   _handle_raw_message_call ep <> None ->
   loop_tasks (snd (close env pruned)) = loop_tasks (snd (close env ep))).
Proof.
  intros pruned. unfold pruned, _prune_tasks, _get_live_tasks, assign, read.
  cbn [fst snd _tasks loop_tasks set_tasks].
  split; [reflexivity|]. split; [rewrite filter_idemp; reflexivity|]. split.
  - rewrite filter_idemp. reflexivity.
  - intros Henv Hcl Hh.
    destruct (_handle_raw_message_call ep) as [call|] eqn:Hcall;
      [|contradiction].
    rewrite (close_on_open env
               (set_tasks (List.filter (live_ref (loop_tasks ep)) (_tasks ep)) ep)
               call Henv Hcl Hcall).
    rewrite (close_on_open env ep call Henv Hcl Hcall).
    cbn [snd loop_tasks _tasks set_handle_raw_message_call set_writer
         set_loop_tasks set_tasks set_closing].
    rewrite filter_idemp. reflexivity.
Qed.

Lemma prune_keeps_live_tasks_witness :
  loop_tasks (snd (close Scenario.env (snd (_prune_tasks Scenario.running)))) =
    loop_tasks Scenario.closed.
Proof.
  destruct (prune_keeps_live_tasks Scenario.env Scenario.running)
    as (_ & _ & _ & Hclose).
  apply Hclose.
  - split; reflexivity.
  - reflexivity.
  - discriminate.
Defined.

(** ** The end of a core task *)

(** What [close] does to the store: it requests the cancellation of the
    tracked tasks, the done ones being untouched by it. *)
Lemma cancel_live_lookup (store : list Task) (tasks : list TaskId) (t : TaskId) :
  fold_left (fun s t' => alter cancel_task t' s)
    (List.filter (live_ref store) tasks) store !! t =
  if bool_decide (t ∈ tasks) then cancel_task <$> store !! t else store !! t.
Proof.
  rewrite cancel_all_lookup.
  case_bool_decide as Hlive; case_bool_decide as Hin; try reflexivity.
  - apply list_elem_of_In, filter_In in Hlive. destruct Hlive as [Hlive _].
    apply list_elem_of_In in Hlive. contradiction.
  - assert (Hdead : live_ref store t = false).
    { destruct (live_ref store t) eqn:Hl; [|reflexivity].
      exfalso. apply Hlive. apply list_elem_of_In, filter_In.
      split; [apply list_elem_of_In; exact Hin | exact Hl]. }
    unfold live_ref in Hdead.
    destruct (store !! t) as [[c st]|]; [|reflexivity].
    unfold done in Hdead. cbn in Hdead.
    destruct st; try discriminate Hdead; reflexivity.
Qed.

(** X22. Any core task exiting triggers shutdown, and the task itself
    ends cancelled.  On an open endpoint, whatever ended the wrapped
    loop, the last piece of a tracked core task closes the endpoint,
    requests the cancellation of the other tracked tasks, and, being
    one of the tasks its own [close()] cancels, ends cancelled rather
    than with a result.  On an endpoint that was closed meanwhile, the
    cancellation requested of the task is delivered: it ends cancelled,
    and nothing else changes. *)
Theorem core_task_exit_closes (env : Env) (ep : RPCEndpoint) (t : TaskId)
    (label : string) (o : Outcome unit) :
  env_ok env ep ->
  let ep' := snd (run_core_task_exit env t o ep) in
  (_closing ep = false ->
   _handle_raw_message_call ep <> None ->
   loop_tasks ep !! t = Some (mkTask (CoreCoro label) (Pending false)) ->
   t ∈ _tasks ep ->
   _closing ep' = true /\
   writer_closing (_writer ep') = true /\
   loop_tasks ep' !! t = Some (mkTask (CoreCoro label) Cancelled) /\
   forall i : TaskId, i <> t ->
     loop_tasks ep' !! i =
       if bool_decide (i ∈ _tasks ep)
       then cancel_task <$> loop_tasks ep !! i
       else loop_tasks ep !! i) /\
  (_closing ep = true ->
   loop_tasks ep !! t = Some (mkTask (CoreCoro label) (Pending true)) ->
   loop_tasks ep' !! t = Some (mkTask (CoreCoro label) Cancelled) /\
   (forall i : TaskId, i <> t -> loop_tasks ep' !! i = loop_tasks ep !! i) /\
   set_loop_tasks (loop_tasks ep) ep' = ep).
Proof.
  intros Henv ep'. split.
  - intros Hcl Hh Ht Hin.
    destruct (_handle_raw_message_call ep) as [call|] eqn:Hcall; [|contradiction].
    set (ep1 := set_loop_tasks
                  (alter (fun task => mkTask (coro task) (Pending false)) t
                     (loop_tasks ep)) ep).
    assert (Hstore1 : loop_tasks ep1 = loop_tasks ep).
    { unfold ep1. cbn [loop_tasks set_loop_tasks].
      apply list_eq. intros i. rewrite list_lookup_alter.
      destruct (decide (t = i)) as [<-|Hne]; [|reflexivity].
      rewrite Ht. reflexivity. }
    pose proof (close_on_open env ep1 call Henv Hcl Hcall) as Hclose.
    assert (Hlook : forall i,
      fold_left (fun s t' => alter cancel_task t' s)
        (List.filter (live_ref (loop_tasks ep1)) (_tasks ep1)) (loop_tasks ep1) !! i =
      if bool_decide (i ∈ _tasks ep)
      then cancel_task <$> loop_tasks ep !! i else loop_tasks ep !! i).
    { intros i. rewrite cancel_live_lookup, Hstore1. reflexivity. }
    assert (Hself :
      fold_left (fun s t' => alter cancel_task t' s)
        (List.filter (live_ref (loop_tasks ep1)) (_tasks ep1)) (loop_tasks ep1) !! t =
      Some (mkTask (CoreCoro label) (Pending true)))
      by (rewrite Hlook, (bool_decide_eq_true_2 _ Hin), Ht; reflexivity).
    unfold ep', run_core_task_exit, _run_core_task_exit, attempt, settle.
    run_monad. rewrite Ht. fold ep1. rewrite Hclose.
    destruct o as [[]|e]; [|destruct e];
      cbn [fst snd loop_tasks _closing _writer writer_closing
           set_handle_raw_message_call set_writer set_loop_tasks set_closing];
      rewrite ?Hself;
      cbn [fmap option_fmap option_map state end_state];
      (split; [reflexivity|]; split; [reflexivity|]; split;
       [rewrite list_lookup_alter_eq, Hself; reflexivity
       |intros i Hne; rewrite list_lookup_alter_ne by auto; apply Hlook]).
  - intros Hcl Ht.
    unfold ep', run_core_task_exit, _run_core_task_exit, attempt, settle, close.
    run_monad. rewrite Ht.
    cbn [loop_tasks set_loop_tasks].
    rewrite check_env_ok by exact Henv.
    cbn [_closing set_loop_tasks]. rewrite Hcl.
    cbn [fst snd loop_tasks set_loop_tasks].
    split; [|split].
    + rewrite !list_lookup_alter_eq, Ht. reflexivity.
    + intros i Hne. rewrite !list_lookup_alter_ne by auto. reflexivity.
    + destruct ep; reflexivity.
Qed.

Lemma core_task_exit_closes_witness :
  (_closing (snd (run_core_task_exit Scenario.env 1%nat
                    (Raises IncompleteReadError) Scenario.running)) = true /\
   loop_tasks (snd (run_core_task_exit Scenario.env 1%nat
                      (Raises IncompleteReadError) Scenario.running)) !! 1%nat =
     Some (mkTask (CoreCoro "read") Cancelled)) /\
  loop_tasks (snd (run_core_task_exit Scenario.env 1%nat
                     (Returns tt) Scenario.closed)) !! 1%nat =
    Some (mkTask (CoreCoro "read") Cancelled).
Proof.
  destruct (core_task_exit_closes Scenario.env Scenario.running 1%nat "read"
              (Raises IncompleteReadError)) as [Hopen _];
    [split; reflexivity|].
  destruct (core_task_exit_closes Scenario.env Scenario.closed 1%nat "read"
              (Returns tt)) as [_ Hclosed];
    [split; vm_compute; reflexivity|].
  split.
  - destruct Hopen as (Hcl & _ & Hself & _).
    + reflexivity.
    + discriminate.
    + reflexivity.
    + apply list_elem_of_In. vm_compute. auto.
    + split; [exact Hcl | exact Hself].
  - destruct Hclosed as (Hself & _).
    + vm_compute. reflexivity.
    + vm_compute. reflexivity.
    + exact Hself.
Defined.
